(** * Aegis gateway: policy evaluation, parameter hashing, request handling

    A shallow embedding of the decision pipeline of the gateway:
    - [internal/policy]: [NewManager], [load_policies], [check_policy_valid],
      [Reload], [check_conditions], [Evaluate], [HashParams];
    - [pkg/telemetry]: [LogDecision] and the line it writes;
    - [internal/gateway]: [NewGateway], [handle_health], [handle_reload],
      [watchPolicies], [handleToolRequest], [forward_to_adapter];
    - [internal/adapters/payments]: [HandleCreate], [HandleRefund],
      [HandleHealth].

    Go strings are byte sequences and are modelled by [string]; Go [int] is
    modelled by [Z]; [float64] by [spec_float] (binary64); a Go map that is
    ranged over is modelled by its list of entries, and every [range] loop
    receives the order in which the runtime yields the entries. *)

From Stdlib Require Import ZArith List String Ascii Bool Lia Permutation.
From Stdlib Require Import Floats.SpecFloat.
From stdpp Require Import gmap strings list.

Local Open Scope Z_scope.
Local Open Scope string_scope.
Local Open Scope list_scope.

(** ** float64 *)

Module Float64.

Definition prec : Z := 53.
Definition emax : Z := 1024.

(** [float64(v)] for a Go [int]: round to nearest, ties to even. *)
Definition of_int (v : Z) : spec_float := binary_normalize prec emax v 0 false.

(** [x > y] on float64; false as soon as one side is NaN. *)
Definition gt (x y : spec_float) : bool := SFltb y x.

(** [x == y] on float64. *)
Definition eqb (x y : spec_float) : bool := SFeqb x y.

Definition digit (d : Z) : ascii := ascii_of_N (48 + Z.to_N d).

(** Decimal digits of a non-negative integer, most significant first. *)
Fixpoint digits_fuel (fuel : nat) (n : Z) (acc : string) : string :=
  match fuel with
  | O => acc
  | S fuel' =>
      let acc' := String (digit (n mod 10)) acc in
      if (n <? 10)%Z then acc' else digits_fuel fuel' (n / 10) acc'
  end.

Definition utoa (n : Z) : string := digits_fuel (S (Z.to_nat (Z.log2 n))) n "".

(** [strconv.Itoa]. *)
Definition itoa (n : Z) : string :=
  if (n <? 0)%Z then "-" +:+ utoa (- n) else utoa n.

(** Nearest integer to [num / den] for [0 <= num], [0 < den], ties to
    the even neighbour. *)
Definition round_half_even (num den : Z) : Z :=
  let q := num / den in
  match (2 * (num mod den) ?= den)%Z with
  | Lt => q
  | Gt => q + 1
  | Eq => if Z.even q then q else q + 1
  end.

(** The magnitude [m * 2^e] expressed in hundredths, rounded. *)
Definition hundredths (m : positive) (e : Z) : Z :=
  if (0 <=? e)%Z then Z.pos m * 2 ^ e * 100
  else round_half_even (Z.pos m * 100) (2 ^ (- e)).

Definition two_decimals (q : Z) : string :=
  utoa (q / 100) +:+ "." +:+
  String (digit (q mod 100 / 10)) (String (digit (q mod 10)) "").

Definition sign (s : bool) : string := if s then "-" else "".

(** [fmt.Sprintf("%.2f", x)]. *)
Definition Sprintf_2f (x : spec_float) : string :=
  match x with
  | S754_zero s => sign s +:+ "0.00"
  | S754_infinity s => if s then "-Inf" else "+Inf"
  | S754_nan => "NaN"
  | S754_finite s m e => sign s +:+ two_decimals (hundredths m e)
  end.

End Float64.

(** ** Dynamic values: Go's [interface{}] as produced by the YAML and JSON
    decoders *)

#[local] Unset Elimination Schemes.
Inductive value : Type :=
| VNil
| VBool (b : bool)
| VInt (n : Z)
| VUint64 (n : Z)
| VFloat64 (f : spec_float)
| VString (s : string)
| VSlice (l : list value)
| VMap (m : list (string * value)).
#[local] Set Elimination Schemes.

(** The entries of a Go [map[string]V]. *)
Abbreviation entries V := (list (string * V)).

Fixpoint map_get {V} (m : entries V) (k : string) : option V :=
  match m with
  | [] => None
  | (k', v) :: rest => if k' =? k then Some v else map_get rest k
  end.

(** A [map[string]interface{}] variable; [None] is the nil map. *)
Definition Params : Type := option (entries value).

(** [params[k]]: the nil interface when the key is absent or the map is nil. *)
Definition index (params : Params) (k : string) : value :=
  match params with
  | None => VNil
  | Some m => match map_get m k with Some v => v | None => VNil end
  end.

(** The comma-ok type assertions [v.(float64)] and [v.(string)]. *)
Definition as_float64 (v : value) : option spec_float :=
  match v with VFloat64 f => Some f | _ => None end.

Definition as_string (v : value) : option string :=
  match v with VString s => Some s | _ => None end.

Definition as_slice (v : value) : option (list value) :=
  match v with VSlice l => Some l | _ => None end.

(** ** internal/policy *)

Record Permission := {
  Tool : string;
  Actions : list string;
  Conditions : entries value
}.

Record Agent := {
  ID : string;
  Allow : list Permission
}.

Record Policy := {
  Version : Z;
  Agents : list Agent
}.

Module Decision.
Record t := mk {
  Allow : bool;
  Reason : string;
  Version : Z
}.
End Decision.

Record Manager := {
  policies : entries Policy;
  dir : string
}.

(** [check_policy_valid]: [None] is the nil error. *)
Definition check_policy_valid (p : Policy) : option string :=
  if (Version p <? 1)%Z then Some "policy version must be >= 1"
  else if (Z.of_nat (length (Agents p)) =? 0)%Z then Some "policy must have at least one agent"
  else if existsb (fun agent => ID agent =? "") (Agents p) then Some "agent ID cannot be empty"
  else None.

(** The order in which one [range] loop over a map yields its entries: the
    runtime picks it afresh for every loop, so it is an input of the
    functions that range over [m.policies] and over [perm.Conditions]. *)
Record range_order := {
  order_policies : entries Policy -> entries Policy;
  order_conditions : entries value -> entries value
}.

(** Every entry is yielded exactly once. *)
Definition range_ok (ro : range_order) : Prop :=
  (forall m, order_policies ro m ≡ₚ m) /\ (forall c, order_conditions ro c ≡ₚ c).

Definition storage_order : range_order :=
  {| order_policies := fun m => m; order_conditions := fun c => c |}.

Definition reverse_order : range_order :=
  {| order_policies := @rev _; order_conditions := @rev _ |}.

(** The search loop over [allowedCurrs] in the "currencies" case. *)
Fixpoint currencyFound (allowedCurrs : list value) (curr : string) : bool :=
  match allowedCurrs with
  | [] => false
  | c :: rest =>
      match as_string c with
      | None => currencyFound rest curr
      | Some cStr => if cStr =? curr then true else currencyFound rest curr
      end
  end.

(** The type switch on [condVal] in the "max_amount" case: [float64] and
    [int] are accepted, the default case is [None]. *)
Definition max_amount_value (condVal : value) : option spec_float :=
  match condVal with
  | VFloat64 v => Some v
  | VInt v => Some (Float64.of_int v)
  | _ => None
  end.

(** The body of the loop of [check_conditions] for one entry: [Some reason]
    when the body returns [reason], [None] when the loop goes on to the next
    entry (also after the WARNING printed on an ill-typed condition value). *)
Definition check_condition (condName : string) (condVal : value) (params : Params)
  : option string :=
  if condName =? "max_amount" then
    match max_amount_value condVal with
    | None => None
    | Some maxAmt =>
        match as_float64 (index params "amount") with
        | None => Some "Invalid amount parameter"
        | Some amt =>
            if Float64.gt amt maxAmt
            then Some ("Amount " +:+ Float64.Sprintf_2f amt +:+
                       " exceeds max_amount=" +:+ Float64.Sprintf_2f maxAmt)
            else None
        end
    end
  else if condName =? "currencies" then
    match as_slice condVal with
    | None => None
    | Some allowedCurrs =>
        match as_string (index params "currency") with
        | None => Some "Invalid currency parameter"
        | Some curr =>
            if negb (currencyFound allowedCurrs curr)
            then Some ("Currency " +:+ curr +:+ " not in allowed list")
            else None
        end
    end
  else if condName =? "folder_prefix" then
    match as_string condVal with
    | None => None
    | Some pfx =>
        match as_string (index params "path") with
        | None => Some "Invalid path parameter"
        | Some pth =>
            if negb (String.prefix pfx pth)
            then Some ("Path " +:+ pth +:+ " does not match required prefix " +:+ pfx)
            else None
        end
    end
  else None.

(** [check_conditions], over the entries in the order the loop visits them. *)
Fixpoint check_conditions (conditions : entries value) (params : Params) : string :=
  match conditions with
  | [] => ""
  | (condName, condVal) :: rest =>
      match check_condition condName condVal params with
      | Some reason => reason
      | None => check_conditions rest params
      end
  end.

Section Evaluate.

Variable ro : range_order.
Variables agentID tool action : string.
Variable params : Params.

(** The loop that sets [actionAllowed]. *)
Fixpoint actionAllowed (actions : list string) : bool :=
  match actions with
  | [] => false
  | a :: rest => if a =? action then true else actionAllowed rest
  end.

(** The loop over [agent.Allow]; [Some d] when the loop returns [d]. *)
Fixpoint eval_permissions (version : Z) (allow : list Permission)
  : option Decision.t :=
  match allow with
  | [] => None
  | perm :: rest =>
      if negb (Tool perm =? tool) then eval_permissions version rest
      else if negb (actionAllowed (Actions perm)) then eval_permissions version rest
      else
        let reason :=
          check_conditions (order_conditions ro (Conditions perm)) params in
        if negb (reason =? "")
        then Some (Decision.mk false reason version)
        else Some (Decision.mk true "Policy allows this action" version)
  end.

(** The loop over [policy.Agents]. *)
Fixpoint eval_agents (version : Z) (agents : list Agent) : option Decision.t :=
  match agents with
  | [] => None
  | agent :: rest =>
      if negb (ID agent =? agentID) then eval_agents version rest
      else
        match eval_permissions version (Allow agent) with
        | Some d => Some d
        | None => eval_agents version rest
        end
  end.

(** The loop over [m.policies], in the order the runtime yields the files. *)
Fixpoint eval_policies (files : entries Policy) : option Decision.t :=
  match files with
  | [] => None
  | (_, policy) :: rest =>
      match eval_agents (Version policy) (Agents policy) with
      | Some d => Some d
      | None => eval_policies rest
      end
  end.

Definition Evaluate (m : Manager) : Decision.t :=
  match eval_policies (order_policies ro (policies m)) with
  | Some d => d
  | None =>
      Decision.mk false
        ("No policy found for agent=" +:+ agentID +:+ ", tool=" +:+ tool +:+
         ", action=" +:+ action)
        0
  end.

End Evaluate.

(** A call of [Evaluate] on a snapshot may return [d]: some admissible
    iteration order produces it. *)
Definition Evaluate_returns (m : Manager) (agentID tool action : string)
    (params : Params) (d : Decision.t) : Prop :=
  exists ro, range_ok ro /\ Evaluate ro agentID tool action params m = d.


(** ** crypto/sha256 and encoding/hex *)

Module Sha256.

Definition add32 (x y : Z) : Z := (x + y) mod 2 ^ 32.

Definition rotr (n x : Z) : Z :=
  Z.lor (Z.shiftr x n) (Z.shiftl x (32 - n) mod 2 ^ 32).

Definition not32 (x : Z) : Z := Z.lxor x 4294967295.

Definition Ch (x y z : Z) : Z := Z.lxor (Z.land x y) (Z.land (not32 x) z).

Definition Maj (x y z : Z) : Z :=
  Z.lxor (Z.lxor (Z.land x y) (Z.land x z)) (Z.land y z).

Definition bsig0 (x : Z) : Z := Z.lxor (Z.lxor (rotr 2 x) (rotr 13 x)) (rotr 22 x).
Definition bsig1 (x : Z) : Z := Z.lxor (Z.lxor (rotr 6 x) (rotr 11 x)) (rotr 25 x).
Definition ssig0 (x : Z) : Z := Z.lxor (Z.lxor (rotr 7 x) (rotr 18 x)) (Z.shiftr x 3).
Definition ssig1 (x : Z) : Z := Z.lxor (Z.lxor (rotr 17 x) (rotr 19 x)) (Z.shiftr x 10).

(** The constants of FIPS 180-4: the first 32 bits of the fractional parts
    of the cube roots (for [K]) and of the square roots (for [H0]) of the
    first primes. *)
Definition is_prime (n : Z) : bool :=
  (1 <? n)%Z &&
  forallb (fun d => negb (n mod d =? 0)%Z) (map Z.of_nat (seq 2 (Z.to_nat n - 2))).

Definition primes_below (n : nat) : list Z :=
  List.filter is_prime (map Z.of_nat (seq 2 (n - 2))).

(** The largest [r] in [lo, hi) with [r ^ k <= n], by bisection. *)
Fixpoint root_search (fuel : nat) (k n lo hi : Z) : Z :=
  match fuel with
  | O => lo
  | S fuel' =>
      if (hi - lo <=? 1)%Z then lo
      else
        let mid := (lo + hi) / 2 in
        if (mid ^ k <=? n)%Z then root_search fuel' k n mid hi
        else root_search fuel' k n lo mid
  end.

Definition iroot (k n : Z) : Z :=
  root_search (Z.to_nat (Z.log2 n) + 2) k n 0 (2 ^ (Z.log2 n / k + 1)).

Definition frac_root32 (k p : Z) : Z := iroot k (p * 2 ^ (32 * k)) mod 2 ^ 32.

Definition K : list Z := Eval vm_compute in map (frac_root32 3) (primes_below 312).

Definition H0 : list Z := Eval vm_compute in map (frac_root32 2) (primes_below 20).

(** One round on the working variables [a .. h]. *)
Definition round (st : list Z) (k w : Z) : list Z :=
  match st with
  | [a; b; c; d; e; f; g; h] =>
      let T1 := add32 (add32 (add32 h (bsig1 e)) (add32 (Ch e f g) k)) w in
      let T2 := add32 (bsig0 a) (Maj a b c) in
      [add32 T1 T2; a; b; c; add32 d T1; e; f; g]
  | _ => st
  end.

(** The 64 rounds; [win] is the sliding window W[t .. t+15] of the message
    schedule. *)
Fixpoint rounds (ks win st : list Z) : list Z :=
  match ks with
  | [] => st
  | k :: ks' =>
      let w0 := nth 0 win 0 in
      let w16 := add32 (add32 (ssig1 (nth 14 win 0)) (nth 9 win 0))
                       (add32 (ssig0 (nth 1 win 0)) w0) in
      rounds ks' (tl win ++ [w16]) (round st k w0)
  end.

Definition compress (st block : list Z) : list Z :=
  zip_with add32 st (rounds K block st).

Definition bytes_of (s : string) : list Z :=
  map (fun c => Z.of_N (N_of_ascii c)) (list_ascii_of_string s).

(** The [n] low bytes of [x], big-endian. *)
Definition be (n : nat) (x : Z) : list Z :=
  map (fun i => Z.shiftr x (8 * Z.of_nat i) mod 256) (rev (seq 0 n)).

Definition pad (msg : list Z) : list Z :=
  let L := Z.of_nat (length msg) in
  msg ++ [128] ++ repeat 0 (Z.to_nat ((55 - L) mod 64)) ++ be 8 (8 * L).

Definition word_of (bs : list Z) : Z := fold_left (fun acc b => acc * 256 + b) bs 0.

Fixpoint chunks {A} (n size : nat) (l : list A) : list (list A) :=
  match n with
  | O => []
  | S n' => firstn size l :: chunks n' size (skipn size l)
  end.

Definition blocks (bytes : list Z) : list (list Z) :=
  map (fun blk => map word_of (chunks 16 4 blk))
      (chunks (Nat.div (length bytes) 64) 64 bytes).

(** The eight 32-bit words of the digest. *)
Definition Sum256_words (data : string) : list Z :=
  fold_left compress (blocks (pad (bytes_of data))) H0.

(** [sha256.Sum256]: the 32 bytes of the digest. *)
Definition Sum256 (data : string) : string :=
  string_of_list_ascii
    (map (fun b => ascii_of_N (Z.to_N b)) (concat (map (be 4) (Sum256_words data)))).

End Sha256.

Definition byte_of (c : ascii) : Z := Z.of_N (N_of_ascii c).

Definition hextable : list ascii := list_ascii_of_string "0123456789abcdef".

Definition hexdigit (n : Z) : ascii := nth (Z.to_nat n) hextable "0"%char.

(** [hex.EncodeToString]. *)
Fixpoint EncodeToString (src : string) : string :=
  match src with
  | EmptyString => EmptyString
  | String c rest =>
      String (hexdigit (Z.shiftr (byte_of c) 4))
        (String (hexdigit (Z.land (byte_of c) 15)) (EncodeToString rest))
  end.

(** ** unicode/utf8 *)

Definition RuneError : Z := 65533.

Definition in_range (lo hi b : Z) : bool := (lo <=? b)%Z && (b <=? hi)%Z.

(** Length of the sequence announced by a lead byte [s0 >= 0x80] and the
    accepted range of its second byte; length 1 marks an invalid lead. *)
Definition lead_info (s0 : Z) : nat * Z * Z :=
  if in_range 0xC2 0xDF s0 then (2%nat, 0x80, 0xBF)
  else if (s0 =? 0xE0)%Z then (3%nat, 0xA0, 0xBF)
  else if in_range 0xE1 0xEC s0 then (3%nat, 0x80, 0xBF)
  else if (s0 =? 0xED)%Z then (3%nat, 0x80, 0x9F)
  else if in_range 0xEE 0xEF s0 then (3%nat, 0x80, 0xBF)
  else if (s0 =? 0xF0)%Z then (4%nat, 0x90, 0xBF)
  else if in_range 0xF1 0xF3 s0 then (4%nat, 0x80, 0xBF)
  else if (s0 =? 0xF4)%Z then (4%nat, 0x80, 0x8F)
  else (1%nat, 0, 0).

Definition low6 (b : Z) : Z := Z.land b 0x3F.

(** [utf8.DecodeRuneInString] on the bytes of a string: the rune and the
    number of bytes it takes; [(RuneError, 1)] on an invalid encoding. *)
Definition DecodeRune (bs : list Z) : Z * nat :=
  match bs with
  | [] => (RuneError, 0%nat)
  | s0 :: rest =>
      if (s0 <? 0x80)%Z then (s0, 1%nat)
      else
        let '(sz, lo, hi) := lead_info s0 in
        match sz, rest with
        | 2%nat, s1 :: _ =>
            if in_range lo hi s1
            then (Z.lor (Z.shiftl (Z.land s0 0x1F) 6) (low6 s1), 2%nat)
            else (RuneError, 1%nat)
        | 3%nat, s1 :: s2 :: _ =>
            if in_range lo hi s1 && in_range 0x80 0xBF s2
            then (Z.lor (Z.shiftl (Z.land s0 0x0F) 12)
                    (Z.lor (Z.shiftl (low6 s1) 6) (low6 s2)), 3%nat)
            else (RuneError, 1%nat)
        | 4%nat, s1 :: s2 :: s3 :: _ =>
            if in_range lo hi s1 && in_range 0x80 0xBF s2 && in_range 0x80 0xBF s3
            then (Z.lor (Z.shiftl (Z.land s0 0x07) 18)
                    (Z.lor (Z.shiftl (low6 s1) 12)
                       (Z.lor (Z.shiftl (low6 s2) 6) (low6 s3))), 4%nat)
            else (RuneError, 1%nat)
        | _, _ => (RuneError, 1%nat)
        end
  end.

(** ** encoding/json *)

#[local] Unset Elimination Schemes.
Inductive json : Type :=
| JNull
| JBool (b : bool)
| JNumber (lit : string)
| JString (s : string)
| JArray (items : list json)
| JObject (members : list (string * json)).
#[local] Set Elimination Schemes.

(** The library functions the gateway relies on and whose algorithms are
    not part of the repository. *)
Class GoLib := {
  (** The scanner of encoding/json: the syntax tree of a JSON text, string
      literals unquoted; [None] on a syntax error. *)
  json_scan : string -> option json;
  (** [strconv.ParseFloat(lit, 64)] on a JSON number literal; [None] when
      the literal is out of the range of float64. *)
  ParseFloat : string -> option spec_float;
  (** The float64 encoder of encoding/json on a finite number: the shortest
      decimal that reads back as the same float64. *)
  FormatFloat : spec_float -> string
}.

Definition dquote : ascii := ascii_of_N 34.
Definition backslash : ascii := ascii_of_N 92.

Definition u00 (b : Z) : string :=
  String backslash
    ("u00" +:+ String (hexdigit (Z.shiftr b 4)) (String (hexdigit (Z.land b 15)) "")).

(** The escape of one byte below 0x80 in [appendString] (HTML escaping on). *)
Definition escape_ascii (c : ascii) : string :=
  let b := byte_of c in
  if (b =? 34)%Z || (b =? 92)%Z then String backslash (String c "")
  else if (b =? 8)%Z then String backslash "b"
  else if (b =? 12)%Z then String backslash "f"
  else if (b =? 10)%Z then String backslash "n"
  else if (b =? 13)%Z then String backslash "r"
  else if (b =? 9)%Z then String backslash "t"
  else if (b <? 32)%Z || (b =? 60)%Z || (b =? 62)%Z || (b =? 38)%Z then u00 b
  else String c "".

(** The loop of [appendString]; [pending] bytes of a multi-byte rune are
    still to be copied ([copy]) or dropped. *)
Fixpoint appendString_loop (pending : nat) (copy : bool) (src : string) : string :=
  match src with
  | EmptyString => EmptyString
  | String c rest =>
      match pending with
      | S n =>
          (if copy then String c "" else "") +:+ appendString_loop n copy rest
      | O =>
          if (byte_of c <? 0x80)%Z then escape_ascii c +:+ appendString_loop 0 true rest
          else
            let '(r, size) := DecodeRune (map byte_of (list_ascii_of_string src)) in
            if (r =? RuneError)%Z && Nat.eqb size 1
            then String backslash "ufffd" +:+ appendString_loop 0 true rest
            else if (r =? 0x2028)%Z || (r =? 0x2029)%Z
            then String backslash ("u202" +:+ String (hexdigit (Z.land r 15)) "")
                 +:+ appendString_loop (Nat.pred size) false rest
            else String c (appendString_loop (Nat.pred size) true rest)
      end
  end.

(** A Go string as a JSON string literal. *)
Definition appendString (src : string) : string :=
  String dquote (appendString_loop 0 true src +:+ String dquote "").

Fixpoint join (sep : string) (l : list string) : string :=
  match l with
  | [] => ""
  | [x] => x
  | x :: rest => x +:+ sep +:+ join sep rest
  end.

(** Insertion of an entry into a list sorted by key, byte-wise order. *)
Fixpoint insert_sorted {V} (k : string) (v : V) (l : entries V) : entries V :=
  match l with
  | [] => [(k, v)]
  | (k', v') :: rest =>
      if (k <=? k')%string then (k, v) :: l else (k', v') :: insert_sorted k v rest
  end.

(** The map encoder sorts the entries by key before it writes them. *)
Fixpoint sort_keys {V} (l : entries V) : entries V :=
  match l with
  | [] => []
  | (k, v) :: rest => insert_sorted k v (sort_keys rest)
  end.

(** [m[k] = v] on the entries of a map. *)
Fixpoint map_set {V} (m : entries V) (k : string) (v : V) : entries V :=
  match m with
  | [] => [(k, v)]
  | (k', v') :: rest =>
      if k' =? k then (k, v) :: rest else (k', v') :: map_set rest k v
  end.

Inductive result (A : Type) : Type :=
| Ok (a : A)
| Err (msg : string).
Arguments Ok {A} a.
Arguments Err {A} msg.

Section Json.

Context `{GoLib}.

Definition is_finite (f : spec_float) : bool :=
  match f with
  | S754_zero _ | S754_finite _ _ _ => true
  | _ => false
  end.

(** The encoding of one value by [json.Marshal]; [None] is an
    UnsupportedValueError (NaN or an infinity). *)
Fixpoint encode (v : value) : option string :=
  match v with
  | VNil => Some "null"
  | VBool b => Some (if b then "true" else "false")
  | VInt n => Some (Float64.itoa n)
  | VUint64 n => Some (Float64.itoa n)
  | VFloat64 f => if is_finite f then Some (FormatFloat f) else None
  | VString s => Some (appendString s)
  | VSlice l =>
      let fix items (l : list value) : option (list string) :=
        match l with
        | [] => Some []
        | x :: rest =>
            match encode x, items rest with
            | Some a, Some b => Some (a :: b)
            | _, _ => None
            end
        end in
      match items l with
      | Some xs => Some ("[" +:+ join "," xs +:+ "]")
      | None => None
      end
  | VMap m =>
      let fix members (m : entries value) : option (entries string) :=
        match m with
        | [] => Some []
        | (k, x) :: rest =>
            match encode x, members rest with
            | Some a, Some b => Some ((k, a) :: b)
            | _, _ => None
            end
        end in
      match members m with
      | Some kvs =>
          Some ("{" +:+
                join "," (map (fun kv => appendString (fst kv) +:+ ":" +:+ snd kv)
                            (sort_keys kvs)) +:+ "}")
      | None => None
      end
  end.

(** [json.Marshal(params)] for [params : map[string]interface{}]. *)
Definition Marshal (params : Params) : option string :=
  match params with
  | None => Some "null"
  | Some m => encode (VMap m)
  end.

(** [HashParams]: the error of [json.Marshal] is dropped, [data] is then
    empty. *)
Definition HashParams (params : Params) : string :=
  let data := match Marshal params with Some d => d | None => "" end in
  EncodeToString (Sha256.Sum256 data).

(** The value stored in an [interface{}] for a JSON syntax tree; [None] when
    a number does not fit float64. *)
Fixpoint decode (j : json) : option value :=
  match j with
  | JNull => Some VNil
  | JBool b => Some (VBool b)
  | JNumber lit =>
      match ParseFloat lit with Some f => Some (VFloat64 f) | None => None end
  | JString s => Some (VString s)
  | JArray l =>
      let fix items (l : list json) : option (list value) :=
        match l with
        | [] => Some []
        | x :: rest =>
            match decode x, items rest with
            | Some a, Some b => Some (a :: b)
            | _, _ => None
            end
        end in
      match items l with Some xs => Some (VSlice xs) | None => None end
  | JObject kvs =>
      let fix members (kvs : entries json) (acc : entries value)
        : option (entries value) :=
        match kvs with
        | [] => Some acc
        | (k, x) :: rest =>
            match decode x with
            | Some a => members rest (map_set acc k a)
            | None => None
            end
        end in
      match members kvs [] with Some m => Some (VMap m) | None => None end
  end.

(** [json.Unmarshal(data, &requestParams)] with [requestParams] a nil
    [map[string]interface{}]: [null] leaves the map nil, an object fills a
    fresh map, any other JSON value is an UnmarshalTypeError. *)
Definition Unmarshal (data : string) : result Params :=
  match json_scan data with
  | None => Err "invalid character"
  | Some JNull => Ok None
  | Some (JObject kvs) =>
      match decode (JObject kvs) with
      | Some (VMap m) => Ok (Some m)
      | _ => Err "json: cannot unmarshal number into Go value of type float64"
      end
  | Some _ => Err "json: cannot unmarshal into Go value of type map[string]interface {}"
  end.

End Json.

(** ** pkg/telemetry *)

Module AuditLog.
Record t := mk {
  Timestamp : string;
  TraceID : string;
  AgentID : string;
  Tool : string;
  Action : string;
  Decision : bool;
  Reason : string;
  Version : Z;
  ParamsHash : string;
  LatencyMs : spec_float;
  ParentAgent : string
}.
End AuditLog.

Inductive attribute : Type :=
| AttrString (s : string)
| AttrInt (n : Z)
| AttrFloat64 (f : spec_float)
| AttrBool (b : bool).

(** What a handler does to the outside world, in program order. *)
Inductive effect : Type :=
| SpanStart (name : string)
| SpanEnd (name : string)
| SetAttributes (attrs : entries attribute)
| AuditRecord (log : AuditLog.t)
| HttpPost (url contentType body : string).

(** What the surroundings supply to one request:
    - [ranges]: the orders the runtime picks for the map iterations;
    - [now]: [time.Now().UTC().Format(time.RFC3339)] at the audit;
    - [trace_id]: the trace id of the span, empty when the span context is
      not valid;
    - [elapsed_us]: [time.Since(startTime).Microseconds()] after evaluation;
    - [new_request_error url]: the error of [http.NewRequestWithContext];
    - [adapter_do url body]: the outcome of [httpClient.Do]: a transport
      error (timeout included), or the status code and the result of
      reading the response body. *)
Record Env := {
  ranges : range_order;
  now : string;
  trace_id : string;
  elapsed_us : Z;
  new_request_error : string -> option string;
  adapter_do : string -> string -> result (Z * result string)
}.

(** [LogDecision]: one record, marshalled once, printed on stdout and
    appended to the log file. *)
Definition LogDecision (env : Env) (agentID tool action reason paramsHash parentAgent : string)
    (allowed : bool) (version : Z) (latencyMs : spec_float) : list effect :=
  let traceID := trace_id env in
  [AuditRecord
     (AuditLog.mk (now env) traceID agentID tool action allowed reason version
        paramsHash latencyMs parentAgent)].

Definition AddSpanAttributes (attrs : entries attribute) : list effect :=
  [SetAttributes attrs].

(** ** internal/gateway *)

Module ErrorResponse.
Record t := mk {
  Error : string;
  Reason : string
}.
End ErrorResponse.

Record Response := {
  StatusCode : Z;
  Header : gmap string string;
  Body : string
}.

(** An inbound request as the handler reads it: the path variables, the two
    headers and the result of [io.ReadAll(r.Body)]. *)
Record Request := {
  vars_tool : string;
  vars_action : string;
  X_Agent_ID : string;
  X_Parent_Agent : string;
  ReadAll_Body : result string
}.

Record Gateway := {
  policyManager : Manager;
  adapters : gmap string string
}.

Definition newline : string := String (ascii_of_N 10) "".

(** [s] between double quotes, nothing escaped. *)
Definition quoted (s : string) : string := String dquote (s +:+ String dquote "").

(** [json.NewEncoder(w).Encode(ErrorResponse{...})]: [reason] is omitted
    when empty. *)
Definition Encode_ErrorResponse (e : ErrorResponse.t) : string :=
  "{" +:+ appendString "error" +:+ ":" +:+ appendString (ErrorResponse.Error e) +:+
  (if ErrorResponse.Reason e =? "" then ""
   else "," +:+ appendString "reason" +:+ ":" +:+ appendString (ErrorResponse.Reason e)) +:+
  "}" +:+ newline.

(** [json.NewEncoder(w).Encode(map[string]string{"status": s})]. *)
Definition Encode_status (s : string) : string :=
  "{" +:+ appendString "status" +:+ ":" +:+ appendString s +:+ "}" +:+ newline.

Definition application_json : gmap string string :=
  {[ "Content-Type" := "application/json" ]}.

(** The three statements every error branch of the handlers repeats: set the
    content type, write the status, encode the error. *)
Definition write_error (code : Z) (kind reason : string) : Response :=
  {| StatusCode := code;
     Header := application_json;
     Body := Encode_ErrorResponse (ErrorResponse.mk kind reason) |}.

(** [http.Error]. *)
Definition http_Error (error : string) (code : Z) : Response :=
  {| StatusCode := code;
     Header := {[ "Content-Type" := "text/plain; charset=utf-8";
                  "X-Content-Type-Options" := "nosniff" ]};
     Body := error +:+ newline |}.

Definition handle_health : Response :=
  {| StatusCode := 200; Header := application_json; Body := Encode_status "healthy" |}.

(** *** The policy directory *)

Record DirEntry := {
  Name : string;
  IsDir : bool
}.

Record FileSystem := {
  ReadDir : string -> result (list DirEntry);
  ReadFile : string -> string -> result string
}.

Definition HasSuffix (s suffix : string) : bool :=
  let n := String.length s in
  let k := String.length suffix in
  Nat.leb k n && (substring (n - k) k s =? suffix).

Definition TrimSuffix (s suffix : string) : string :=
  if HasSuffix s suffix then substring 0 (String.length s - String.length suffix) s
  else s.

(** *** File-watcher events *)

Module Op.
Definition Create : Z := 1.
Definition Write : Z := 2.
Definition Remove : Z := 4.
Definition Rename : Z := 8.
Definition Chmod : Z := 16.
End Op.

Record Event := {
  EventName : string;
  EventOp : Z
}.

(** What one [select] of the watcher loop receives. *)
Inductive received : Type :=
| FromEvents (event : Event)
| EventsClosed
| FromErrors (err : string)
| ErrorsClosed.

(** The test that guards the reload in [watchPolicies]. *)
Definition write_or_create (event : Event) : bool :=
  (Z.land (EventOp event) Op.Write =? Op.Write)%Z ||
  (Z.land (EventOp event) Op.Create =? Op.Create)%Z.

Inductive watch_effect : Type :=
| Printed (line : string)
| ReloadCalled (err : option string).

Section Gateway.

Context `{GoLib}.

(** [yaml.Unmarshal(fileData, &pol)] of gopkg.in/yaml.v3; [None] on a parse
    error. *)
Variable yaml_Unmarshal : string -> option Policy.

(** The loop of [load_policies] over the directory entries. *)
Fixpoint load_entries (fs : FileSystem) (d : string) (es : list DirEntry)
    (newPolicies : entries Policy) : entries Policy :=
  match es with
  | [] => newPolicies
  | entry :: rest =>
      if IsDir entry || negb (HasSuffix (Name entry) ".yaml")
      then load_entries fs d rest newPolicies
      else
        match ReadFile fs d (Name entry) with
        | Err _ => load_entries fs d rest newPolicies
        | Ok fileData =>
            match yaml_Unmarshal fileData with
            | None => load_entries fs d rest newPolicies
            | Some pol =>
                match check_policy_valid pol with
                | Some _ => load_entries fs d rest newPolicies
                | None => load_entries fs d rest (map_set newPolicies (Name entry) pol)
                end
            end
        end
  end.

(** [load_policies]: the manager after the call and the error returned. *)
Definition load_policies (fs : FileSystem) (m : Manager) : Manager * option string :=
  match ReadDir fs (dir m) with
  | Err err => (m, Some ("failed to read policies directory: " +:+ err))
  | Ok es => ({| policies := load_entries fs (dir m) es []; dir := dir m |}, None)
  end.

Definition Reload (fs : FileSystem) (m : Manager) : Manager * option string :=
  load_policies fs m.

Definition with_manager (g : Gateway) (m : Manager) : Gateway :=
  {| policyManager := m; adapters := adapters g |}.

Definition handle_reload (fs : FileSystem) (g : Gateway) : Gateway * Response :=
  let '(m, err) := Reload fs (policyManager g) in
  match err with
  | Some msg =>
      (with_manager g m,
       http_Error ("{" +:+ quoted "error" +:+ ":" +:+ quoted "ReloadFailed" +:+ "," +:+
                   quoted "message" +:+ ":" +:+ quoted msg +:+ "}")
                  500)
  | None =>
      (with_manager g m,
       {| StatusCode := 200; Header := application_json; Body := Encode_status "reloaded" |})
  end.

(** *** The file watcher *)

(** One iteration of the loop of [watchPolicies]; [None] when the loop
    returns. *)
Definition watch_step (fs : FileSystem) (m : Manager) (msg : received)
  : option (Manager * list watch_effect) :=
  match msg with
  | EventsClosed => None
  | ErrorsClosed => None
  | FromErrors err => Some (m, [Printed ("ERROR: watcher error: " +:+ err)])
  | FromEvents event =>
      if write_or_create event then
        let '(m', err) := Reload fs m in
        Some (m',
              [Printed ("Policy file changed: " +:+ EventName event +:+ ", reloading...");
               ReloadCalled err;
               Printed (match err with
                        | Some e => "ERROR: failed to reload policies: " +:+ e
                        | None => "Policies reloaded successfully"
                        end)])
      else Some (m, [])
  end.

(** [watchPolicies] on the messages the loop receives, each with the state
    of the policy directory at that moment. *)
Fixpoint watchPolicies (m : Manager) (msgs : list (FileSystem * received))
  : Manager * list watch_effect :=
  match msgs with
  | [] => (m, [])
  | (fs, msg) :: rest =>
      match watch_step fs m msg with
      | None => (m, [])
      | Some (m', effs) =>
          let '(m'', effs') := watchPolicies m' rest in
          (m'', effs ++ effs')
      end
  end.

(** *** Tool calls *)

Definition forward_to_adapter (env : Env) (url body : string)
  : result (Z * result string) * list effect :=
  match new_request_error env url with
  | Some err =>
      (Err err,
       [SpanStart "gateway.forward_to_adapter"; SpanEnd "gateway.forward_to_adapter"])
  | None =>
      (adapter_do env url body,
       [SpanStart "gateway.forward_to_adapter";
        HttpPost url "application/json" body;
        SpanEnd "gateway.forward_to_adapter"])
  end.

Definition latency_ms (us : Z) : spec_float :=
  SFdiv Float64.prec Float64.emax (Float64.of_int us) (Float64.of_int 1000).

(** The [return] statement at which [handleToolRequest] leaves. *)
Inductive exit : Type :=
| MissingHeader
| BodyUnreadable
| BodyNotJSON
| PolicyViolation (decision : Decision.t)
| AdapterNotFound
| AdapterError (err : string)
| AdapterUnreadable
| Relayed (status : Z) (responseBody : string).

(** What is written to [w] before each [return]. *)
Definition respond (toolName : string) (e : exit) : Response :=
  match e with
  | MissingHeader => write_error 400 "MissingHeader" "X-Agent-ID header is required"
  | BodyUnreadable => write_error 400 "InvalidRequest" "Failed to read request body"
  | BodyNotJSON => write_error 400 "InvalidRequest" "Request body must be valid JSON"
  | PolicyViolation decision =>
      write_error 403 "PolicyViolation" (Decision.Reason decision)
  | AdapterNotFound =>
      write_error 404 "AdapterNotFound" ("No adapter configured for tool: " +:+ toolName)
  | AdapterError err => write_error 502 "AdapterError" err
  | AdapterUnreadable => write_error 502 "AdapterError" "Failed to read adapter response"
  | Relayed status responseBody =>
      {| StatusCode := status; Header := application_json; Body := responseBody |}
  end.

(** The part of [handleToolRequest] that follows the parsing of the body:
    hashing, evaluation, telemetry, then the denial or the forwarding. *)
Definition authorize (g : Gateway) (env : Env) (r : Request)
    (requestBody : string) (requestParams : Params) : exit * list effect :=
  let toolName := vars_tool r in
  let actionName := vars_action r in
  let agentID := X_Agent_ID r in
  let parentAgent := X_Parent_Agent r in
  let paramsHash := HashParams requestParams in
  let decision :=
    Evaluate (ranges env) agentID toolName actionName requestParams (policyManager g) in
  let latencyMs := latency_ms (elapsed_us env) in
  let logged :=
    AddSpanAttributes
      [("agent.id", AttrString agentID);
       ("tool.name", AttrString toolName);
       ("tool.action", AttrString actionName);
       ("decision.allow", AttrBool (Decision.Allow decision));
       ("policy.version", AttrInt (Decision.Version decision));
       ("params.hash", AttrString paramsHash);
       ("latency.ms", AttrFloat64 latencyMs);
       ("parent.agent", AttrString parentAgent)]
    ++ LogDecision env agentID toolName actionName
         (Decision.Reason decision) paramsHash parentAgent
         (Decision.Allow decision) (Decision.Version decision) latencyMs in
  if negb (Decision.Allow decision) then (PolicyViolation decision, logged)
  else
    match adapters g !! toolName with
    | None => (AdapterNotFound, logged)
    | Some adapterURL =>
        let targetURL := TrimSuffix adapterURL "/" +:+ "/" +:+ actionName in
        let '(adapterResp, sent) := forward_to_adapter env targetURL requestBody in
        match adapterResp with
        | Err err => (AdapterError err, logged ++ sent)
        | Ok (status, Err _) => (AdapterUnreadable, logged ++ sent)
        | Ok (status, Ok responseBody) => (Relayed status responseBody, logged ++ sent)
        end
    end.

(** The body of [handleToolRequest] between [StartSpan] and the deferred
    [span.End]: the exit taken and the effects up to it. *)
Definition route (g : Gateway) (env : Env) (r : Request) : exit * list effect :=
  if X_Agent_ID r =? "" then (MissingHeader, [])
  else
    match ReadAll_Body r with
    | Err _ => (BodyUnreadable, [])
    | Ok requestBody =>
        match Unmarshal requestBody with
        | Err _ => (BodyNotJSON, [])
        | Ok requestParams => authorize g env r requestBody requestParams
        end
    end.

Definition handleToolRequest (g : Gateway) (env : Env) (r : Request)
  : Response * list effect :=
  let '(e, effs) := route g env r in
  (respond (vars_tool r) e,
   SpanStart "gateway.handleToolRequest" :: effs ++ [SpanEnd "gateway.handleToolRequest"]).

End Gateway.

(** ** A reference implementation of the library functions

    Used to run the model on concrete requests. *)

Module Reference.

Definition is_byte (c : ascii) (n : Z) : bool := (byte_of c =? n)%Z.

Definition is_ws (c : ascii) : bool := is_byte c 32 || is_byte c 9 || is_byte c 10 || is_byte c 13.

Definition is_digit (c : ascii) : bool := in_range 48 57 (byte_of c).

Fixpoint skip_ws (s : string) : string :=
  match s with
  | String c r => if is_ws c then skip_ws r else s
  | EmptyString => s
  end.

Fixpoint take_digits (s : string) : string * string :=
  match s with
  | String c r =>
      if is_digit c then let '(ds, r') := take_digits r in (String c ds, r')
      else (EmptyString, s)
  | EmptyString => (EmptyString, s)
  end.

(** A JSON number literal at the head of [s] and what follows it. *)
Definition scan_number (s : string) : option (string * string) :=
  let '(neg, s1) :=
    match s with
    | String c r => if is_byte c 45 then ("-", r) else ("", s)
    | EmptyString => ("", s)
    end in
  let int_part :=
    match s1 with
    | String c r =>
        if is_byte c 48 then Some ("0", r)
        else if is_digit c then Some (take_digits s1)
        else None
    | EmptyString => None
    end in
  match int_part with
  | None => None
  | Some (ds, s2) =>
      let frac_part :=
        match s2 with
        | String c r =>
            if is_byte c 46 then
              match take_digits r with
              | (EmptyString, _) => None
              | (fs, r') => Some ("." +:+ fs, r')
              end
            else Some ("", s2)
        | EmptyString => Some ("", s2)
        end in
      match frac_part with
      | None => None
      | Some (fs, s3) =>
          let exp_part :=
            match s3 with
            | String c r =>
                if is_byte c 101 || is_byte c 69 then
                  let '(sg, r1) :=
                    match r with
                    | String c' r' =>
                        if is_byte c' 43 || is_byte c' 45 then (String c' "", r') else ("", r)
                    | EmptyString => ("", r)
                    end in
                  match take_digits r1 with
                  | (EmptyString, _) => None
                  | (es, r2) => Some (String c sg +:+ es, r2)
                  end
                else Some ("", s3)
            | EmptyString => Some ("", s3)
            end in
          match exp_part with
          | None => None
          | Some (es, s4) => Some (neg +:+ ds +:+ fs +:+ es, s4)
          end
      end
  end.

Definition hexval (c : ascii) : option Z :=
  let b := byte_of c in
  if in_range 48 57 b then Some (b - 48)
  else if in_range 97 102 b then Some (b - 87)
  else if in_range 65 70 b then Some (b - 55)
  else None.

(** The four hex digits of a [\u] escape. *)
Definition getu4 (s : string) : option (Z * string) :=
  match s with
  | String a (String b (String c (String d r))) =>
      match hexval a, hexval b, hexval c, hexval d with
      | Some x, Some y, Some z, Some w => Some (((x * 16 + y) * 16 + z) * 16 + w, r)
      | _, _, _, _ => None
      end
  | _ => None
  end.

Definition chr (b : Z) : ascii := ascii_of_N (Z.to_N b).

(** [utf8.EncodeRune]. *)
Definition EncodeRune (r : Z) : string :=
  if (r <? 0x80)%Z then String (chr r) ""
  else if (r <? 0x800)%Z then
    String (chr (Z.lor 0xC0 (Z.shiftr r 6))) (String (chr (Z.lor 0x80 (low6 r))) "")
  else if (r <? 0x10000)%Z then
    String (chr (Z.lor 0xE0 (Z.shiftr r 12)))
      (String (chr (Z.lor 0x80 (low6 (Z.shiftr r 6))))
         (String (chr (Z.lor 0x80 (low6 r))) ""))
  else
    String (chr (Z.lor 0xF0 (Z.shiftr r 18)))
      (String (chr (Z.lor 0x80 (low6 (Z.shiftr r 12))))
         (String (chr (Z.lor 0x80 (low6 (Z.shiftr r 6))))
            (String (chr (Z.lor 0x80 (low6 r))) ""))).

Definition is_surrogate (r : Z) : bool := in_range 0xD800 0xDFFF r.

(** The rune of a [\u] escape whose four digits gave [rr], looking at a
    following low surrogate. *)
Definition unescape_u (rr : Z) (rest : string) : Z * string :=
  if is_surrogate rr then
    match rest with
    | String b (String u rest') =>
        if is_byte b 92 && is_byte u 117 then
          match getu4 rest' with
          | Some (rr1, rest'') =>
              if in_range 0xD800 0xDBFF rr && in_range 0xDC00 0xDFFF rr1
              then (Z.lor (Z.shiftl (rr - 0xD800) 10) (rr1 - 0xDC00) + 0x10000, rest'')
              else (RuneError, rest)
          | None => (RuneError, rest)
          end
        else (RuneError, rest)
    | _ => (RuneError, rest)
    end
  else (rr, rest).

Fixpoint drop (n : nat) (s : string) : string :=
  match n, s with
  | S n', String _ r => drop n' r
  | _, _ => s
  end.

(** The body of a string literal after its opening quote, unquoted, and
    what follows the closing quote. *)
Fixpoint scan_string (fuel : nat) (s : string) : option (string * string) :=
  match fuel with
  | O => None
  | S fuel' =>
      match s with
      | EmptyString => None
      | String c r =>
          let cons (pre : string) (tail : string) :=
            match scan_string fuel' tail with
            | Some (str, rest) => Some (pre +:+ str, rest)
            | None => None
            end in
          if is_byte c 34 then Some (EmptyString, r)
          else if is_byte c 92 then
            match r with
            | EmptyString => None
            | String e r' =>
                if is_byte e 34 || is_byte e 92 || is_byte e 47 then cons (String e "") r'
                else if is_byte e 98 then cons (String (chr 8) "") r'
                else if is_byte e 102 then cons (String (chr 12) "") r'
                else if is_byte e 110 then cons (String (chr 10) "") r'
                else if is_byte e 114 then cons (String (chr 13) "") r'
                else if is_byte e 116 then cons (String (chr 9) "") r'
                else if is_byte e 117 then
                  match getu4 r' with
                  | Some (rr, r'') =>
                      let '(rune, rest) := unescape_u rr r'' in
                      cons (EncodeRune rune) rest
                  | None => None
                  end
                else None
            end
          else if (byte_of c <? 0x20)%Z then None
          else if (byte_of c <? 0x80)%Z then cons (String c "") r
          else
            let '(rune, size) := DecodeRune (map byte_of (list_ascii_of_string s)) in
            if (rune =? RuneError)%Z && Nat.eqb size 1
            then cons (EncodeRune RuneError) r
            else cons (substring 0 size s) (drop size s)
      end
  end.

Definition expect (word : string) (v : json) (s : string) : option (json * string) :=
  if String.prefix word s then Some (v, drop (String.length word) s) else None.

(** Recursive descent over a JSON text. *)
Fixpoint scan_value (fuel : nat) (s : string) : option (json * string) :=
  match fuel with
  | O => None
  | S fuel' =>
      match skip_ws s with
      | EmptyString => None
      | String c r as s' =>
          if is_byte c 123 then
            match skip_ws r with
            | String c' r' =>
                if is_byte c' 125 then Some (JObject [], r')
                else
                  match scan_members fuel' r with
                  | Some (ms, rest) => Some (JObject ms, rest)
                  | None => None
                  end
            | EmptyString => None
            end
          else if is_byte c 91 then
            match skip_ws r with
            | String c' r' =>
                if is_byte c' 93 then Some (JArray [], r')
                else
                  match scan_items fuel' r with
                  | Some (xs, rest) => Some (JArray xs, rest)
                  | None => None
                  end
            | EmptyString => None
            end
          else if is_byte c 34 then
            match scan_string (String.length s') r with
            | Some (str, rest) => Some (JString str, rest)
            | None => None
            end
          else if is_byte c 116 then expect "true" (JBool true) s'
          else if is_byte c 102 then expect "false" (JBool false) s'
          else if is_byte c 110 then expect "null" JNull s'
          else
            match scan_number s' with
            | Some (lit, rest) => Some (JNumber lit, rest)
            | None => None
            end
      end
  end
with scan_items (fuel : nat) (s : string) : option (list json * string) :=
  match fuel with
  | O => None
  | S fuel' =>
      match scan_value fuel' s with
      | None => None
      | Some (x, rest) =>
          match skip_ws rest with
          | String c r =>
              if is_byte c 93 then Some ([x], r)
              else if is_byte c 44 then
                match scan_items fuel' r with
                | Some (xs, rest') => Some (x :: xs, rest')
                | None => None
                end
              else None
          | EmptyString => None
          end
      end
  end
with scan_members (fuel : nat) (s : string) : option (entries json * string) :=
  match fuel with
  | O => None
  | S fuel' =>
      match skip_ws s with
      | String q r =>
          if is_byte q 34 then
            match scan_string (String.length s) r with
            | None => None
            | Some (key, rest) =>
                match skip_ws rest with
                | String colon rest1 =>
                    if is_byte colon 58 then
                      match scan_value fuel' rest1 with
                      | None => None
                      | Some (x, rest2) =>
                          match skip_ws rest2 with
                          | String c r' =>
                              if is_byte c 125 then Some ([(key, x)], r')
                              else if is_byte c 44 then
                                match scan_members fuel' r' with
                                | Some (ms, rest3) => Some ((key, x) :: ms, rest3)
                                | None => None
                                end
                              else None
                          | EmptyString => None
                          end
                      end
                    else None
                | EmptyString => None
                end
            end
          else None
      | EmptyString => None
      end
  end.

Definition json_scan (data : string) : option json :=
  match scan_value (S (String.length data)) data with
  | Some (v, rest) =>
      match skip_ws rest with
      | EmptyString => Some v
      | _ => None
      end
  | None => None
  end.

(** *** strconv.ParseFloat *)

Fixpoint digits_value (s : string) (acc : Z) : Z :=
  match s with
  | EmptyString => acc
  | String c r => digits_value r (acc * 10 + (byte_of c - 48))
  end.

(** Sign, decimal mantissa [M] and decimal exponent [E] of a JSON number
    literal, whose value is [M * 10^E]. *)
Definition parse_decimal (lit : string) : bool * Z * Z :=
  let '(neg, s1) :=
    match lit with
    | String c r => if is_byte c 45 then (true, r) else (false, lit)
    | EmptyString => (false, lit)
    end in
  let '(ip, s2) := take_digits s1 in
  let '(fp, s3) :=
    match s2 with
    | String c r => if is_byte c 46 then take_digits r else (EmptyString, s2)
    | EmptyString => (EmptyString, s2)
    end in
  let ev :=
    match s3 with
    | String c r =>
        if is_byte c 101 || is_byte c 69 then
          match r with
          | String c' r' =>
              if is_byte c' 45 then - digits_value r' 0
              else if is_byte c' 43 then digits_value r' 0
              else digits_value r 0
          | EmptyString => 0
          end
        else 0
    | EmptyString => 0
    end in
  (neg, digits_value (ip +:+ fp) 0, ev - Z.of_nat (String.length fp)).

Definition signed (neg : bool) (m : Z) : Z := if neg then - m else m.

(** The float64 nearest to the literal (ties to even); [None] when the
    literal overflows. *)
Definition ParseFloat (lit : string) : option spec_float :=
  let '(neg, M, E) := parse_decimal lit in
  if (M =? 0)%Z then Some (S754_zero neg)
  else
    let nd := Z.log2 M * 3 / 10 in
    if (310 <? E + nd)%Z then None
    else if (E + Z.log2 M <? -1100)%Z then Some (S754_zero neg)
    else
      let f :=
        if (0 <=? E)%Z
        then binary_normalize Float64.prec Float64.emax (signed neg (M * 10 ^ E)) 0 neg
        else
          let D := 10 ^ (- E) in
          let k := Z.max 0 (Z.log2 D - Z.log2 M + 64) in
          let q := (M * 2 ^ k) / D in
          let sticky := if ((M * 2 ^ k) mod D =? 0)%Z then 0 else 1 in
          binary_normalize Float64.prec Float64.emax
            (signed neg (2 * q + sticky)) (- k - 1) neg in
      match f with
      | S754_infinity _ => None
      | _ => Some f
      end.

(** *** The float64 encoder of encoding/json *)

(** The decimal exponent [p] with [10^(p-1) <= nx/den < 10^p]. *)
Fixpoint find_pow10 (fuel : nat) (p nx den : Z) : Z :=
  match fuel with
  | O => p
  | S fuel' =>
      if (if (0 <=? p)%Z then (nx <? 10 ^ p * den)%Z else (nx * 10 ^ (- p) <? den)%Z)
      then p
      else find_pow10 fuel' (p + 1) nx den
  end.

Fixpoint strip_zeros (fuel : nat) (c u : Z) : Z * Z :=
  match fuel with
  | O => (c, u)
  | S fuel' =>
      if (c mod 10 =? 0)%Z then strip_zeros fuel' (c / 10) (u + 1) else (c, u)
  end.

(** The shortest decimal [c * 10^u] that lies between the midpoints [L] and
    [U] to the neighbouring floats of [X] (all three over [den]), trying
    [n], [n+1], ... significant digits. *)
Fixpoint shortest (fuel : nat) (n p X L U den : Z) (inclusive : bool) : Z * Z :=
  let u := p - n in
  let A c := c * den * 10 ^ Z.max u 0 in
  let B N := N * 10 ^ Z.max (- u) 0 in
  let down := B X / (den * 10 ^ Z.max u 0) in
  let up := down + 1 in
  let down_ok :=
    (0 <? down)%Z && ((B L <? A down)%Z || (inclusive && (B L =? A down)%Z)) in
  let up_ok := (A up <? B U)%Z || (inclusive && (A up =? B U)%Z) in
  let nearest :=
    match (B X - A down ?= A up - B X)%Z with
    | Lt => down
    | Gt => up
    | Eq => if Z.even down then down else up
    end in
  match fuel with
  | O => (nearest, u)
  | S fuel' =>
      if down_ok && up_ok then (nearest, u)
      else if down_ok then (down, u)
      else if up_ok then (up, u)
      else shortest fuel' (n + 1) p X L U den inclusive
  end.

(** The shortest digits of the float [m * 2^e] and the position of the
    decimal point: the value is [0.d1d2... * 10^dp]. *)
Definition shortest_digits (m : positive) (e : Z) : string * Z :=
  let sh := e - 2 in
  let scale := 2 ^ Z.max sh 0 in
  let den := 2 ^ Z.max (- sh) 0 in
  let X := 4 * Z.pos m * scale in
  let U := (4 * Z.pos m + 2) * scale in
  let L :=
    (if (Z.pos m =? 2 ^ 52)%Z && (-1074 <? e)%Z then 4 * Z.pos m - 1
     else 4 * Z.pos m - 2) * scale in
  let est := (Z.log2 X - Z.log2 den) * 30103 / 100000 - 2 in
  let p := find_pow10 8 est X den in
  let '(c, u) := shortest 17 1 p X L U den (Z.even (Z.pos m)) in
  let '(c', u') := strip_zeros 400 c u in
  let ds := Float64.utoa c' in
  (ds, Z.of_nat (String.length ds) + u').

Fixpoint zeros (n : nat) : string :=
  match n with
  | O => EmptyString
  | S n' => String "0" (zeros n')
  end.

(** [%f] with the shortest digits. *)
Definition fmtF (ds : string) (dp : Z) : string :=
  let nd := Z.of_nat (String.length ds) in
  let int_part :=
    if (0 <? dp)%Z
    then substring 0 (Z.to_nat (Z.min nd dp)) ds +:+ zeros (Z.to_nat (dp - nd))
    else "0" in
  let frac_part :=
    if (dp <? nd)%Z
    then "." +:+ zeros (Z.to_nat (- dp)) +:+ drop (Z.to_nat (Z.max dp 0)) ds
    else "" in
  int_part +:+ frac_part.

(** [%e] with the shortest digits, the exponent without padding. *)
Definition fmtE (ds : string) (dp : Z) : string :=
  let exp := dp - 1 in
  substring 0 1 ds +:+
  (if Nat.ltb 1 (String.length ds) then "." +:+ drop 1 ds else "") +:+
  "e" +:+ (if (exp <? 0)%Z then "-" else "+") +:+ Float64.utoa (Z.abs exp).

Definition FormatFloat (f : spec_float) : string :=
  match f with
  | S754_zero s => Float64.sign s +:+ "0"
  | S754_finite s m e =>
      let abs := S754_finite false m e in
      let small :=
        match ParseFloat "1e-6" with
        | Some c => SFltb abs c
        | None => false
        end in
      let large := negb (SFltb abs (Float64.of_int (10 ^ 21))) in
      let '(ds, dp) := shortest_digits m e in
      Float64.sign s +:+ (if small || large then fmtE ds dp else fmtF ds dp)
  | S754_infinity s => if s then "-Inf" else "+Inf"
  | S754_nan => "NaN"
  end.

End Reference.

#[export] Instance reference_lib : GoLib := {|
  json_scan := Reference.json_scan;
  ParseFloat := Reference.ParseFloat;
  FormatFloat := Reference.FormatFloat
|}.

(** ** Vocabulary of the statements *)

(** A permission is for [(tool, action)]. *)
Definition permission_matches (tool action : string) (perm : Permission) : bool :=
  (Tool perm =? tool) && actionAllowed action (Actions perm).

(** An agent rule is for [agentID] and holds a permission for [(tool, action)]. *)
Definition agent_matches (agentID tool action : string) (agent : Agent) : bool :=
  (ID agent =? agentID) && existsb (permission_matches tool action) (Allow agent).

(** A policy file holds a permission for [(agentID, tool, action)]. *)
Definition policy_matches (agentID tool action : string) (policy : Policy) : bool :=
  existsb (agent_matches agentID tool action) (Agents policy).

(** The decision of step 7 of the matching algorithm. *)
Definition no_policy_found (agentID tool action : string) : Decision.t :=
  Decision.mk false
    ("No policy found for agent=" +:+ agentID +:+ ", tool=" +:+ tool +:+
     ", action=" +:+ action)
    0.


(** A condition name that no case of the switch of [check_conditions] has. *)
Definition unknown_condition (condName : string) : bool :=
  negb (condName =? "max_amount") && negb (condName =? "currencies") &&
  negb (condName =? "folder_prefix").

Definition is_None {A} (o : option A) : bool :=
  match o with Some _ => false | None => true end.

(** A built-in condition whose value has a type its case does not accept. *)
Definition ill_typed_condition (condName : string) (condVal : value) : bool :=
  ((condName =? "max_amount") && is_None (max_amount_value condVal)) ||
  ((condName =? "currencies") && is_None (as_slice condVal)) ||
  ((condName =? "folder_prefix") && is_None (as_string condVal)).

(** A built-in condition whose value has an accepted type. *)
Definition well_formed_condition (condName : string) (condVal : value) : bool :=
  negb (unknown_condition condName) && negb (ill_typed_condition condName condVal).

(** The request field a built-in condition reads is missing from the
    parameters or has another type than the condition asserts. *)
Definition missing_field (condName : string) (params : Params) : bool :=
  ((condName =? "max_amount") && is_None (as_float64 (index params "amount"))) ||
  ((condName =? "currencies") && is_None (as_string (index params "currency"))) ||
  ((condName =? "folder_prefix") && is_None (as_string (index params "path"))).

(** At most one loaded file holds a permission for (agent, tool, action). *)
Definition unique_match (agentID tool action : string) (files : entries Policy) : Prop :=
  forall f1 f2,
    In f1 files -> In f2 files ->
    policy_matches agentID tool action (snd f1) = true ->
    policy_matches agentID tool action (snd f2) = true ->
    f1 = f2.

(** The permission of a file at which [Evaluate] stops for (agent, tool,
    action): the first one for the tool and the action, through the agent
    entries with the caller's id, in file order. *)
Definition deciding_permission (agentID tool action : string) (policy : Policy)
  : option Permission :=
  List.find (permission_matches tool action)
    (flat_map Allow (List.filter (fun agent => ID agent =? agentID) (Agents policy))).

(** Every condition of the permission lets the request pass. *)
Definition passes (params : Params) (perm : Permission) : Prop :=
  List.Forall (fun e => check_condition (fst e) (snd e) params = None) (Conditions perm).

(** The loaded files that can decide (agent, tool, action) agree on the
    decision: any two of them (or one, taken twice) have the same version,
    their deciding permissions both pass or both fail the request, and no
    two failing conditions of theirs give different reasons. *)
Definition candidates_agree (m : Manager) (agentID tool action : string)
    (params : Params) : Prop :=
  forall f1 f2 perm1 perm2,
    In f1 (policies m) -> In f2 (policies m) ->
    deciding_permission agentID tool action (snd f1) = Some perm1 ->
    deciding_permission agentID tool action (snd f2) = Some perm2 ->
    Version (snd f1) = Version (snd f2) /\
    (passes params perm1 <-> passes params perm2) /\
    (forall e1 e2 r1 r2,
        In e1 (Conditions perm1) -> In e2 (Conditions perm2) ->
        check_condition (fst e1) (snd e1) params = Some r1 ->
        check_condition (fst e2) (snd e2) params = Some r2 ->
        r1 = r2).

(** The iteration that yields the entry at index [i] first and the others
    in their stored order. *)
Definition to_front {A} (i : nat) (l : list A) : list A :=
  match nth_error l i with
  | Some x => x :: firstn i l ++ skipn (S i) l
  | None => l
  end.

Definition front_order (i j : nat) : range_order :=
  {| order_policies := to_front i; order_conditions := to_front j |}.

(** *** Sample data: the policy of the end-to-end scenarios *)

Definition example_policy : Policy :=
  {| Version := 1;
     Agents :=
       [ {| ID := "finance-agent";
            Allow := [ {| Tool := "payments";
                          Actions := ["create"; "refund"];
                          Conditions :=
                            [("max_amount", VInt 5000);
                             ("currencies", VSlice [VString "USD"; VString "EUR"])] |} ] |};
         {| ID := "hr-agent";
            Allow := [ {| Tool := "files";
                          Actions := ["read"];
                          Conditions := [("folder_prefix", VString "/hr-docs/")] |} ] |} ] |}.

Definition example_manager : Manager :=
  {| policies := [("example.yaml", example_policy)]; dir := "./policies" |}.

(** A policy file that lets finance-agent create payments up to [limit]. *)
Definition limit_policy (version limit : Z) : Policy :=
  {| Version := version;
     Agents :=
       [ {| ID := "finance-agent";
            Allow := [ {| Tool := "payments";
                          Actions := ["create"];
                          Conditions := [("max_amount", VInt limit)] |} ] |} ] |}.

(** Two loaded files with a permission for the same (agent, tool, action). *)
Definition overlapping_manager : Manager :=
  {| policies := [("a.yaml", limit_policy 1 5000); ("b.yaml", limit_policy 2 10000)];
     dir := "./policies" |}.

Definition amount_of (n : Z) : Params := Some [("amount", VFloat64 (Float64.of_int n))].

(** The audit records among the effects of a handler. *)
Fixpoint audit_records (effs : list effect) : list AuditLog.t :=
  match effs with
  | [] => []
  | AuditRecord log :: rest => log :: audit_records rest
  | _ :: rest => audit_records rest
  end.

(** The requests sent to adapters among the effects of a handler. *)
Fixpoint http_posts (effs : list effect) : list (string * string) :=
  match effs with
  | [] => []
  | HttpPost url _ body :: rest => (url, body) :: http_posts rest
  | _ :: rest => http_posts rest
  end.

(** The calls of [Reload] among the effects of the watcher, with the error
    each returned. *)
Fixpoint reload_calls (effs : list watch_effect) : list (option string) :=
  match effs with
  | [] => []
  | ReloadCalled err :: rest => err :: reload_calls rest
  | _ :: rest => reload_calls rest
  end.

(** The effects of one iteration of the watcher loop. *)
Definition step_effects (step : option (Manager * list watch_effect))
  : list watch_effect :=
  match step with
  | Some (_, effs) => effs
  | None => []
  end.

(** A policy directory with the example file, and the YAML decoder on it. *)
Definition example_fs : FileSystem :=
  {| ReadDir := fun _ => Ok [ {| Name := "example.yaml"; IsDir := false |} ];
     ReadFile := fun _ _ => Ok "version: 1" |}.

Definition example_yaml (fileData : string) : option Policy := Some example_policy.

(** A policy directory that has been removed. *)
Definition missing_fs : FileSystem :=
  {| ReadDir := fun _ => Err "open ./policies: no such file or directory";
     ReadFile := fun _ _ => Err "no such file or directory" |}.

Definition example_gateway : Gateway :=
  {| policyManager := example_manager;
     adapters := {[ "payments" := "http://localhost:8081";
                    "files" := "http://localhost:8082" ]} |}.

Definition example_env : Env :=
  {| ranges := storage_order;
     now := "2025-10-20T10:00:00Z";
     trace_id := "4bf92f3577b34da6a3ce929d0e0e4736";
     elapsed_us := 250;
     new_request_error := fun _ => None;
     adapter_do := fun _ _ => Ok (200, Ok "{}") |}.

Definition example_request (agentID : string) (body : result string) : Request :=
  {| vars_tool := "payments";
     vars_action := "create";
     X_Agent_ID := agentID;
     X_Parent_Agent := "";
     ReadAll_Body := body |}.

(** The record [LogDecision] writes for a request whose body parsed to
    [requestParams]. *)
Definition decision_record `{GoLib} (g : Gateway) (env : Env) (r : Request)
    (requestParams : Params) : AuditLog.t :=
  let decision :=
    Evaluate (ranges env) (X_Agent_ID r) (vars_tool r) (vars_action r) requestParams
      (policyManager g) in
  AuditLog.mk (now env) (trace_id env) (X_Agent_ID r) (vars_tool r) (vars_action r)
    (Decision.Allow decision) (Decision.Reason decision) (Decision.Version decision)
    (HashParams requestParams) (latency_ms (elapsed_us env)) (X_Parent_Agent r).

(** A JSON value that is neither an object nor [null]. *)
Definition not_a_mapping (j : json) : bool :=
  match j with
  | JArray _ | JString _ | JNumber _ | JBool _ => true
  | JNull | JObject _ => false
  end.

(** *** Deep equality of parameter maps *)

(** Two values are the same up to the order in which their maps store the
    entries: equal scalars, slices related element by element, maps with
    the same keys bound to related values; float64 numbers are related by
    [R]. *)
#[local] Unset Elimination Schemes.
Inductive json_related (R : spec_float -> spec_float -> Prop) : value -> value -> Prop :=
| jr_nil : json_related R VNil VNil
| jr_bool b : json_related R (VBool b) (VBool b)
| jr_int n : json_related R (VInt n) (VInt n)
| jr_uint64 n : json_related R (VUint64 n) (VUint64 n)
| jr_float64 f g : R f g -> json_related R (VFloat64 f) (VFloat64 g)
| jr_string s : json_related R (VString s) (VString s)
| jr_slice l l' :
    Forall2 (json_related R) l l' -> json_related R (VSlice l) (VSlice l')
| jr_map m m' m'' :
    m' ≡ₚ m'' ->
    Forall2 (fun e e' => fst e = fst e' /\ json_related R (snd e) (snd e')) m m'' ->
    json_related R (VMap m) (VMap m').
#[local] Set Elimination Schemes.

(** Deep equality: the scalars are compared as Go's [==] compares them (and
    [reflect.DeepEqual] with it), so two float64 numbers are equal when
    [==] holds: the zeros of both signs are equal, a NaN equals nothing. *)
Definition json_equal : value -> value -> Prop :=
  json_related (fun f g => Float64.eqb f g = true).

(** The sign of a zero: [true] for -0 only. *)
Definition negative_zero (x : spec_float) : bool :=
  match x with S754_zero s => s | _ => false end.

(** Equal numbers, a zero being equal to the zero of its own sign only. *)
Definition float_alike (x y : spec_float) : bool :=
  Float64.eqb x y && Bool.eqb (negative_zero x) (negative_zero y).

(** Deep equality in which every zero meets the zero of its own sign. *)
Definition json_equal_signed : value -> value -> Prop :=
  json_related (fun f g => float_alike f g = true).

(** The same value but for the order in which the maps, at every level,
    store their entries. *)
Definition json_reordered : value -> value -> Prop := json_related eq.

(** A test of [json_related] on values whose maps have their keys once;
    [feq] tests the float64 numbers. *)
Fixpoint deep_equal_by (feq : spec_float -> spec_float -> bool) (v w : value) : bool :=
  match v, w with
  | VNil, VNil => true
  | VBool a, VBool b => Bool.eqb a b
  | VInt a, VInt b => (a =? b)%Z
  | VUint64 a, VUint64 b => (a =? b)%Z
  | VFloat64 a, VFloat64 b => feq a b
  | VString a, VString b => a =? b
  | VSlice l, VSlice l' =>
      (fix all (l l' : list value) : bool :=
         match l, l' with
         | [], [] => true
         | x :: rest, y :: rest' => deep_equal_by feq x y && all rest rest'
         | _, _ => false
         end) l l'
  | VMap m, VMap m' =>
      Nat.eqb (length m) (length m') &&
      (fix all (m : entries value) : bool :=
         match m with
         | [] => true
         | (k, x) :: rest =>
             match map_get m' k with
             | Some y => deep_equal_by feq x y
             | None => false
             end && all rest
         end) m
  | _, _ => false
  end.

(** The test of [json_equal]. *)
Definition deep_equal : value -> value -> bool := deep_equal_by Float64.eqb.

(** Two [map[string]interface{}] variables related as values by [rel]; the
    nil map is related to the nil map only. *)
Definition params_related (rel : value -> value -> Prop) (p p' : Params) : Prop :=
  match p, p' with
  | None, None => True
  | Some m, Some m' => rel (VMap m) (VMap m')
  | _, _ => False
  end.

(** Deep equality of two parameter maps. *)
Definition params_equal : Params -> Params -> Prop := params_related json_equal.

(** Deep equality with every zero meeting the zero of its own sign. *)
Definition params_equal_signed : Params -> Params -> Prop :=
  params_related json_equal_signed.

(** The same parameter map but for the order of the entries, at every
    level. *)
Definition params_reordered : Params -> Params -> Prop := params_related json_reordered.

Fixpoint nodupb (l : list string) : bool :=
  match l with
  | [] => true
  | k :: rest => negb (existsb (String.eqb k) rest) && nodupb rest
  end.

(** Every map inside the value has its keys once, as a Go map has. *)
Fixpoint keys_unique (v : value) : bool :=
  match v with
  | VSlice l =>
      (fix all (l : list value) : bool :=
         match l with
         | [] => true
         | x :: rest => keys_unique x && all rest
         end) l
  | VMap m =>
      nodupb (map fst m) &&
      (fix all (m : entries value) : bool :=
         match m with
         | [] => true
         | (_, x) :: rest => keys_unique x && all rest
         end) m
  | _ => true
  end.

Definition params_keys_unique (p : Params) : bool :=
  match p with
  | None => true
  | Some m => keys_unique (VMap m)
  end.

(** The eight words of a digest as one number, least significant first. *)
Fixpoint words_to_Z (ws : list Z) : Z :=
  match ws with
  | [] => 0
  | w :: rest => w + 2 ^ 32 * words_to_Z rest
  end.

(** The string of [n] letters a. *)
Fixpoint letters (n : nat) : string :=
  match n with
  | O => EmptyString
  | S n' => String "a" (letters n')
  end.

(** A family of parameter maps, pairwise different as JSON values. *)
Definition note_params (n : Z) : Params := Some [("note", VString (letters (Z.to_nat n)))].

(** The induction principle of [value] that reaches inside slices and maps. *)
Section value_induction.

Variable P : value -> Prop.
Hypothesis HNil : P VNil.
Hypothesis HBool : forall b, P (VBool b).
Hypothesis HInt : forall n, P (VInt n).
Hypothesis HUint64 : forall n, P (VUint64 n).
Hypothesis HFloat64 : forall f, P (VFloat64 f).
Hypothesis HString : forall s, P (VString s).
Hypothesis HSlice : forall l, Forall P l -> P (VSlice l).
Hypothesis HMap : forall m, Forall (fun e => P (snd e)) m -> P (VMap m).

Fixpoint value_ind (v : value) : P v :=
  match v with
  | VNil => HNil
  | VBool b => HBool b
  | VInt n => HInt n
  | VUint64 n => HUint64 n
  | VFloat64 f => HFloat64 f
  | VString s => HString s
  | VSlice l =>
      HSlice l
        ((fix all (l : list value) : Forall P l :=
            match l with
            | [] => List.Forall_nil P
            | x :: rest => List.Forall_cons P x rest (value_ind x) (all rest)
            end) l)
  | VMap m =>
      HMap m
        ((fix all (m : entries value) : Forall (fun e => P (snd e)) m :=
            match m with
            | [] => List.Forall_nil _
            | e :: rest => List.Forall_cons _ e rest (value_ind (snd e)) (all rest)
            end) m)
  end.

End value_induction.

(** The encodings of the elements of a slice, when all succeed. *)
Fixpoint all_some {A} (l : list (option A)) : option (list A) :=
  match l with
  | [] => Some []
  | x :: rest =>
      match x, all_some rest with
      | Some a, Some b => Some (a :: b)
      | _, _ => None
      end
  end.

(** The encodings of the entries of a map, when all succeed. *)
Fixpoint all_some_entries {A} (l : entries (option A)) : option (entries A) :=
  match l with
  | [] => Some []
  | (k, x) :: rest =>
      match x, all_some_entries rest with
      | Some a, Some b => Some ((k, a) :: b)
      | _, _ => None
      end
  end.

(** A 32-bit word. *)
Definition word32 (w : Z) : Prop := (0 <= w < 2 ^ 32)%Z.

(** The shape of the chaining value of SHA-256: eight 32-bit words. *)
Definition digest_state (st : list Z) : Prop := length st = 8%nat /\ Forall word32 st.

(** What the map encoder writes for the encoded entries, sorted. *)
Definition render (kvs : entries string) : string :=
  "{" +:+ join "," (map (fun kv => appendString (fst kv) +:+ ":" +:+ snd kv) kvs) +:+ "}".

(** The body of a payment request, as JSON text. *)
Definition payment_body (amount currency : string) : string :=
  "{" +:+ quoted "amount" +:+ ":" +:+ amount +:+ "," +:+
  quoted "currency" +:+ ":" +:+ quoted currency +:+ "}".

Definition payment_params (amount : Z) (currency : string) : Params :=
  Some [("amount", VFloat64 (Float64.of_int amount)); ("currency", VString currency)].

(** The entry of [m'] for the key of an entry [e], or [e] itself. *)
Definition partner (m' : entries value) (e : string * value) : string * value :=
  (fst e, match map_get m' (fst e) with Some y => y | None => snd e end).


(** ** Start-up: [NewManager] and [NewGateway] *)

(** What [NewGateway] asks of fsnotify: the error of [fsnotify.NewWatcher]
    and the error of [watcher.Add] on a directory ([None] is the nil
    error). *)
Record WatcherSetup := {
  NewWatcher : option string;
  watcher_Add : string -> option string
}.

Section Startup.

Variable yaml_Unmarshal : string -> option Policy.

(** [NewManager]: an empty map, then a first [load_policies]; the manager is
    dropped when the load fails. *)
Definition NewManager (fs : FileSystem) (d : string) : result Manager :=
  let m := {| policies := []; dir := d |} in
  match load_policies yaml_Unmarshal fs m with
  | (_, Some err) => Err err
  | (m', None) => Ok m'
  end.

(** [NewGateway]: the policy manager first, then the watcher, then the
    directory is put under watch. *)
Definition NewGateway (fs : FileSystem) (ws : WatcherSetup) (policyDir : string)
    (adapters : gmap string string) : result Gateway :=
  match NewManager fs policyDir with
  | Err err => Err ("failed to create policy manager: " +:+ err)
  | Ok pm =>
      match NewWatcher ws with
      | Some err => Err ("failed to create file watcher: " +:+ err)
      | None =>
          match watcher_Add ws policyDir with
          | Some err => Err ("failed to watch policy directory: " +:+ err)
          | None => Ok {| policyManager := pm; adapters := adapters |}
          end
      end
  end.

(** A directory entry from which [load_policies] stores [pol]: a regular
    entry named *.yaml that is read, parsed and validated. *)
Definition loadable (fs : FileSystem) (d : string) (entry : DirEntry) (pol : Policy)
  : Prop :=
  IsDir entry = false /\
  HasSuffix (Name entry) ".yaml" = true /\
  exists fileData,
    ReadFile fs d (Name entry) = Ok fileData /\
    yaml_Unmarshal fileData = Some pol /\
    check_policy_valid pol = None.

End Startup.

(** The adapter registry of [run] in cmd/aegis. *)
Definition adapterMap : gmap string string :=
  {[ "payments" := "http://localhost:8081"; "files" := "http://localhost:8082" ]}.

(** A message that makes the watcher loop return. *)
Definition closes (msg : received) : bool :=
  match msg with
  | EventsClosed | ErrorsClosed => true
  | FromEvents _ | FromErrors _ => false
  end.

(** A message on which the watcher loop calls [Reload]. *)
Definition triggers_reload (msg : received) : bool :=
  match msg with
  | FromEvents event => write_or_create event
  | _ => false
  end.

(** The three request fields [check_conditions] reads. *)
Definition same_policy_inputs (p p' : Params) : Prop :=
  index p "amount" = index p' "amount" /\
  index p "currency" = index p' "currency" /\
  index p "path" = index p' "path".

(** The decision [Evaluate] returns at a permission it stops at, in a file
    of version [version]. *)
Definition decided (ro : range_order) (params : Params) (version : Z)
    (perm : Permission) : Decision.t :=
  let reason := check_conditions (order_conditions ro (Conditions perm)) params in
  if negb (reason =? "")
  then Decision.mk false reason version
  else Decision.mk true "Policy allows this action" version.

(** A value that holds a NaN or an infinity somewhere. *)
Fixpoint not_encodable (v : value) : bool :=
  match v with
  | VFloat64 f => negb (is_finite f)
  | VSlice l =>
      (fix any (l : list value) : bool :=
         match l with
         | [] => false
         | x :: rest => not_encodable x || any rest
         end) l
  | VMap m =>
      (fix any (m : entries value) : bool :=
         match m with
         | [] => false
         | (_, x) :: rest => not_encodable x || any rest
         end) m
  | _ => false
  end.

(** No byte of [s] is below 0x20: no line feed, no carriage return, no other
    control character. *)
Definition control_free (s : string) : bool :=
  forallb (fun c => (32 <=? byte_of c)%Z) (list_ascii_of_string s).

(** ** pkg/telemetry: the line of an audit record *)

(** One member [key:value] of an encoded struct. *)
Definition member (key encoded : string) : string :=
  appendString key +:+ ":" +:+ encoded.

Definition encode_bool (b : bool) : string := if b then "true" else "false".

Section AuditLine.

Context `{GoLib}.

(** [json.Marshal(log)] for an [AuditLog]: the fields in their declaration
    order, [parent_agent] left out when empty; [None] when the latency is
    not a finite number. *)
Definition Marshal_AuditLog (log : AuditLog.t) : option string :=
  if is_finite (AuditLog.LatencyMs log) then
    Some ("{" +:+
          join ","
            ([member "timestamp" (appendString (AuditLog.Timestamp log));
              member "trace_id" (appendString (AuditLog.TraceID log));
              member "agent_id" (appendString (AuditLog.AgentID log));
              member "tool" (appendString (AuditLog.Tool log));
              member "action" (appendString (AuditLog.Action log));
              member "decision_allow" (encode_bool (AuditLog.Decision log));
              member "reason" (appendString (AuditLog.Reason log));
              member "policy_version" (Float64.itoa (AuditLog.Version log));
              member "params_hash" (appendString (AuditLog.ParamsHash log));
              member "latency_ms" (FormatFloat (AuditLog.LatencyMs log))]
             ++ (if AuditLog.ParentAgent log =? "" then []
                 else [member "parent_agent" (appendString (AuditLog.ParentAgent log))]))
          +:+ "}")
  else None.

(** The bytes [LogDecision] hands to [fmt.Println] and to the log file: the
    error of [json.Marshal] is dropped, [data] is then empty. *)
Definition audit_data (log : AuditLog.t) : string :=
  match Marshal_AuditLog log with Some data => data | None => "" end.

End AuditLine.

(** ** internal/adapters/payments *)

Module Payments.

Module CreateRequest.
Record t := mk {
  Amount : spec_float;
  Currency : string;
  VendorID : string;
  Memo : string
}.
End CreateRequest.

Module CreateResponse.
Record t := mk {
  PaymentID : string;
  Amount : spec_float;
  Currency : string;
  Status : string
}.
End CreateResponse.

Module RefundRequest.
Record t := mk {
  PaymentID : string;
  Reason : string
}.
End RefundRequest.

Module RefundResponse.
Record t := mk {
  RefundID : string;
  PaymentID : string;
  Status : string
}.
End RefundResponse.

Record Adapter := {
  payments : entries CreateResponse.t;
  refunds : entries RefundResponse.t
}.

Definition NewAdapter : Adapter := {| payments := []; refunds := [] |}.

(** The hand-written body of the adapter's error answers. *)
Definition error_message (kind message : string) : string :=
  "{" +:+ quoted "error" +:+ ":" +:+ quoted kind +:+ "," +:+
  quoted "message" +:+ ":" +:+ quoted message +:+ "}".

(** [x <= 0] on float64. *)
Definition not_positive (x : spec_float) : bool := SFleb x (S754_zero false).

(** One request to the adapter: the route, the body, and for the two routes
    that create a record the string [uuid.New().String()] returns. *)
Inductive call : Type :=
| Create (uuid body : string)
| Refund (uuid body : string)
| Health.

Section Handlers.

Context `{GoLib}.

(** [json.NewDecoder(r.Body).Decode(&req)] for the two request structs. *)
Variable Decode_CreateRequest : string -> result CreateRequest.t.
Variable Decode_RefundRequest : string -> result RefundRequest.t.

(** [json.NewEncoder(w).Encode(resp)]: nothing is written when the amount is
    not a finite number. *)
Definition Encode_CreateResponse (resp : CreateResponse.t) : string :=
  if is_finite (CreateResponse.Amount resp) then
    "{" +:+
    join ","
      [member "payment_id" (appendString (CreateResponse.PaymentID resp));
       member "amount" (FormatFloat (CreateResponse.Amount resp));
       member "currency" (appendString (CreateResponse.Currency resp));
       member "status" (appendString (CreateResponse.Status resp))]
    +:+ "}" +:+ newline
  else "".

Definition Encode_RefundResponse (resp : RefundResponse.t) : string :=
  "{" +:+
  join ","
    [member "refund_id" (appendString (RefundResponse.RefundID resp));
     member "payment_id" (appendString (RefundResponse.PaymentID resp));
     member "status" (appendString (RefundResponse.Status resp))]
  +:+ "}" +:+ newline.

Definition HandleCreate (a : Adapter) (uuid body : string) : Adapter * Response :=
  match Decode_CreateRequest body with
  | Err err => (a, http_Error (error_message "InvalidRequest" err) 400)
  | Ok req =>
      if not_positive (CreateRequest.Amount req)
      then (a, http_Error (error_message "InvalidRequest" "Amount must be positive") 400)
      else if CreateRequest.Currency req =? ""
      then (a, http_Error (error_message "InvalidRequest" "Currency is required") 400)
      else if CreateRequest.VendorID req =? ""
      then (a, http_Error (error_message "InvalidRequest" "VendorID is required") 400)
      else
        let resp :=
          CreateResponse.mk uuid (CreateRequest.Amount req) (CreateRequest.Currency req)
            "created" in
        ({| payments := map_set (payments a) (CreateResponse.PaymentID resp) resp;
            refunds := refunds a |},
         {| StatusCode := 200; Header := application_json;
            Body := Encode_CreateResponse resp |})
  end.

Definition HandleRefund (a : Adapter) (uuid body : string) : Adapter * Response :=
  match Decode_RefundRequest body with
  | Err err => (a, http_Error (error_message "InvalidRequest" err) 400)
  | Ok req =>
      if RefundRequest.PaymentID req =? ""
      then (a, http_Error (error_message "InvalidRequest" "PaymentID is required") 400)
      else
        match map_get (payments a) (RefundRequest.PaymentID req) with
        | None => (a, http_Error (error_message "NotFound" "Payment not found") 404)
        | Some _ =>
            let resp := RefundResponse.mk uuid (RefundRequest.PaymentID req) "refunded" in
            ({| payments := payments a;
                refunds := map_set (refunds a) (RefundResponse.RefundID resp) resp |},
             {| StatusCode := 200; Header := application_json;
                Body := Encode_RefundResponse resp |})
        end
  end.

Definition HandleHealth : Response :=
  {| StatusCode := 200; Header := application_json; Body := Encode_status "healthy" |}.

(** The three routes [Start] registers. *)
Definition handle (a : Adapter) (c : call) : Adapter * Response :=
  match c with
  | Create uuid body => HandleCreate a uuid body
  | Refund uuid body => HandleRefund a uuid body
  | Health => (a, HandleHealth)
  end.

(** The adapter serving requests one after the other. *)
Fixpoint serve (a : Adapter) (calls : list call) : Adapter * list Response :=
  match calls with
  | [] => (a, [])
  | c :: rest =>
      let '(a', resp) := handle a c in
      let '(a'', resps) := serve a' rest in
      (a'', resp :: resps)
  end.

End Handlers.

End Payments.

(** *** Sample data for the start-up and the audit line *)

(** A policy directory that holds no policy file: a note and a
    sub-directory. *)
Definition bare_fs : FileSystem :=
  {| ReadDir := fun _ => Ok [ {| Name := "README.md"; IsDir := false |};
                              {| Name := "archive.yaml"; IsDir := true |} ];
     ReadFile := fun _ _ => Ok "" |}.

(** A watcher that is created and takes the directory without error. *)
Definition ready_watcher : WatcherSetup :=
  {| NewWatcher := None; watcher_Add := fun _ => None |}.

(** An audit record whose agent id and reason carry line feeds. *)
Definition multiline_log : AuditLog.t :=
  AuditLog.mk "2025-10-20T10:00:00Z" "4bf92f3577b34da6a3ce929d0e0e4736"
    ("finance-agent" +:+ newline +:+ "forged") "payments" "create" false
    ("No policy found for agent=finance-agent" +:+ newline +:+ "forged")
    0 "7423" (latency_ms 250) "".

(** *** Sample data for the adapter *)

(** The bodies of the adapter's own tests: a payment of 1000 USD, the same
    without a vendor, and the refund of a payment. *)
Definition create_body (vendor : string) : string :=
  "{" +:+ quoted "amount" +:+ ":1000," +:+ quoted "currency" +:+ ":" +:+ quoted "USD" +:+
  "," +:+ quoted "vendor_id" +:+ ":" +:+ quoted vendor +:+ "}".

Definition refund_body (id : string) : string :=
  "{" +:+ quoted "payment_id" +:+ ":" +:+ quoted id +:+ "," +:+
  quoted "reason" +:+ ":" +:+ quoted "Test refund" +:+ "}".

(** The decoders on these bodies; every other body is taken as the
    "invalid json" of the tests. *)
Definition sample_Decode_CreateRequest (body : string)
  : result Payments.CreateRequest.t :=
  if body =? create_body "V123"
  then Ok (Payments.CreateRequest.mk (Float64.of_int 1000) "USD" "V123" "")
  else if body =? create_body ""
  then Ok (Payments.CreateRequest.mk (Float64.of_int 1000) "USD" "" "")
  else Err "invalid character 'i' looking for beginning of value".

Definition sample_Decode_RefundRequest (body : string)
  : result Payments.RefundRequest.t :=
  if body =? refund_body "pay-1"
  then Ok (Payments.RefundRequest.mk "pay-1" "Test refund")
  else if body =? refund_body "pay-9"
  then Ok (Payments.RefundRequest.mk "pay-9" "Test refund")
  else Err "invalid character 'i' looking for beginning of value".

(** What a stored payment looks like: filed under its own id, created, with
    an amount that is not [<= 0] and a currency. *)
Definition well_stored (k : string) (p : Payments.CreateResponse.t) : Prop :=
  Payments.CreateResponse.PaymentID p = k /\
  Payments.CreateResponse.Status p = "created" /\
  Payments.not_positive (Payments.CreateResponse.Amount p) = false /\
  Payments.CreateResponse.Currency p <> "".

(** The ids under which the calls of a run can create a payment. *)
Fixpoint create_ids (calls : list Payments.call) : list string :=
  match calls with
  | [] => []
  | Payments.Create uuid _ :: rest => uuid :: create_ids rest
  | _ :: rest => create_ids rest
  end.

(** ** Strings *)

Lemma append_assoc (a b c : string) : (a +:+ b) +:+ c = a +:+ b +:+ c.
Proof.
  induction a as [|x a IH]; [reflexivity|].
  change (String x ((a +:+ b) +:+ c) = String x (a +:+ b +:+ c)).
  rewrite IH. reflexivity.
Qed.

Lemma append_cons (x : ascii) (a b : string) : String x a +:+ b = String x (a +:+ b).
Proof. reflexivity. Qed.

(** ** The evaluator: first match decides *)

Section EvaluateFacts.

Variable ro : range_order.
Variables agentID tool action : string.
Variable params : Params.

Lemma actionAllowed_In actions :
  actionAllowed action actions = true <-> In action actions.
Proof.
  induction actions as [|a rest IH]; simpl.
  - split; [discriminate | tauto].
  - destruct (String.eqb_spec a action) as [->|Hne].
    + split; auto.
    + rewrite IH. split; [auto | intros [Heq|Hin]; [congruence | exact Hin]].
Qed.

Lemma eval_permissions_skip version perm rest :
  permission_matches tool action perm = false ->
  eval_permissions ro tool action params version (perm :: rest) =
  eval_permissions ro tool action params version rest.
Proof.
  unfold permission_matches. simpl.
  destruct (Tool perm =? tool); simpl; [|reflexivity].
  intros ->. reflexivity.
Qed.

Lemma eval_permissions_app version before rest :
  Forall (fun p => permission_matches tool action p = false) before ->
  eval_permissions ro tool action params version (before ++ rest) =
  eval_permissions ro tool action params version rest.
Proof.
  induction 1 as [|p before Hp _ IH]; [reflexivity|].
  change ((p :: before) ++ rest) with (p :: (before ++ rest)).
  rewrite eval_permissions_skip by exact Hp. exact IH.
Qed.

Lemma eval_permissions_hit version perm rest :
  permission_matches tool action perm = true ->
  eval_permissions ro tool action params version (perm :: rest) =
  let reason := check_conditions (order_conditions ro (Conditions perm)) params in
  Some (if negb (reason =? "")
        then Decision.mk false reason version
        else Decision.mk true "Policy allows this action" version).
Proof.
  unfold permission_matches. simpl.
  intros [-> ->]%andb_true_iff. simpl.
  destruct (negb _); reflexivity.
Qed.

Lemma eval_permissions_None version allow :
  eval_permissions ro tool action params version allow = None <->
  existsb (permission_matches tool action) allow = false.
Proof.
  induction allow as [|perm rest IH]; [simpl; tauto|].
  destruct (permission_matches tool action perm) eqn:Hm.
  - rewrite eval_permissions_hit by exact Hm. simpl. rewrite Hm. simpl.
    split; discriminate.
  - rewrite eval_permissions_skip by exact Hm. simpl. rewrite Hm. exact IH.
Qed.

Lemma eval_agents_skip version agent rest :
  agent_matches agentID tool action agent = false ->
  eval_agents ro agentID tool action params version (agent :: rest) =
  eval_agents ro agentID tool action params version rest.
Proof.
  unfold agent_matches. simpl.
  destruct (ID agent =? agentID); simpl; [|reflexivity].
  intros Hno. apply (proj2 (eval_permissions_None version _)) in Hno.
  rewrite Hno. reflexivity.
Qed.

Lemma eval_agents_app version before rest :
  Forall (fun a => agent_matches agentID tool action a = false) before ->
  eval_agents ro agentID tool action params version (before ++ rest) =
  eval_agents ro agentID tool action params version rest.
Proof.
  induction 1 as [|a before Ha _ IH]; [reflexivity|].
  change ((a :: before) ++ rest) with (a :: (before ++ rest)).
  rewrite eval_agents_skip by exact Ha. exact IH.
Qed.

Lemma eval_agents_None version agents :
  eval_agents ro agentID tool action params version agents = None <->
  existsb (agent_matches agentID tool action) agents = false.
Proof.
  induction agents as [|agent rest IH]; [simpl; tauto|].
  destruct (agent_matches agentID tool action agent) eqn:Hm.
  - simpl. rewrite Hm. simpl.
    apply andb_true_iff in Hm as [-> Hex]. simpl.
    destruct (eval_permissions ro tool action params version (Allow agent)) eqn:He.
    + split; discriminate.
    + apply eval_permissions_None in He. congruence.
  - rewrite eval_agents_skip by exact Hm. simpl. rewrite Hm. exact IH.
Qed.

Lemma eval_policies_skip name policy rest :
  policy_matches agentID tool action policy = false ->
  eval_policies ro agentID tool action params ((name, policy) :: rest) =
  eval_policies ro agentID tool action params rest.
Proof.
  intros Hno. simpl. apply (proj2 (eval_agents_None (Version policy) _)) in Hno.
  rewrite Hno. reflexivity.
Qed.

Lemma eval_policies_app before rest :
  Forall (fun f => policy_matches agentID tool action (snd f) = false) before ->
  eval_policies ro agentID tool action params (before ++ rest) =
  eval_policies ro agentID tool action params rest.
Proof.
  induction 1 as [|[name policy] before Hp _ IH]; [reflexivity|].
  change (((name, policy) :: before) ++ rest) with ((name, policy) :: (before ++ rest)).
  rewrite eval_policies_skip by exact Hp. exact IH.
Qed.

Lemma eval_policies_None files :
  eval_policies ro agentID tool action params files = None <->
  Forall (fun f => policy_matches agentID tool action (snd f) = false) files.
Proof.
  induction files as [|[name policy] rest IH].
  - simpl. split; [constructor | reflexivity].
  - destruct (policy_matches agentID tool action policy) eqn:Hm.
    + simpl.
      destruct (eval_agents ro agentID tool action params (Version policy) (Agents policy))
        eqn:He.
      * split; [discriminate|]. intros Hall. inversion Hall; subst. simpl in *. congruence.
      * apply eval_agents_None in He. unfold policy_matches in Hm. congruence.
    + rewrite eval_policies_skip by exact Hm. rewrite IH.
      split; [intros Hall; constructor; [exact Hm | exact Hall]|].
      intros Hall. inversion Hall; subst. assumption.
Qed.

End EvaluateFacts.

(** ** What a decision rests on *)

Section DecisionFacts.

Variable ro : range_order.
Variables agentID tool action : string.
Variable params : Params.

Lemma eval_permissions_Some version allow d :
  eval_permissions ro tool action params version allow = Some d ->
  exists perm,
    In perm allow /\ permission_matches tool action perm = true /\
    d = decided ro params version perm.
Proof.
  induction allow as [|perm rest IH]; [discriminate|].
  destruct (permission_matches tool action perm) eqn:Hm.
  - rewrite eval_permissions_hit by exact Hm. cbv zeta. intros [= <-].
    exists perm. simpl. auto.
  - rewrite eval_permissions_skip by exact Hm. intros Hd.
    destruct (IH Hd) as (p & Hin & Hp & ->). exists p. simpl. auto.
Qed.

Lemma eval_agents_Some version agents d :
  eval_agents ro agentID tool action params version agents = Some d ->
  exists agent,
    In agent agents /\ ID agent = agentID /\
    eval_permissions ro tool action params version (Allow agent) = Some d.
Proof.
  induction agents as [|agent rest IH]; [discriminate|].
  cbn [eval_agents]. destruct (String.eqb_spec (ID agent) agentID) as [Hid|Hid]; cbn [negb].
  - destruct (eval_permissions ro tool action params version (Allow agent)) as [d'|] eqn:He.
    + intros [= <-]. exists agent. simpl. auto.
    + intros Hd. destruct (IH Hd) as (a & Hin & Ha & Hp). exists a. simpl. auto.
  - intros Hd. destruct (IH Hd) as (a & Hin & Ha & Hp). exists a. simpl. auto.
Qed.

Lemma eval_policies_Some files d :
  eval_policies ro agentID tool action params files = Some d ->
  exists name policy,
    In (name, policy) files /\
    eval_agents ro agentID tool action params (Version policy) (Agents policy) = Some d.
Proof.
  induction files as [|[name policy] rest IH]; [discriminate|].
  cbn [eval_policies].
  destruct (eval_agents ro agentID tool action params (Version policy) (Agents policy))
    as [d'|] eqn:He.
  - intros [= <-]. exists name, policy. simpl. auto.
  - intros Hd. destruct (IH Hd) as (n & p & Hin & Hp). exists n, p. simpl. auto.
Qed.

(** Every decision is the default denial or the one of a permission of a
    loaded file. *)
Lemma Evaluate_cases m :
  Evaluate ro agentID tool action params m = no_policy_found agentID tool action \/
  exists name policy agent perm,
    In (name, policy) (order_policies ro (policies m)) /\
    In agent (Agents policy) /\ In perm (Allow agent) /\
    ID agent = agentID /\ permission_matches tool action perm = true /\
    Evaluate ro agentID tool action params m = decided ro params (Version policy) perm.
Proof.
  unfold Evaluate.
  destruct (eval_policies ro agentID tool action params (order_policies ro (policies m)))
    as [d|] eqn:He; [right | left; reflexivity].
  apply eval_policies_Some in He as (name & policy & Hfile & He).
  apply eval_agents_Some in He as (agent & Hagent & Hid & He).
  apply eval_permissions_Some in He as (perm & Hperm & Hm & ->).
  exists name, policy, agent, perm. auto 7.
Qed.

Lemma decided_reason version perm : Decision.Reason (decided ro params version perm) <> "".
Proof.
  unfold decided. cbv zeta.
  destruct (String.eqb_spec
              (check_conditions (order_conditions ro (Conditions perm)) params) "");
    cbn [negb Decision.Reason]; [discriminate | assumption].
Qed.

Lemma Evaluate_reason m :
  Decision.Reason (Evaluate ro agentID tool action params m) <> "".
Proof.
  destruct (Evaluate_cases m) as [->|(name & policy & agent & perm & _ & _ & _ & _ & _ & ->)].
  - discriminate.
  - apply decided_reason.
Qed.

End DecisionFacts.

Section DecidingPermission.

Variable ro : range_order.
Variables agentID tool action : string.
Variable params : Params.

Lemma eval_permissions_find version allow :
  eval_permissions ro tool action params version allow =
  option_map (decided ro params version)
    (List.find (permission_matches tool action) allow).
Proof.
  induction allow as [|perm rest IH]; [reflexivity|].
  cbn [List.find]. destruct (permission_matches tool action perm) eqn:Hm.
  - rewrite eval_permissions_hit by exact Hm. reflexivity.
  - rewrite eval_permissions_skip by exact Hm. exact IH.
Qed.

Lemma find_app {A} (f : A -> bool) (a b : list A) :
  List.find f (a ++ b) =
  match List.find f a with Some x => Some x | None => List.find f b end.
Proof.
  induction a as [|x a IH]; [reflexivity|].
  cbn [app List.find]. destruct (f x); [reflexivity | exact IH].
Qed.

Lemma eval_agents_deciding version agents :
  eval_agents ro agentID tool action params version agents =
  option_map (decided ro params version)
    (List.find (permission_matches tool action)
       (flat_map Allow (List.filter (fun agent => ID agent =? agentID) agents))).
Proof.
  induction agents as [|agent rest IH]; [reflexivity|].
  cbn [eval_agents List.filter].
  destruct (ID agent =? agentID); cbn [negb flat_map]; [|exact IH].
  rewrite find_app, eval_permissions_find.
  destruct (List.find (permission_matches tool action) (Allow agent)); [reflexivity|].
  exact IH.
Qed.

(** What the loop over the files returns: the decision of the first file,
    in the order of the iteration, that has a deciding permission. *)
Lemma eval_policies_deciding files :
  eval_policies ro agentID tool action params files =
  match
    List.find
      (fun f => negb (is_None (deciding_permission agentID tool action (snd f)))) files
  with
  | Some f =>
      option_map (decided ro params (Version (snd f)))
        (deciding_permission agentID tool action (snd f))
  | None => None
  end.
Proof.
  induction files as [|[name policy] rest IH]; [reflexivity|].
  cbn [eval_policies List.find snd]. rewrite eval_agents_deciding.
  fold (deciding_permission agentID tool action policy).
  destruct (deciding_permission agentID tool action policy) as [perm|] eqn:Hd;
    cbn [is_None negb option_map snd]; [rewrite Hd; reflexivity | exact IH].
Qed.

End DecidingPermission.


(** C7. When the first permission that matches (agent, tool, action), in the
    order the evaluator visits files, agents and permissions, has a condition
    that yields a non-empty reason, [Evaluate] returns the denial with that
    reason and the version of that policy, whatever permissions, agents and
    files come later; when no permission matches, it returns the denial
    "No policy found for agent=<a>, tool=<t>, action=<x>" with version 0. *)
Theorem Evaluate_first_match_is_terminal :
  (forall ro agentID tool action params m
          before name policy after
          agents_before agent agents_after
          perms_before perm perms_after reason,
      order_policies ro (policies m) = before ++ (name, policy) :: after ->
      Agents policy = agents_before ++ agent :: agents_after ->
      Allow agent = perms_before ++ perm :: perms_after ->
      Forall (fun f => policy_matches agentID tool action (snd f) = false) before ->
      Forall (fun a => agent_matches agentID tool action a = false) agents_before ->
      Forall (fun p => permission_matches tool action p = false) perms_before ->
      ID agent = agentID ->
      Tool perm = tool ->
      In action (Actions perm) ->
      check_conditions (order_conditions ro (Conditions perm)) params = reason ->
      reason <> "" ->
      Evaluate ro agentID tool action params m =
      Decision.mk false reason (Version policy))
  /\
  (forall ro agentID tool action params m,
      Forall (fun f => policy_matches agentID tool action (snd f) = false) (policies m) ->
      range_ok ro ->
      Evaluate ro agentID tool action params m =
      Decision.mk false
        ("No policy found for agent=" +:+ agentID +:+ ", tool=" +:+ tool +:+
         ", action=" +:+ action) 0).
Proof.
  split.
  - intros ro agentID tool action params m before name policy after
      agents_before agent agents_after perms_before perm perms_after reason
      Hfiles Hagents Hperms Hbefore Hagents_before Hperms_before
      Hid Htool Haction Hreason Hne.
    unfold Evaluate. rewrite Hfiles.
    rewrite eval_policies_app by exact Hbefore.
    cbn [eval_policies]. rewrite Hagents.
    rewrite eval_agents_app by exact Hagents_before.
    cbn [eval_agents]. rewrite Hid, String.eqb_refl. cbn [negb].
    rewrite Hperms, eval_permissions_app by exact Hperms_before.
    rewrite eval_permissions_hit.
    + cbn zeta. rewrite Hreason.
      destruct (String.eqb_spec reason ""); [contradiction | reflexivity].
    + unfold permission_matches. rewrite Htool, String.eqb_refl.
      apply actionAllowed_In in Haction. rewrite Haction. reflexivity.
  - intros ro agentID tool action params m Hall [Hperm _].
    unfold Evaluate.
    assert (Hnone : eval_policies ro agentID tool action params
                      (order_policies ro (policies m)) = None).
    { apply eval_policies_None. rewrite (Hperm (policies m)). exact Hall. }
    rewrite Hnone. reflexivity.
Qed.

(** C7, witness: the request for 50000 of the first end-to-end scenario is
    denied by the first matching permission of the example policy. *)
Lemma Evaluate_first_match_is_terminal_witness :
  Evaluate storage_order "finance-agent" "payments" "create"
    (payment_params 50000 "USD") example_manager =
  Decision.mk false "Amount 50000.00 exceeds max_amount=5000.00" 1.
Proof.
  apply (proj1 Evaluate_first_match_is_terminal
           storage_order "finance-agent" "payments" "create"
           (payment_params 50000 "USD") example_manager
           [] "example.yaml" example_policy []
           [] {| ID := "finance-agent";
                 Allow := [ {| Tool := "payments";
                               Actions := ["create"; "refund"];
                               Conditions :=
                                 [("max_amount", VInt 5000);
                                  ("currencies", VSlice [VString "USD"; VString "EUR"])] |} ] |}
           [ {| ID := "hr-agent";
                Allow := [ {| Tool := "files";
                              Actions := ["read"];
                              Conditions := [("folder_prefix", VString "/hr-docs/")] |} ] |} ]
           [] {| Tool := "payments";
                 Actions := ["create"; "refund"];
                 Conditions :=
                   [("max_amount", VInt 5000);
                    ("currencies", VSlice [VString "USD"; VString "EUR"])] |}
           []).
  - reflexivity.
  - reflexivity.
  - reflexivity.
  - constructor.
  - constructor.
  - constructor.
  - reflexivity.
  - reflexivity.
  - simpl. left. reflexivity.
  - vm_compute. reflexivity.
  - discriminate.
Defined.

(** ** Condition predicates *)

Lemma check_condition_nonempty condName condVal params reason :
  check_condition condName condVal params = Some reason -> reason <> "".
Proof.
  unfold check_condition. intros Hc Hempty. subst reason.
  repeat match type of Hc with
         | (if ?b then _ else _) = _ => destruct b
         | match ?o with _ => _ end = _ => destruct o
         end; simpl in Hc; discriminate.
Qed.

Lemma check_conditions_cons e rest params :
  check_conditions (e :: rest) params =
  match check_condition (fst e) (snd e) params with
  | Some reason => reason
  | None => check_conditions rest params
  end.
Proof. destruct e; reflexivity. Qed.

Lemma check_conditions_app before rest params :
  check_conditions (before ++ rest) params =
  if check_conditions before params =? ""
  then check_conditions rest params
  else check_conditions before params.
Proof.
  induction before as [|[n v] before IH]; [reflexivity|].
  simpl. destruct (check_condition n v params) as [reason|] eqn:Hc; [|exact IH].
  apply check_condition_nonempty in Hc.
  destruct (String.eqb_spec reason ""); [contradiction | reflexivity].
Qed.

Lemma check_conditions_skip before condName condVal after params :
  check_condition condName condVal params = None ->
  check_conditions (before ++ (condName, condVal) :: after) params =
  check_conditions (before ++ after) params.
Proof.
  intros Hc. rewrite !check_conditions_app. simpl. rewrite Hc. reflexivity.
Qed.

Lemma check_conditions_In conds params :
  check_conditions conds params <> "" ->
  exists condName condVal,
    In (condName, condVal) conds /\
    check_condition condName condVal params = Some (check_conditions conds params).
Proof.
  induction conds as [|[n v] rest IH]; simpl; [congruence|].
  destruct (check_condition n v params) as [reason|] eqn:Hc.
  - intros _. exists n, v. auto.
  - intros Hne. destruct (IH Hne) as (n' & v' & Hin & Hc'). exists n', v'. auto.
Qed.

Lemma inactive_condition condName condVal params :
  unknown_condition condName || ill_typed_condition condName condVal = true ->
  check_condition condName condVal params = None.
Proof.
  unfold unknown_condition, ill_typed_condition, check_condition, is_None.
  destruct (String.eqb_spec condName "max_amount") as [->|_].
  { simpl. destruct (max_amount_value condVal); simpl; [discriminate | reflexivity]. }
  destruct (String.eqb_spec condName "currencies") as [->|_].
  { simpl. destruct (as_slice condVal); simpl; [discriminate | reflexivity]. }
  destruct (String.eqb_spec condName "folder_prefix") as [->|_].
  { simpl. destruct (as_string condVal); simpl; [discriminate | reflexivity]. }
  reflexivity.
Qed.

(** The one way each "Invalid <field> parameter" reason is produced. *)
Lemma check_condition_invalid condName condVal params :
  (check_condition condName condVal params = Some "Invalid amount parameter" ->
   condName = "max_amount" /\ as_float64 (index params "amount") = None) /\
  (check_condition condName condVal params = Some "Invalid currency parameter" ->
   condName = "currencies" /\ as_string (index params "currency") = None) /\
  (check_condition condName condVal params = Some "Invalid path parameter" ->
   condName = "folder_prefix" /\ as_string (index params "path") = None).
Proof.
  unfold check_condition.
  destruct (String.eqb_spec condName "max_amount") as [->|_].
  { destruct (max_amount_value condVal);
      [destruct (as_float64 (index params "amount"));
       [destruct (Float64.gt _ _)|]|];
      simpl; repeat split; try discriminate; auto. }
  destruct (String.eqb_spec condName "currencies") as [->|_].
  { destruct (as_slice condVal);
      [destruct (as_string (index params "currency"));
       [destruct (negb _)|]|];
      simpl; repeat split; try discriminate; auto. }
  destruct (String.eqb_spec condName "folder_prefix") as [->|_].
  { destruct (as_string condVal);
      [destruct (as_string (index params "path"));
       [destruct (negb _)|]|];
      simpl; repeat split; try discriminate; auto. }
  repeat split; discriminate.
Qed.

(** What a well-formed condition answers when its request field is missing
    or ill-typed. *)
Lemma check_condition_missing_field condName condVal params :
  well_formed_condition condName condVal = true ->
  (condName = "max_amount" -> as_float64 (index params "amount") = None ->
   check_condition condName condVal params = Some "Invalid amount parameter") /\
  (condName = "currencies" -> as_string (index params "currency") = None ->
   check_condition condName condVal params = Some "Invalid currency parameter") /\
  (condName = "folder_prefix" -> as_string (index params "path") = None ->
   check_condition condName condVal params = Some "Invalid path parameter").
Proof.
  unfold well_formed_condition, unknown_condition, ill_typed_condition, is_None.
  intros Hwf. repeat split; intros -> Hfield; unfold check_condition;
    cbn in Hwf |- *; rewrite Hfield.
  - destruct (max_amount_value condVal); [reflexivity | discriminate Hwf].
  - destruct (as_slice condVal); [reflexivity | discriminate Hwf].
  - destruct (as_string condVal); [reflexivity | discriminate Hwf].
Qed.

Lemma missing_field_denies condName condVal params :
  well_formed_condition condName condVal = true ->
  missing_field condName params = true ->
  exists reason, check_condition condName condVal params = Some reason.
Proof.
  intros Hwf Hmissing.
  destruct (check_condition_missing_field condName condVal params Hwf)
    as (Hamount & Hcurrency & Hpath).
  unfold missing_field, is_None in Hmissing.
  destruct (String.eqb_spec condName "max_amount") as [Hn|_].
  { destruct (as_float64 (index params "amount")) eqn:Hf.
    - subst condName. discriminate Hmissing.
    - eexists. apply Hamount; [exact Hn | reflexivity]. }
  destruct (String.eqb_spec condName "currencies") as [Hn|_].
  { destruct (as_string (index params "currency")) eqn:Hf.
    - subst condName. discriminate Hmissing.
    - eexists. apply Hcurrency; [exact Hn | reflexivity]. }
  destruct (String.eqb_spec condName "folder_prefix") as [Hn|_]; [|discriminate Hmissing].
  destruct (as_string (index params "path")) eqn:Hf.
  - subst condName. discriminate Hmissing.
  - eexists. apply Hpath; [exact Hn | reflexivity].
Qed.

Lemma check_conditions_passed conds params :
  check_conditions conds params = "" ->
  forall condName condVal,
    In (condName, condVal) conds -> check_condition condName condVal params = None.
Proof.
  induction conds as [|[n v] rest IH]; intros Hpass condName condVal Hin; [destruct Hin|].
  simpl in Hpass. destruct (check_condition n v params) as [reason|] eqn:Hc.
  - subst reason. apply check_condition_nonempty in Hc. contradiction.
  - destruct Hin as [[= <- <-]|Hin]; [exact Hc | apply IH; assumption].
Qed.

(** C9. An entry whose condition name is unknown, or whose value has a type
    the built-in condition of that name does not accept, never changes the
    result of [check_conditions], wherever the loop meets it. A reason
    "Invalid <field> parameter" is only ever produced by a well-formed
    built-in condition whose request field is missing or ill-typed. And such
    a condition does produce it: when the entries the loop meets before it
    pass, the result is "Invalid amount parameter" for max_amount,
    "Invalid currency parameter" for currencies and "Invalid path parameter"
    for folder_prefix; wherever the entry stands among the conditions, the
    result is a reason, and a permission matched with that entry among its
    conditions denies. *)
Theorem malformed_conditions_are_skipped :
  (forall before condName condVal after params,
      unknown_condition condName || ill_typed_condition condName condVal = true ->
      check_conditions (before ++ (condName, condVal) :: after) params =
      check_conditions (before ++ after) params)
  /\
  (forall conds params,
      (check_conditions conds params = "Invalid amount parameter" ->
       exists condVal,
         In ("max_amount", condVal) conds /\
         well_formed_condition "max_amount" condVal = true /\
         as_float64 (index params "amount") = None) /\
      (check_conditions conds params = "Invalid currency parameter" ->
       exists condVal,
         In ("currencies", condVal) conds /\
         well_formed_condition "currencies" condVal = true /\
         as_string (index params "currency") = None) /\
      (check_conditions conds params = "Invalid path parameter" ->
       exists condVal,
         In ("folder_prefix", condVal) conds /\
         well_formed_condition "folder_prefix" condVal = true /\
         as_string (index params "path") = None))
  /\
  (forall before condVal after params,
      check_conditions before params = "" ->
      (well_formed_condition "max_amount" condVal = true ->
       as_float64 (index params "amount") = None ->
       check_conditions (before ++ ("max_amount", condVal) :: after) params =
       "Invalid amount parameter") /\
      (well_formed_condition "currencies" condVal = true ->
       as_string (index params "currency") = None ->
       check_conditions (before ++ ("currencies", condVal) :: after) params =
       "Invalid currency parameter") /\
      (well_formed_condition "folder_prefix" condVal = true ->
       as_string (index params "path") = None ->
       check_conditions (before ++ ("folder_prefix", condVal) :: after) params =
       "Invalid path parameter"))
  /\
  (forall conds condName condVal params,
      In (condName, condVal) conds ->
      well_formed_condition condName condVal = true ->
      missing_field condName params = true ->
      check_conditions conds params <> "")
  /\
  (forall ro tool action params version perm rest condName condVal,
      range_ok ro ->
      permission_matches tool action perm = true ->
      In (condName, condVal) (Conditions perm) ->
      well_formed_condition condName condVal = true ->
      missing_field condName params = true ->
      exists reason,
        reason <> "" /\
        eval_permissions ro tool action params version (perm :: rest) =
        Some (Decision.mk false reason version)).
Proof.
  assert (Hdenies : forall conds condName condVal params,
             In (condName, condVal) conds ->
             well_formed_condition condName condVal = true ->
             missing_field condName params = true ->
             check_conditions conds params <> "").
  { intros conds condName condVal params Hin Hwf Hmissing Hpass.
    destruct (missing_field_denies condName condVal params Hwf Hmissing) as (reason & Hc).
    rewrite (check_conditions_passed conds params Hpass condName condVal Hin) in Hc.
    discriminate Hc. }
  split; [|split; [|split; [|split]]].
  - intros before condName condVal after params Hin.
    apply check_conditions_skip, inactive_condition, Hin.
  - intros conds params.
    assert (Hwf : forall n v r,
               check_condition n v params = Some r -> well_formed_condition n v = true).
    { intros n v r Hc. unfold well_formed_condition.
      destruct (unknown_condition n || ill_typed_condition n v) eqn:Hin.
      - rewrite (inactive_condition _ _ params Hin) in Hc. discriminate.
      - apply orb_false_iff in Hin as [-> ->]. reflexivity. }
    repeat split; intros Hr;
      (assert (Hne : check_conditions conds params <> "") by (rewrite Hr; discriminate));
      destruct (check_conditions_In conds params Hne) as (n & v & Hin & Hc);
      rewrite Hr in Hc;
      pose proof (Hwf _ _ _ Hc) as Hw;
      apply check_condition_invalid in Hc as [-> Hfield];
      exists v; auto.
  - intros before condVal after params Hbefore.
    repeat split; intros Hwf Hfield;
      rewrite check_conditions_app, Hbefore; cbn [String.eqb];
      rewrite check_conditions_cons; cbn [fst snd];
      destruct (check_condition_missing_field _ condVal params Hwf)
        as (Hamount & Hcurrency & Hpath).
    + rewrite (Hamount eq_refl Hfield). reflexivity.
    + rewrite (Hcurrency eq_refl Hfield). reflexivity.
    + rewrite (Hpath eq_refl Hfield). reflexivity.
  - exact Hdenies.
  - intros ro tool action params version perm rest condName condVal
      [_ Hconds] Hmatch Hin Hwf Hmissing.
    rewrite eval_permissions_hit by exact Hmatch. cbv zeta.
    exists (check_conditions (order_conditions ro (Conditions perm)) params).
    assert (Hne : check_conditions (order_conditions ro (Conditions perm)) params <> "").
    { apply (Hdenies _ condName condVal); [|exact Hwf | exact Hmissing].
      apply (Permutation_in _ (Permutation_sym (Hconds (Conditions perm)))). exact Hin. }
    split; [exact Hne|].
    destruct (String.eqb_spec
                (check_conditions (order_conditions ro (Conditions perm)) params) "");
      [contradiction | reflexivity].
Qed.

(** C9, witness: an unknown condition name and a max_amount given as a
    boolean leave the currency check to decide; a max_amount of 5000 met
    with an amount sent as a string, or with no amount at all, is answered
    "Invalid amount parameter"; a folder_prefix met with no path is answered
    "Invalid path parameter". *)
Lemma malformed_conditions_are_skipped_witness :
  check_conditions
    [("not_before", VString "09:00"); ("max_amount", VBool true);
     ("currencies", VSlice [VString "USD"])]
    (payment_params 10 "GBP") = "Currency GBP not in allowed list" /\
  check_conditions [("max_amount", VInt 5000)] (Some [("amount", VString "100")]) =
    "Invalid amount parameter" /\
  check_conditions
    [("currencies", VSlice [VString "USD"]); ("max_amount", VInt 5000)]
    (Some [("currency", VString "USD")]) = "Invalid amount parameter" /\
  check_conditions [("folder_prefix", VString "/hr-docs/")] (Some []) =
    "Invalid path parameter".
Proof.
  destruct malformed_conditions_are_skipped as (Hskip & _ & Hinvalid & _).
  split; [|split; [|split]].
  - etransitivity.
    { exact (Hskip [] "not_before" (VString "09:00")
               [("max_amount", VBool true); ("currencies", VSlice [VString "USD"])]
               (payment_params 10 "GBP") eq_refl). }
    etransitivity.
    { exact (Hskip [] "max_amount" (VBool true) [("currencies", VSlice [VString "USD"])]
               (payment_params 10 "GBP") eq_refl). }
    vm_compute. reflexivity.
  - exact (proj1 (Hinvalid [] (VInt 5000) [] (Some [("amount", VString "100")]) eq_refl)
             eq_refl eq_refl).
  - exact (proj1 (Hinvalid [("currencies", VSlice [VString "USD"])] (VInt 5000) []
                    (Some [("currency", VString "USD")]) eq_refl)
             eq_refl eq_refl).
  - exact (proj2 (proj2 (Hinvalid [] (VString "/hr-docs/") [] (Some []) eq_refl))
             eq_refl eq_refl).
Defined.

(** ** The max_amount boundary *)

Lemma SFcompare_antisym x y : SFcompare y x = option_map CompOpp (SFcompare x y).
Proof.
  destruct x as [sx|sx| |sx mx ex], y as [sy|sy| |sy my ey]; simpl;
    try reflexivity;
    try (destruct sx, sy; reflexivity);
    try (destruct sx; reflexivity);
    try (destruct sy; reflexivity).
  rewrite (Z.compare_antisym ex ey).
  pose proof (Pos.compare_cont_antisym mx my Eq) as Hp. simpl in Hp.
  change (Pos.compare_cont Eq my mx) with (PosDef.Pos.compare_cont Eq my mx) in Hp.
  change (Pos.compare_cont Eq mx my) with (PosDef.Pos.compare_cont Eq mx my) in Hp.
  rewrite <- Hp.
  destruct sx, sy; simpl; try reflexivity.
  all: destruct (ex ?= ey)%Z; simpl; try reflexivity.
  all: try (destruct (PosDef.Pos.compare_cont Eq mx my); reflexivity).
Qed.

Lemma float_eqb_not_gt x y : Float64.eqb x y = true -> Float64.gt x y = false.
Proof.
  unfold Float64.eqb, Float64.gt, SFeqb, SFltb.
  rewrite (SFcompare_antisym x y).
  destruct (SFcompare x y) as [[| |]|]; simpl; (discriminate || reflexivity).
Qed.

(** [round_half_even] returns an integer nearest to [num / den]. *)
Lemma round_half_even_nearest num den :
  (0 < den)%Z -> (2 * Z.abs (Float64.round_half_even num den * den - num) <= den)%Z.
Proof.
  intros Hden. unfold Float64.round_half_even. cbv zeta.
  pose proof (Z.div_mod num den ltac:(lia)) as Hdm.
  pose proof (Z.mod_pos_bound num den Hden) as Hr.
  set (q := (num / den)%Z) in *. set (r := (num mod den)%Z) in *.
  clearbody q r.
  assert (Hdown : (q * den - num = - r)%Z) by (subst num; ring).
  assert (Hup : ((q + 1) * den - num = den - r)%Z) by (subst num; ring).
  destruct (Z.compare_spec (2 * r) den) as [Hcmp|Hcmp|Hcmp].
  - destruct (Z.even q); [rewrite Hdown | rewrite Hup]; lia.
  - rewrite Hdown. lia.
  - rewrite Hup. lia.
Qed.

Lemma range_ok_singleton ro (e : string * value) :
  range_ok ro -> order_conditions ro [e] = [e].
Proof.
  intros [_ Hc]. specialize (Hc [e]).
  apply Permutation_length_1_inv. symmetry. exact Hc.
Qed.

(** C8, as the code has it. The limit of a max_amount condition is the
    float64 its value converts to: a float64 value itself, float64(v) for an
    int v, rounded to the nearest float64. With a request whose amount is a
    float64: an amount equal to that limit passes the condition, so a
    permission carrying only that condition allows the request; an amount
    greater than that limit is denied with the reason
    "Amount <a> exceeds max_amount=<m>", both numbers printed with two
    decimals, rounded to the nearest hundredth. *)
Theorem max_amount_boundary :
  (forall before condVal after params maxAmt amt,
      max_amount_value condVal = Some maxAmt ->
      index params "amount" = VFloat64 amt ->
      (Float64.eqb amt maxAmt = true ->
       check_conditions (before ++ ("max_amount", condVal) :: after) params =
       check_conditions (before ++ after) params) /\
      (Float64.gt amt maxAmt = true ->
       check_conditions before params = "" ->
       check_conditions (before ++ ("max_amount", condVal) :: after) params =
       "Amount " +:+ Float64.Sprintf_2f amt +:+
       " exceeds max_amount=" +:+ Float64.Sprintf_2f maxAmt))
  /\
  (forall ro tool action params version perm rest condVal maxAmt amt,
      range_ok ro ->
      permission_matches tool action perm = true ->
      Conditions perm = [("max_amount", condVal)] ->
      max_amount_value condVal = Some maxAmt ->
      index params "amount" = VFloat64 amt ->
      (Float64.eqb amt maxAmt = true ->
       eval_permissions ro tool action params version (perm :: rest) =
       Some (Decision.mk true "Policy allows this action" version)) /\
      (Float64.gt amt maxAmt = true ->
       eval_permissions ro tool action params version (perm :: rest) =
       Some (Decision.mk false
               ("Amount " +:+ Float64.Sprintf_2f amt +:+
                " exceeds max_amount=" +:+ Float64.Sprintf_2f maxAmt) version)))
  /\
  (forall s m e,
      Float64.Sprintf_2f (S754_zero s) = Float64.sign s +:+ "0.00" /\
      Float64.Sprintf_2f (S754_finite s m e) =
      Float64.sign s +:+ Float64.utoa (Float64.hundredths m e / 100) +:+ "." +:+
      String (Float64.digit (Float64.hundredths m e mod 100 / 10))
        (String (Float64.digit (Float64.hundredths m e mod 10)) "") /\
      ((0 <= e)%Z -> Float64.hundredths m e = (Z.pos m * 2 ^ e * 100)%Z) /\
      ((e < 0)%Z ->
       (2 * Z.abs (Float64.hundredths m e * 2 ^ (- e) - Z.pos m * 100) <= 2 ^ (- e))%Z))
  /\
  (forall v f,
      max_amount_value (VInt v) = Some (binary_normalize 53 1024 v 0 false) /\
      max_amount_value (VFloat64 f) = Some f).
Proof.
  assert (Hone : forall condVal params maxAmt amt,
             max_amount_value condVal = Some maxAmt ->
             index params "amount" = VFloat64 amt ->
             check_condition "max_amount" condVal params =
             if Float64.gt amt maxAmt
             then Some ("Amount " +:+ Float64.Sprintf_2f amt +:+
                        " exceeds max_amount=" +:+ Float64.Sprintf_2f maxAmt)
             else None).
  { intros condVal params maxAmt amt Hmax Hamt.
    unfold check_condition. simpl. rewrite Hmax, Hamt. reflexivity. }
  split; [|split; [|split]].
  - intros before condVal after params maxAmt amt Hmax Hamt.
    specialize (Hone _ _ _ _ Hmax Hamt). split.
    + intros Heq. apply check_conditions_skip.
      rewrite Hone, (float_eqb_not_gt _ _ Heq). reflexivity.
    + intros Hgt Hbefore. rewrite check_conditions_app, Hbefore. simpl.
      rewrite Hone, Hgt. reflexivity.
  - intros ro tool action params version perm rest condVal maxAmt amt
      Hro Hmatch Hconds Hmax Hamt.
    specialize (Hone _ _ _ _ Hmax Hamt).
    rewrite eval_permissions_hit by exact Hmatch.
    rewrite Hconds, (range_ok_singleton _ _ Hro). simpl. rewrite Hone.
    split.
    + intros Heq. rewrite (float_eqb_not_gt _ _ Heq). reflexivity.
    + intros Hgt. rewrite Hgt. reflexivity.
  - intros s m e. split; [reflexivity|]. split; [reflexivity|].
    unfold Float64.hundredths. split.
    + intros He. apply Z.leb_le in He. rewrite He. reflexivity.
    + intros He. destruct (Z.leb_spec 0 e); [lia|].
      apply round_half_even_nearest. apply Z.pow_pos_nonneg; lia.
  - intros v f. split; reflexivity.
Qed.

(** C8, witness: with max_amount 5000, the amount 5000 passes and the amount
    10000 is denied. *)
Lemma max_amount_boundary_witness :
  check_conditions [("max_amount", VInt 5000)] (amount_of 5000) = "" /\
  check_conditions [("max_amount", VInt 5000)] (amount_of 10000) =
  "Amount 10000.00 exceeds max_amount=5000.00".
Proof.
  split.
  - apply (proj1 (proj1 max_amount_boundary [] (VInt 5000) [] (amount_of 5000)
                    (Float64.of_int 5000) (Float64.of_int 5000) eq_refl eq_refl)).
    vm_compute. reflexivity.
  - apply (proj2 (proj1 max_amount_boundary [] (VInt 5000) [] (amount_of 10000)
                    (Float64.of_int 5000) (Float64.of_int 10000) eq_refl eq_refl)).
    + vm_compute. reflexivity.
    + reflexivity.
Defined.

(** C8, counterexample. An amount strictly greater than max_amount can be
    allowed. The limit 9007199254740995 is an int of the policy file and is
    not a float64; float64(9007199254740995) is 9007199254740996. A request
    with the amount 9007199254740996, which is a float64 and is greater than
    the limit, is compared with the rounded limit, is not greater, and is
    allowed. *)
Lemma max_amount_limit_is_rounded :
  max_amount_value (VInt 9007199254740995) =
    Some (S754_finite false 4503599627370498 1) /\
  Unmarshal ("{" +:+ quoted "amount" +:+ ":9007199254740996}") =
    Ok (Some [("amount", VFloat64 (S754_finite false 4503599627370498 1))]) /\
  (Z.pos 4503599627370498 * 2 ^ 1 = 9007199254740996)%Z /\
  (9007199254740995 < Z.pos 4503599627370498 * 2 ^ 1)%Z /\
  check_conditions [("max_amount", VInt 9007199254740995)]
    (Some [("amount", VFloat64 (S754_finite false 4503599627370498 1))]) = "" /\
  Evaluate storage_order "finance-agent" "payments" "create"
    (Some [("amount", VFloat64 (S754_finite false 4503599627370498 1))])
    {| policies := [("limit.yaml", limit_policy 1 9007199254740995)];
       dir := "./policies" |} =
    Decision.mk true "Policy allows this action" 1 /\
  ~ (forall (limit : Z) (m : positive) (e : Z),
        (0 <= e)%Z -> (limit < Z.pos m * 2 ^ e)%Z ->
        check_conditions [("max_amount", VInt limit)]
          (Some [("amount", VFloat64 (S754_finite false m e))]) <> "").
Proof.
  split; [vm_compute; reflexivity|]. split; [vm_compute; reflexivity|].
  split; [reflexivity|]. split; [reflexivity|].
  split; [vm_compute; reflexivity|]. split; [vm_compute; reflexivity|].
  intros Hall.
  apply (Hall 9007199254740995%Z 4503599627370498%positive 1%Z); [lia | lia|].
  vm_compute. reflexivity.
Qed.

(** ** Determinism of the evaluator *)

Lemma check_conditions_empty conds params :
  check_conditions conds params = "" <->
  Forall (fun e => check_condition (fst e) (snd e) params = None) conds.
Proof.
  induction conds as [|[n v] rest IH]; simpl.
  - split; [constructor | reflexivity].
  - destruct (check_condition n v params) as [reason|] eqn:Hc.
    + split.
      * intros ->. exfalso. exact (check_condition_nonempty _ _ _ _ Hc eq_refl).
      * intros Hall. inversion Hall; subst. simpl in *. congruence.
    + rewrite IH. split.
      * intros Hall. constructor; assumption.
      * intros Hall. inversion Hall; subst. assumption.
Qed.

Lemma eval_policies_unique ro agentID tool action params files name policy :
  unique_match agentID tool action files ->
  In (name, policy) files ->
  policy_matches agentID tool action policy = true ->
  eval_policies ro agentID tool action params files =
  eval_agents ro agentID tool action params (Version policy) (Agents policy).
Proof.
  induction files as [|[n0 p0] rest IH]; intros Huniq Hin Hm; [destruct Hin|].
  destruct (policy_matches agentID tool action p0) eqn:Hm0.
  - assert (Heq : (n0, p0) = (name, policy)).
    { apply Huniq; simpl; auto. }
    inversion Heq; subst. simpl.
    destruct (eval_agents ro agentID tool action params (Version policy) (Agents policy))
      eqn:He; [reflexivity|].
    apply eval_agents_None in He. unfold policy_matches in Hm. congruence.
  - rewrite eval_policies_skip by exact Hm0.
    destruct Hin as [Heq|Hin]; [inversion Heq; subst; congruence|].
    apply IH; try assumption.
    intros f1 f2 H1 H2. apply Huniq; right; assumption.
Qed.

Lemma eval_policies_Permutation ro agentID tool action params files files' :
  unique_match agentID tool action files ->
  files' ≡ₚ files ->
  eval_policies ro agentID tool action params files' =
  eval_policies ro agentID tool action params files.
Proof.
  intros Huniq Hperm.
  assert (Huniq' : unique_match agentID tool action files').
  { intros f1 f2 H1 H2. apply Huniq; eapply Permutation_in; eauto. }
  destruct (eval_policies ro agentID tool action params files) eqn:He.
  - assert (Hsome : ~ Forall (fun f => policy_matches agentID tool action (snd f) = false)
                      files).
    { intros Hall. apply eval_policies_None with (ro := ro) (params := params) in Hall.
      congruence. }
    assert (Hex : exists name policy,
               In (name, policy) files /\ policy_matches agentID tool action policy = true).
    { clear -Hsome. induction files as [|[n p] rest IH].
      - exfalso. apply Hsome. constructor.
      - destruct (policy_matches agentID tool action p) eqn:Hm.
        + exists n, p. split; [left; reflexivity | exact Hm].
        + destruct IH as (n' & p' & Hin & Hm').
          * intros Hall. apply Hsome. constructor; assumption.
          * exists n', p'. split; [right; exact Hin | exact Hm']. }
    destruct Hex as (name & policy & Hin & Hm).
    rewrite (eval_policies_unique ro _ _ _ _ files' name policy); try assumption.
    + rewrite <- He. symmetry. apply (eval_policies_unique _ _ _ _ _ _ name); assumption.
    + eapply Permutation_in; [symmetry; exact Hperm | exact Hin].
  - apply eval_policies_None. rewrite Hperm. apply eval_policies_None in He. exact He.
Qed.

Lemma reverse_order_ok : range_ok reverse_order.
Proof.
  split; intros l; simpl; symmetry; apply Permutation_rev.
Qed.

Lemma storage_order_ok : range_ok storage_order.
Proof. split; intros l; reflexivity. Qed.

(** *** Any entry can come first *)

Lemma to_front_Permutation {A} (i : nat) (l : list A) : to_front i l ≡ₚ l.
Proof.
  revert l. induction i as [|i IH]; intros [|a l]; try reflexivity.
  specialize (IH l). unfold to_front in *. cbn [nth_error firstn skipn app].
  destruct (nth_error l i) as [x|]; [|reflexivity].
  etransitivity; [apply perm_swap | apply perm_skip; exact IH].
Qed.

Lemma to_front_head {A} (x : A) (l : list A) :
  In x l -> exists i rest, to_front i l = x :: rest.
Proof.
  intros Hin. apply List.In_nth_error in Hin as [i Hnth].
  exists i. unfold to_front. rewrite Hnth. eauto.
Qed.

Lemma front_order_ok i j : range_ok (front_order i j).
Proof. split; intros l; apply to_front_Permutation. Qed.

(** The decision of a file that can decide is a possible result of
    [Evaluate], with any of the conditions of its deciding permission
    visited first. *)
Lemma Evaluate_returns_candidate m agentID tool action params f perm :
  In f (policies m) ->
  deciding_permission agentID tool action (snd f) = Some perm ->
  forall j,
    Evaluate_returns m agentID tool action params
      (decided (front_order 0 j) params (Version (snd f)) perm).
Proof.
  intros Hin Hdeciding j.
  destruct (to_front_head f (policies m) Hin) as (i & rest & Hfront).
  exists (front_order i j). split; [apply front_order_ok|].
  unfold Evaluate. cbn [front_order order_policies]. rewrite Hfront.
  rewrite eval_policies_deciding. cbn [List.find].
  rewrite Hdeciding. cbn [is_None negb]. rewrite Hdeciding. reflexivity.
Qed.

(** Every result of [Evaluate] is the default denial, when no file can
    decide, or the decision of a file that can. *)
Lemma Evaluate_returns_cases m agentID tool action params d :
  Evaluate_returns m agentID tool action params d ->
  (d = no_policy_found agentID tool action /\
   forall f, In f (policies m) ->
             deciding_permission agentID tool action (snd f) = None) \/
  exists ro f perm,
    range_ok ro /\ In f (policies m) /\
    deciding_permission agentID tool action (snd f) = Some perm /\
    d = decided ro params (Version (snd f)) perm.
Proof.
  intros (ro & Hro & <-). unfold Evaluate. rewrite eval_policies_deciding.
  destruct (List.find _ (order_policies ro (policies m))) as [f|] eqn:Hfind.
  - right. apply List.find_some in Hfind as [Hin Hsome].
    apply (Permutation_in _ (proj1 Hro (policies m))) in Hin.
    destruct (deciding_permission agentID tool action (snd f)) as [perm|] eqn:Hd;
      [|discriminate Hsome].
    exists ro, f, perm. auto.
  - left. split; [reflexivity|]. intros f Hin.
    apply (Permutation_in _ (Permutation_sym (proj1 Hro (policies m)))) in Hin.
    pose proof (List.find_none _ _ Hfind f Hin) as Hnone. cbn beta in Hnone.
    destruct (deciding_permission agentID tool action (snd f)); [discriminate|reflexivity].
Qed.

Lemma passes_any_order ro params perm :
  range_ok ro ->
  check_conditions (order_conditions ro (Conditions perm)) params = "" <->
  passes params perm.
Proof.
  intros [_ Hconds]. unfold passes. rewrite check_conditions_empty.
  rewrite (Hconds (Conditions perm)). reflexivity.
Qed.

(** C1, as the code has it. Two calls of [Evaluate] on one snapshot with
    the same arguments are bound to return the same decision exactly when
    the loaded files that can decide the request agree: taking in each file
    the first permission of the caller for the tool and the action, these
    files all have one version, their deciding permissions all pass or all
    fail the request, and the failing conditions among them all give one
    reason. One such file whose permission fails for at most one reason is
    the plain case; several files, or several failing conditions, make the
    decision depend on the order of the map iterations unless they agree. *)
Theorem Evaluate_deterministic_iff_candidates_agree
    (m : Manager) (agentID tool action : string) (params : Params) :
  (forall d1 d2,
      Evaluate_returns m agentID tool action params d1 ->
      Evaluate_returns m agentID tool action params d2 ->
      d1 = d2) <->
  candidates_agree m agentID tool action params.
Proof.
  split.
  - intros Hdet f1 f2 perm1 perm2 Hin1 Hin2 Hd1 Hd2.
    pose proof (Evaluate_returns_candidate m agentID tool action params f1 perm1 Hin1 Hd1)
      as Hc1.
    pose proof (Evaluate_returns_candidate m agentID tool action params f2 perm2 Hin2 Hd2)
      as Hc2.
    assert (Hpass : forall (fa fb : string * Policy) pa pb,
               (forall j, Evaluate_returns m agentID tool action params
                            (decided (front_order 0 j) params (Version (snd fa)) pa)) ->
               (forall j, Evaluate_returns m agentID tool action params
                            (decided (front_order 0 j) params (Version (snd fb)) pb)) ->
               passes params pa -> passes params pb).
    { intros fa fb pa pb Ha Hb Hpa.
      pose proof (Hdet _ _ (Ha 0%nat) (Hb 0%nat)) as Heq.
      apply (passes_any_order (front_order 0 0) params pa (front_order_ok 0 0)) in Hpa.
      apply (passes_any_order (front_order 0 0) params pb (front_order_ok 0 0)).
      unfold decided in Heq. cbv zeta in Heq. rewrite Hpa in Heq. cbn [String.eqb negb] in Heq.
      destruct (String.eqb_spec
                  (check_conditions (order_conditions (front_order 0 0) (Conditions pb))
                     params) "") as [Hpb|_]; [exact Hpb|].
      cbn [negb] in Heq. discriminate Heq. }
    split; [|split].
    + pose proof (Hdet _ _ (Hc1 0%nat) (Hc2 0%nat)) as Heq.
      apply (f_equal Decision.Version) in Heq. unfold decided in Heq. cbv zeta in Heq.
      destruct (negb _), (negb _) in Heq; exact Heq.
    + split; [apply (Hpass f1 f2) | apply (Hpass f2 f1)]; assumption.
    + intros e1 e2 r1 r2 He1 He2 Hr1 Hr2.
      destruct (to_front_head e1 _ He1) as (j1 & rest1 & Hfront1).
      destruct (to_front_head e2 _ He2) as (j2 & rest2 & Hfront2).
      pose proof (Hdet _ _ (Hc1 j1) (Hc2 j2)) as Heq.
      unfold decided in Heq. cbv zeta in Heq.
      cbn [front_order order_conditions] in Heq. rewrite Hfront1, Hfront2 in Heq.
      rewrite !check_conditions_cons, Hr1, Hr2 in Heq.
      pose proof (check_condition_nonempty _ _ _ _ Hr1) as Hne1.
      pose proof (check_condition_nonempty _ _ _ _ Hr2) as Hne2.
      destruct (String.eqb_spec r1 ""); [contradiction|].
      destruct (String.eqb_spec r2 ""); [contradiction|].
      cbn [negb] in Heq. congruence.
  - intros Hagree d1 d2 H1 H2.
    destruct (Evaluate_returns_cases _ _ _ _ _ _ H1)
      as [[-> Hnone1]|(ro1 & f1 & perm1 & Hro1 & Hin1 & Hd1 & ->)];
      destruct (Evaluate_returns_cases _ _ _ _ _ _ H2)
        as [[-> Hnone2]|(ro2 & f2 & perm2 & Hro2 & Hin2 & Hd2 & ->)].
    + reflexivity.
    + rewrite (Hnone1 f2 Hin2) in Hd2. discriminate.
    + rewrite (Hnone2 f1 Hin1) in Hd1. discriminate.
    + destruct (Hagree f1 f2 perm1 perm2 Hin1 Hin2 Hd1 Hd2) as (Hversion & Hpass & Hreason).
      unfold decided. cbv zeta. rewrite Hversion.
      destruct (String.eqb_spec
                  (check_conditions (order_conditions ro1 (Conditions perm1)) params) "")
        as [Hp1|Hf1];
        destruct (String.eqb_spec
                    (check_conditions (order_conditions ro2 (Conditions perm2)) params) "")
          as [Hp2|Hf2]; cbn [negb].
      * reflexivity.
      * exfalso. apply Hf2. apply (passes_any_order ro2 params perm2 Hro2), Hpass.
        apply (passes_any_order ro1 params perm1 Hro1), Hp1.
      * exfalso. apply Hf1. apply (passes_any_order ro1 params perm1 Hro1), Hpass.
        apply (passes_any_order ro2 params perm2 Hro2), Hp2.
      * destruct (check_conditions_In _ _ Hf1) as (n1 & v1 & He1 & Hr1).
        destruct (check_conditions_In _ _ Hf2) as (n2 & v2 & He2 & Hr2).
        apply (Permutation_in _ (proj2 Hro1 (Conditions perm1))) in He1.
        apply (Permutation_in _ (proj2 Hro2 (Conditions perm2))) in He2.
        rewrite (Hreason (n1, v1) (n2, v2) _ _ He1 He2 Hr1 Hr2). reflexivity.
Qed.

(** C1, witness: on the example snapshot a read of hr-agent gets under the
    reversed iteration orders the decision it gets under the stored ones,
    the denial for the path, although the request, which carries neither
    amount nor currency, would fail the two conditions of the permission of
    finance-agent for two different reasons. *)
Lemma Evaluate_deterministic_iff_candidates_agree_witness :
  Evaluate reverse_order "hr-agent" "files" "read"
    (Some [("path", VString "/legal/contract.docx")]) example_manager =
  Decision.mk false
    "Path /legal/contract.docx does not match required prefix /hr-docs/" 1.
Proof.
  change (Decision.mk false
            "Path /legal/contract.docx does not match required prefix /hr-docs/" 1)
    with (Evaluate storage_order "hr-agent" "files" "read"
            (Some [("path", VString "/legal/contract.docx")]) example_manager).
  symmetry.
  apply (proj2 (Evaluate_deterministic_iff_candidates_agree example_manager
                  "hr-agent" "files" "read"
                  (Some [("path", VString "/legal/contract.docx")]))).
  - intros f1 f2 perm1 perm2 H1 H2 Hd1 Hd2. simpl in H1, H2.
    destruct H1 as [<-|[]], H2 as [<-|[]].
    vm_compute in Hd1, Hd2. injection Hd1 as <-. injection Hd2 as <-.
    split; [reflexivity|]. split; [tauto|].
    intros e1 e2 r1 r2 He1 He2 Hr1 Hr2. simpl in He1, He2.
    destruct He1 as [<-|[]], He2 as [<-|[]]. congruence.
  - exists storage_order. split; [exact storage_order_ok | reflexivity].
  - exists reverse_order. split; [exact reverse_order_ok | reflexivity].
Defined.

(** C1, counterexample. The decision can depend on the order of either
    iteration. With two loaded files that both hold a permission for
    (finance-agent, payments, create), one with limit 5000 and version 1,
    the other with limit 10000 and version 2, a request for 7500 is denied
    with version 1 when the loop meets a.yaml first and allowed with version
    2 when it meets b.yaml first. With the single example file, a request
    for 50000 GBP is denied for its amount when the loop over the conditions
    meets max_amount first and for its currency when it meets currencies
    first. *)
Lemma Evaluate_depends_on_iteration_order :
  (Evaluate_returns overlapping_manager "finance-agent" "payments" "create"
     (amount_of 7500)
     (Decision.mk false "Amount 7500.00 exceeds max_amount=5000.00" 1) /\
   Evaluate_returns overlapping_manager "finance-agent" "payments" "create"
     (amount_of 7500)
     (Decision.mk true "Policy allows this action" 2)) /\
  (Evaluate_returns example_manager "finance-agent" "payments" "create"
     (payment_params 50000 "GBP")
     (Decision.mk false "Amount 50000.00 exceeds max_amount=5000.00" 1) /\
   Evaluate_returns example_manager "finance-agent" "payments" "create"
     (payment_params 50000 "GBP")
     (Decision.mk false "Currency GBP not in allowed list" 1)) /\
  ~ (forall m agentID tool action params d1 d2,
        Evaluate_returns m agentID tool action params d1 ->
        Evaluate_returns m agentID tool action params d2 ->
        d1 = d2).
Proof.
  assert (H1 : Evaluate_returns overlapping_manager "finance-agent" "payments" "create"
                 (amount_of 7500)
                 (Decision.mk false "Amount 7500.00 exceeds max_amount=5000.00" 1)).
  { exists storage_order. split; [apply storage_order_ok | vm_compute; reflexivity]. }
  assert (H2 : Evaluate_returns overlapping_manager "finance-agent" "payments" "create"
                 (amount_of 7500)
                 (Decision.mk true "Policy allows this action" 2)).
  { exists reverse_order. split; [apply reverse_order_ok | vm_compute; reflexivity]. }
  split; [split; [exact H1 | exact H2]|]. split.
  - split.
    + exists storage_order. split; [apply storage_order_ok | vm_compute; reflexivity].
    + exists reverse_order. split; [apply reverse_order_ok | vm_compute; reflexivity].
  - intros Hdet. specialize (Hdet _ _ _ _ _ _ _ H1 H2). discriminate Hdet.
Qed.

(** ** The file watcher *)

Lemma land_pow2 op n :
  (0 <= n)%Z -> Z.land op (2 ^ n) = if Z.testbit op n then (2 ^ n)%Z else 0%Z.
Proof.
  intros Hn. apply Z.bits_inj'. intros k Hk.
  rewrite Z.land_spec, Z.pow2_bits_eqb by exact Hn.
  destruct (Z.eqb_spec n k) as [->|Hne].
  - rewrite andb_true_r. destruct (Z.testbit op k); [|rewrite Z.bits_0; reflexivity].
    rewrite Z.pow2_bits_true by exact Hk. reflexivity.
  - rewrite andb_false_r. destruct (Z.testbit op n); [|rewrite Z.bits_0; reflexivity].
    rewrite Z.pow2_bits_false by congruence. reflexivity.
Qed.

Lemma write_or_create_bits event :
  write_or_create event = Z.testbit (EventOp event) 1 || Z.testbit (EventOp event) 0.
Proof.
  unfold write_or_create, Op.Write, Op.Create.
  change 2%Z with (2 ^ 1)%Z. change 1%Z with (2 ^ 0)%Z at 3 4.
  rewrite !land_pow2 by lia.
  destruct (Z.testbit (EventOp event) 1), (Z.testbit (EventOp event) 0); reflexivity.
Qed.

(** C3, as the code has it. One iteration of the watcher loop on a received
    event calls [Reload] once when the event carries the write or the create
    bit, and not at all otherwise: an event that is only a rename, a remove
    or a chmod starts no reload. *)
Theorem watcher_reloads_on_write_or_create
    (yaml : string -> option Policy) (fs : FileSystem) (m : Manager) (event : Event) :
  reload_calls (step_effects (watch_step yaml fs m (FromEvents event))) =
  (if Z.testbit (EventOp event) 1 || Z.testbit (EventOp event) 0
   then [snd (Reload yaml fs m)]
   else []).
Proof.
  unfold watch_step. rewrite <- write_or_create_bits.
  destruct (write_or_create event); [|reflexivity].
  destruct (Reload yaml fs m) as [m' err]. reflexivity.
Qed.

(** C3, counterexample. A rename event and a remove event in the policy
    directory both leave the loop without any call of [Reload]. *)
Lemma rename_and_remove_do_not_reload :
  reload_calls
    (step_effects
       (watch_step example_yaml example_fs example_manager
          (FromEvents {| EventName := "policies/example.yaml"; EventOp := Op.Rename |})))
  = [] /\
  reload_calls
    (step_effects
       (watch_step example_yaml example_fs example_manager
          (FromEvents {| EventName := "policies/example.yaml"; EventOp := Op.Remove |})))
  = [].
Proof. split; reflexivity. Qed.

(** ** Error responses *)

Lemma respond_error_shape toolName e :
  (forall status responseBody, e <> Relayed status responseBody) ->
  Header (respond toolName e) = application_json /\
  exists kind reason,
    Body (respond toolName e) = Encode_ErrorResponse (ErrorResponse.mk kind reason).
Proof.
  intros Hnot. destruct e; simpl; (split; [reflexivity|]); eauto.
  exfalso. eapply Hnot. reflexivity.
Qed.

(** What [write_error] puts on the wire when the reason is not empty: the
    status, the JSON content type and an object with the two members. *)
Lemma write_error_response code kind reason :
  reason <> "" ->
  write_error code kind reason =
  {| StatusCode := code;
     Header := {[ "Content-Type" := "application/json" ]};
     Body := "{" +:+ quoted "error" +:+ ":" +:+ appendString kind +:+ "," +:+
             quoted "reason" +:+ ":" +:+ appendString reason +:+ "}" +:+ newline |}.
Proof.
  intros Hreason. unfold write_error, Encode_ErrorResponse, application_json.
  cbn [ErrorResponse.Error ErrorResponse.Reason].
  destruct (String.eqb_spec reason ""); [contradiction|].
  rewrite !append_assoc. reflexivity.
Qed.

(** C6, at the failing input. When the policy directory cannot be read,
    [handle_reload] answers 500 through [http.Error]: the content type is
    text/plain, not application/json, and the body carries the key "message"
    where the error object of the other handlers has "reason". *)
Theorem handle_reload_failure_is_text_plain :
  let resp := snd (handle_reload example_yaml missing_fs example_gateway) in
  StatusCode resp = 500%Z /\
  Header resp !! "Content-Type" = Some "text/plain; charset=utf-8" /\
  Header resp !! "Content-Type" <> Some "application/json" /\
  Body resp =
    "{" +:+ quoted "error" +:+ ":" +:+ quoted "ReloadFailed" +:+ "," +:+
    quoted "message" +:+ ":" +:+
    quoted "failed to read policies directory: open ./policies: no such file or directory"
    +:+ "}" +:+ newline /\
  forall reason,
    Body resp <> Encode_ErrorResponse (ErrorResponse.mk "ReloadFailed" reason).
Proof.
  cbv zeta. split; [reflexivity|]. split; [vm_compute; reflexivity|].
  split; [vm_compute; discriminate|]. split; [vm_compute; reflexivity|].
  intros reason. unfold Encode_ErrorResponse. cbn [ErrorResponse.Error ErrorResponse.Reason].
  destruct (reason =? ""); vm_compute; discriminate.
Qed.

(** ** The tool-call handler *)

Lemma audit_records_app a b :
  audit_records (a ++ b) = audit_records a ++ audit_records b.
Proof.
  induction a as [|e a IH]; [reflexivity|].
  destruct e; simpl; rewrite IH; reflexivity.
Qed.

Lemma http_posts_app a b : http_posts (a ++ b) = http_posts a ++ http_posts b.
Proof.
  induction a as [|e a IH]; [reflexivity|].
  destruct e; simpl; rewrite IH; reflexivity.
Qed.

Lemma forward_to_adapter_no_audit env url body :
  audit_records (snd (forward_to_adapter env url body)) = [].
Proof.
  unfold forward_to_adapter. destruct (new_request_error env url); reflexivity.
Qed.

Section HandlerFacts.

Context `{GoLib}.
Variables (g : Gateway) (env : Env) (r : Request).

Lemma authorize_audit requestBody requestParams :
  audit_records (snd (authorize g env r requestBody requestParams)) =
  [decision_record g env r requestParams].
Proof.
  unfold authorize, decision_record. cbv zeta.
  destruct (negb _); [reflexivity|].
  destruct (adapters g !! vars_tool r); [|reflexivity].
  pose proof (forward_to_adapter_no_audit env
                (TrimSuffix s "/" +:+ "/" +:+ vars_action r) requestBody) as Hfw.
  destruct (forward_to_adapter _ _ _) as [[[status [responseBody|]]|err] sent];
    simpl in *; rewrite Hfw; reflexivity.
Qed.

Lemma authorize_deny requestBody requestParams :
  let decision :=
    Evaluate (ranges env) (X_Agent_ID r) (vars_tool r) (vars_action r) requestParams
      (policyManager g) in
  Decision.Allow decision = false ->
  fst (authorize g env r requestBody requestParams) = PolicyViolation decision /\
  http_posts (snd (authorize g env r requestBody requestParams)) = [].
Proof.
  cbv zeta. intros Hdeny. unfold authorize. cbv zeta. rewrite Hdeny. simpl. auto.
Qed.

Lemma authorize_not_found requestBody requestParams :
  fst (authorize g env r requestBody requestParams) = AdapterNotFound ->
  Decision.Allow
    (Evaluate (ranges env) (X_Agent_ID r) (vars_tool r) (vars_action r) requestParams
       (policyManager g)) = true /\
  adapters g !! vars_tool r = None.
Proof.
  unfold authorize. cbv zeta.
  destruct (Decision.Allow _); simpl; [|discriminate].
  destruct (adapters g !! vars_tool r); [|auto].
  destruct (forward_to_adapter _ _ _) as [[[status [responseBody|]]|err] sent];
    simpl; discriminate.
Qed.

Lemma handleToolRequest_route :
  handleToolRequest g env r =
  (respond (vars_tool r) (fst (route g env r)),
   SpanStart "gateway.handleToolRequest" :: snd (route g env r) ++
   [SpanEnd "gateway.handleToolRequest"]).
Proof. unfold handleToolRequest. destruct (route g env r). reflexivity. Qed.

End HandlerFacts.

Lemma handleToolRequest_audit `{GoLib} (g : Gateway) (env : Env) (r : Request) :
  audit_records (snd (handleToolRequest g env r)) =
  if X_Agent_ID r =? "" then []
  else
    match ReadAll_Body r with
    | Err _ => []
    | Ok requestBody =>
        match Unmarshal requestBody with
        | Err _ => []
        | Ok requestParams => [decision_record g env r requestParams]
        end
    end.
Proof.
  rewrite handleToolRequest_route. cbn [snd audit_records].
  rewrite audit_records_app. cbn [audit_records]. rewrite app_nil_r.
  unfold route.
  destruct (X_Agent_ID r =? ""); [reflexivity|].
  destruct (ReadAll_Body r) as [requestBody|]; [|reflexivity].
  destruct (Unmarshal requestBody) as [requestParams|]; [|reflexivity].
  apply authorize_audit.
Qed.

(** C2, as the code has it. A request emits exactly one audit record, the
    one of its decision, when its X-Agent-ID is non-empty, its body is read
    and the body parses into the parameter map; it emits none when the
    header is empty, when the body cannot be read or when the body does not
    parse. *)
Theorem audit_record_iff_decision `{GoLib} (g : Gateway) (env : Env) (r : Request) :
  audit_records (snd (handleToolRequest g env r)) =
  if X_Agent_ID r =? "" then []
  else
    match ReadAll_Body r with
    | Err _ => []
    | Ok requestBody =>
        match Unmarshal requestBody with
        | Err _ => []
        | Ok requestParams => [decision_record g env r requestParams]
        end
    end.
Proof.
  unfold handleToolRequest, route.
  destruct (X_Agent_ID r =? ""); [reflexivity|].
  destruct (ReadAll_Body r) as [requestBody|]; [|reflexivity].
  destruct (Unmarshal requestBody) as [requestParams|]; [|reflexivity].
  pose proof (authorize_audit g env r requestBody requestParams) as Hone.
  destruct (authorize g env r requestBody requestParams) as [e effs].
  cbn [snd audit_records] in *.
  rewrite audit_records_app, Hone. reflexivity.
Qed.

(** C2, counterexample. With X-Agent-ID test-agent, the body
    "invalid json" of the repository's own test and a body whose read
    fails are both answered 400 without any audit record. *)
Lemma unparsed_body_emits_no_audit :
  X_Agent_ID (example_request "test-agent" (Ok "invalid json")) <> "" /\
  audit_records
    (snd (handleToolRequest example_gateway example_env
            (example_request "test-agent" (Ok "invalid json")))) = [] /\
  audit_records
    (snd (handleToolRequest example_gateway example_env
            (example_request "test-agent" (Err "unexpected EOF")))) = [] /\
  ~ (forall (g : Gateway) (env : Env) (r : Request),
        X_Agent_ID r <> "" ->
        length (audit_records (snd (handleToolRequest g env r))) = 1%nat).
Proof.
  split; [discriminate|]. split; [vm_compute; reflexivity|].
  split; [vm_compute; reflexivity|].
  intros Hall.
  specialize (Hall example_gateway example_env
                (example_request "test-agent" (Err "unexpected EOF"))).
  assert (Hne : X_Agent_ID (example_request "test-agent" (Err "unexpected EOF")) <> "")
    by discriminate.
  specialize (Hall Hne). vm_compute in Hall. discriminate Hall.
Qed.

(** C4. Whenever the evaluator denies a tool call, the handler answers
    with status 403, content type application/json and the JSON object
    whose error is PolicyViolation and whose reason is the reason of the
    decision, and it sends nothing to any adapter, whether or not the
    adapter map has the tool; and the handler leaves through the
    AdapterNotFound exit, status 404 with the error AdapterNotFound, only
    after the evaluator has allowed the call and the tool is absent from the
    adapter map. *)
Theorem policy_check_precedes_adapter_lookup :
  (forall `{GoLib} (g : Gateway) (env : Env) (r : Request) requestBody requestParams,
      X_Agent_ID r <> "" ->
      ReadAll_Body r = Ok requestBody ->
      Unmarshal requestBody = Ok requestParams ->
      let decision :=
        Evaluate (ranges env) (X_Agent_ID r) (vars_tool r) (vars_action r)
          requestParams (policyManager g) in
      Decision.Allow decision = false ->
      fst (handleToolRequest g env r) =
        {| StatusCode := 403;
           Header := {[ "Content-Type" := "application/json" ]};
           Body := "{" +:+ quoted "error" +:+ ":" +:+ quoted "PolicyViolation" +:+ "," +:+
                   quoted "reason" +:+ ":" +:+ appendString (Decision.Reason decision) +:+
                   "}" +:+ newline |} /\
      http_posts (snd (handleToolRequest g env r)) = [])
  /\
  (forall `{GoLib} (g : Gateway) (env : Env) (r : Request),
      fst (route g env r) = AdapterNotFound ->
      exists requestBody requestParams,
        X_Agent_ID r <> "" /\
        ReadAll_Body r = Ok requestBody /\
        Unmarshal requestBody = Ok requestParams /\
        Decision.Allow
          (Evaluate (ranges env) (X_Agent_ID r) (vars_tool r) (vars_action r)
             requestParams (policyManager g)) = true /\
        adapters g !! vars_tool r = None /\
        fst (handleToolRequest g env r) =
          {| StatusCode := 404;
             Header := {[ "Content-Type" := "application/json" ]};
             Body := "{" +:+ quoted "error" +:+ ":" +:+ quoted "AdapterNotFound" +:+ "," +:+
                     quoted "reason" +:+ ":" +:+
                     appendString ("No adapter configured for tool: " +:+ vars_tool r) +:+
                     "}" +:+ newline |}).
Proof.
  split.
  - intros lib g env r requestBody requestParams Hagent Hbody Hparse decision Hdeny.
    rewrite handleToolRequest_route. cbn [fst snd].
    assert (Hroute : route g env r = authorize g env r requestBody requestParams).
    { unfold route. destruct (String.eqb_spec (X_Agent_ID r) ""); [contradiction|].
      rewrite Hbody, Hparse. reflexivity. }
    rewrite Hroute.
    destruct (authorize_deny g env r requestBody requestParams Hdeny) as [Hexit Hposts].
    rewrite Hexit. split.
    + cbn [respond]. rewrite write_error_response by apply Evaluate_reason. reflexivity.
    + cbn [http_posts]. rewrite http_posts_app, Hposts. reflexivity.
  - intros lib g env r Hexit.
    rewrite handleToolRequest_route. cbn [fst]. rewrite Hexit.
    unfold route in Hexit.
    destruct (String.eqb_spec (X_Agent_ID r) "") as [|Hagent]; [discriminate|].
    destruct (ReadAll_Body r) as [requestBody|]; [|discriminate].
    destruct (Unmarshal requestBody) as [requestParams|] eqn:Hparse; [|discriminate].
    apply authorize_not_found in Hexit as [Hallow Habsent].
    exists requestBody, requestParams. repeat split; auto.
Qed.

(** C4, witness: the payment of 50000 is answered 403 with the error
    PolicyViolation and the reason of the amount, and nothing is sent to the
    payments adapter. *)
Lemma policy_check_precedes_adapter_lookup_witness :
  fst (handleToolRequest example_gateway example_env
         (example_request "finance-agent" (Ok (payment_body "50000" "USD")))) =
  {| StatusCode := 403;
     Header := {[ "Content-Type" := "application/json" ]};
     Body := "{" +:+ quoted "error" +:+ ":" +:+ quoted "PolicyViolation" +:+ "," +:+
             quoted "reason" +:+ ":" +:+
             quoted "Amount 50000.00 exceeds max_amount=5000.00" +:+ "}" +:+ newline |} /\
  http_posts
    (snd (handleToolRequest example_gateway example_env
            (example_request "finance-agent" (Ok (payment_body "50000" "USD"))))) = [].
Proof.
  pose proof (proj1 policy_check_precedes_adapter_lookup reference_lib
                example_gateway example_env
                (example_request "finance-agent" (Ok (payment_body "50000" "USD")))
                (payment_body "50000" "USD") (payment_params 50000 "USD")
                ltac:(discriminate) eq_refl
                ltac:(vm_compute; reflexivity) ltac:(vm_compute; reflexivity))
    as [Hresp Hposts].
  split; [|exact Hposts].
  rewrite Hresp. vm_compute. reflexivity.
Defined.

Lemma check_conditions_nil_map conds :
  check_conditions conds None = check_conditions conds (Some []).
Proof.
  induction conds as [|[n v] rest IH]; [reflexivity|].
  simpl. change (check_condition n v None) with (check_condition n v (Some [])).
  rewrite IH. reflexivity.
Qed.

Lemma Evaluate_nil_map ro agentID tool action m :
  Evaluate ro agentID tool action None m = Evaluate ro agentID tool action (Some []) m.
Proof.
  unfold Evaluate.
  assert (Hperms : forall version allow,
             eval_permissions ro tool action None version allow =
             eval_permissions ro tool action (Some []) version allow).
  { intros version allow. induction allow as [|perm rest IH]; [reflexivity|].
    simpl. rewrite IH, check_conditions_nil_map. reflexivity. }
  assert (Hagents : forall version agents,
             eval_agents ro agentID tool action None version agents =
             eval_agents ro agentID tool action (Some []) version agents).
  { intros version agents. induction agents as [|agent rest IH]; [reflexivity|].
    simpl. rewrite IH, Hperms. reflexivity. }
  assert (Hfiles : forall files,
             eval_policies ro agentID tool action None files =
             eval_policies ro agentID tool action (Some []) files).
  { intros files. induction files as [|[name policy] rest IH]; [reflexivity|].
    simpl. rewrite IH, Hagents. reflexivity. }
  rewrite Hfiles. reflexivity.
Qed.

(** C10. With a non-empty X-Agent-ID: a body that is a JSON array, string,
    number or boolean is answered with status 400, content type
    application/json and the JSON object whose error is InvalidRequest and
    whose reason is "Request body must be valid JSON", and the handler does
    nothing else between the start and the end of its span (no evaluation,
    no audit record); a body that is the literal null is accepted, its
    parameter map is the nil map, and the handler goes on to hash it and to
    evaluate the policy, where the nil map reads as the empty map. *)
Theorem non_mapping_body_rejected_null_accepted `{GoLib}
    (g : Gateway) (env : Env) (r : Request) (data : string) (j : json) :
  X_Agent_ID r <> "" ->
  ReadAll_Body r = Ok data ->
  json_scan data = Some j ->
  (not_a_mapping j = true ->
   handleToolRequest g env r =
   ({| StatusCode := 400;
       Header := {[ "Content-Type" := "application/json" ]};
       Body := "{" +:+ quoted "error" +:+ ":" +:+ quoted "InvalidRequest" +:+ "," +:+
               quoted "reason" +:+ ":" +:+ quoted "Request body must be valid JSON" +:+
               "}" +:+ newline |},
    [SpanStart "gateway.handleToolRequest"; SpanEnd "gateway.handleToolRequest"]))
  /\
  (j = JNull ->
   route g env r = authorize g env r data None /\
   audit_records (snd (handleToolRequest g env r)) = [decision_record g env r None] /\
   AuditLog.ParamsHash (decision_record g env r None) =
     "74234e98afe7498fb5daf1f36ac2d78acc339464f950703b8c019892f982b90b" /\
   AuditLog.Decision (decision_record g env r None) =
     Decision.Allow
       (Evaluate (ranges env) (X_Agent_ID r) (vars_tool r) (vars_action r) (Some [])
          (policyManager g))).
Proof.
  intros Hagent Hbody Hscan.
  assert (Hroute : route g env r =
                   match Unmarshal data with
                   | Err _ => (BodyNotJSON, [])
                   | Ok requestParams => authorize g env r data requestParams
                   end).
  { unfold route. destruct (String.eqb_spec (X_Agent_ID r) ""); [contradiction|].
    rewrite Hbody. reflexivity. }
  split.
  - intros Hnot. rewrite handleToolRequest_route, Hroute.
    unfold Unmarshal. rewrite Hscan.
    destruct j; try discriminate Hnot; cbn [fst snd respond];
      rewrite write_error_response by discriminate; reflexivity.
  - intros ->.
    assert (Hnull : Unmarshal data = Ok None).
    { unfold Unmarshal. rewrite Hscan. reflexivity. }
    rewrite Hnull in Hroute. split; [exact Hroute|].
    split.
    { rewrite handleToolRequest_audit.
      destruct (String.eqb_spec (X_Agent_ID r) ""); [contradiction|].
      rewrite Hbody, Hnull. reflexivity. }
    split; [vm_compute; reflexivity |].
    unfold decision_record. cbn [AuditLog.Decision]. rewrite Evaluate_nil_map. reflexivity.
Qed.

(** C10, witness: the body [1] is answered 400 with the error
    InvalidRequest and nothing happens between the start and the end of the
    span. *)
Lemma non_mapping_body_rejected_null_accepted_witness :
  handleToolRequest example_gateway example_env
    (example_request "finance-agent" (Ok "[1]")) =
  ({| StatusCode := 400;
      Header := {[ "Content-Type" := "application/json" ]};
      Body := "{" +:+ quoted "error" +:+ ":" +:+ quoted "InvalidRequest" +:+ "," +:+
              quoted "reason" +:+ ":" +:+ quoted "Request body must be valid JSON" +:+
              "}" +:+ newline |},
   [SpanStart "gateway.handleToolRequest"; SpanEnd "gateway.handleToolRequest"]).
Proof.
  apply (proj1 (@non_mapping_body_rejected_null_accepted reference_lib
                  example_gateway example_env
                  (example_request "finance-agent" (Ok "[1]"))
                  "[1]" (JArray [JNumber "1"])
                  ltac:(discriminate) eq_refl eq_refl)).
  reflexivity.
Defined.

(** ** The parameter hash *)

(** *** Byte-wise order of keys *)

Lemma ascii_compare_refl a : Ascii.compare a a = Eq.
Proof. unfold Ascii.compare. apply N.compare_refl. Qed.

Lemma ascii_compare_Lt_trans a b c :
  Ascii.compare a b = Lt -> Ascii.compare b c = Lt -> Ascii.compare a c = Lt.
Proof.
  unfold Ascii.compare. rewrite !N.compare_lt_iff. apply N.lt_trans.
Qed.

Lemma string_compare_refl s : String.compare s s = Eq.
Proof.
  induction s as [|a s IH]; [reflexivity|].
  simpl. rewrite ascii_compare_refl. exact IH.
Qed.

Lemma string_compare_Lt_trans s1 :
  forall s2 s3,
    String.compare s1 s2 = Lt -> String.compare s2 s3 = Lt -> String.compare s1 s3 = Lt.
Proof.
  induction s1 as [|a s1 IH]; intros [|b s2] [|c s3]; simpl; try discriminate; auto.
  destruct (Ascii.compare a b) eqn:Hab; try discriminate;
    destruct (Ascii.compare b c) eqn:Hbc; try discriminate; intros H12 H23.
  - apply Ascii.compare_eq_iff in Hab, Hbc. subst.
    rewrite ascii_compare_refl. eapply IH; eassumption.
  - apply Ascii.compare_eq_iff in Hab. subst. rewrite Hbc. reflexivity.
  - apply Ascii.compare_eq_iff in Hbc. subst. rewrite Hab. reflexivity.
  - rewrite (ascii_compare_Lt_trans _ _ _ Hab Hbc). reflexivity.
Qed.

Lemma string_leb_trans s1 s2 s3 :
  String.leb s1 s2 = true -> String.leb s2 s3 = true -> String.leb s1 s3 = true.
Proof.
  unfold String.leb.
  destruct (String.compare s1 s2) eqn:H12; try discriminate;
    destruct (String.compare s2 s3) eqn:H23; try discriminate; intros _ _.
  - apply String.compare_eq_iff in H12, H23. subst.
    rewrite string_compare_refl. reflexivity.
  - apply String.compare_eq_iff in H12. subst. rewrite H23. reflexivity.
  - apply String.compare_eq_iff in H23. subst. rewrite H12. reflexivity.
  - rewrite (string_compare_Lt_trans _ _ _ H12 H23). reflexivity.
Qed.

Lemma string_leb_cases k k' :
  k <> k' ->
  (String.leb k k' = true /\ String.leb k' k = false) \/
  (String.leb k k' = false /\ String.leb k' k = true).
Proof.
  intros Hne.
  destruct (String.leb k k') eqn:H1, (String.leb k' k) eqn:H2; auto.
  - exfalso. apply Hne. apply String.leb_antisym; assumption.
  - destruct (String.leb_total k k'); congruence.
Qed.

(** *** Sorting the entries by key does not depend on their order *)

Lemma insert_sorted_comm {V} k (v : V) k' v' l :
  k <> k' ->
  insert_sorted k v (insert_sorted k' v' l) = insert_sorted k' v' (insert_sorted k v l).
Proof.
  intros Hne. induction l as [|[c x] rest IH].
  - simpl. destruct (string_leb_cases k k' Hne) as [[-> ->]|[-> ->]]; reflexivity.
  - cbn [insert_sorted].
    destruct (String.leb k' c) eqn:Hk'c, (String.leb k c) eqn:Hkc;
      cbn [insert_sorted]; rewrite ?Hk'c, ?Hkc.
    + destruct (string_leb_cases k k' Hne) as [[-> ->]|[-> ->]]; reflexivity.
    + destruct (String.leb k k') eqn:Hkk'; [|reflexivity].
      rewrite (string_leb_trans _ _ _ Hkk' Hk'c) in Hkc. discriminate.
    + destruct (String.leb k' k) eqn:Hk'k; [|reflexivity].
      rewrite (string_leb_trans _ _ _ Hk'k Hkc) in Hk'c. discriminate.
    + rewrite IH. reflexivity.
Qed.

Lemma sort_keys_Permutation {V} (l l' : entries V) :
  l ≡ₚ l' -> NoDup (map fst l) -> sort_keys l = sort_keys l'.
Proof.
  induction 1 as [|[k v] l l' Hperm IH|[k v] [k' v'] l|l l' l'' H1 IH1 H2 IH2];
    intros Hnodup.
  - reflexivity.
  - simpl in *. rewrite IH; [reflexivity|]. apply NoDup_cons_1_2 in Hnodup. exact Hnodup.
  - simpl in *. apply insert_sorted_comm.
    apply NoDup_cons in Hnodup as [Hnotin _]. intros ->. apply Hnotin. left.
  - rewrite IH1 by exact Hnodup. apply IH2.
    rewrite <- (Permutation_map fst H1). exact Hnodup.
Qed.

Lemma all_some_entries_Permutation {A} (l l' : entries (option A)) :
  l ≡ₚ l' ->
  NoDup (map fst l) ->
  option_map sort_keys (all_some_entries l) = option_map sort_keys (all_some_entries l').
Proof.
  induction 1 as [|[k x] l l' Hperm IH|[k x] [k' x'] l|l l' l'' H1 IH1 H2 IH2];
    intros Hnodup.
  - reflexivity.
  - simpl in *. apply NoDup_cons in Hnodup as [_ Hnodup]. specialize (IH Hnodup).
    destruct x as [a|]; [|reflexivity].
    destruct (all_some_entries l), (all_some_entries l'); simpl in *;
      try discriminate; [|reflexivity].
    injection IH as IH. rewrite IH. reflexivity.
  - simpl in *.
    assert (Hne : k' <> k).
    { apply NoDup_cons in Hnodup as [Hnotin _]. intros ->. apply Hnotin. left. }
    destruct x as [a|], x' as [a'|], (all_some_entries l); simpl; try reflexivity.
    rewrite insert_sorted_comm by exact Hne. reflexivity.
  - rewrite IH1 by exact Hnodup. apply IH2.
    rewrite <- (Permutation_map fst H1). exact Hnodup.
Qed.

Lemma nodupb_NoDup l : nodupb l = true -> NoDup l.
Proof.
  induction l as [|k rest IH]; simpl; intros Hb; [constructor|].
  apply andb_true_iff in Hb as [Hnew Hrest]. constructor; [|auto].
  intros Hin. apply negb_true_iff in Hnew.
  assert (Hex : existsb (String.eqb k) rest = true).
  { apply existsb_exists. exists k. split; [|apply String.eqb_refl].
    apply list_elem_of_In. exact Hin. }
  congruence.
Qed.

Lemma keys_unique_VSlice l : keys_unique (VSlice l) = forallb keys_unique l.
Proof.
  induction l as [|x rest IH]; [reflexivity|].
  simpl in *. rewrite IH. reflexivity.
Qed.

Lemma keys_unique_VMap m :
  keys_unique (VMap m) =
  nodupb (map fst m) && forallb (fun e => keys_unique (snd e)) m.
Proof.
  simpl. f_equal.
  induction m as [|[k x] rest IH]; [reflexivity|].
  simpl. rewrite IH. reflexivity.
Qed.

Section MarshalFacts.

Context `{GoLib}.

Lemma encode_VSlice l :
  encode (VSlice l) =
  match all_some (map encode l) with
  | Some xs => Some ("[" +:+ join "," xs +:+ "]")
  | None => None
  end.
Proof.
  simpl.
  match goal with
  | |- match ?F l with _ => _ end = _ =>
      assert (HF : forall l', F l' = all_some (map encode l'))
  end.
  { intros l'. induction l' as [|x rest IH]; [reflexivity|].
    simpl. rewrite IH. reflexivity. }
  rewrite HF. reflexivity.
Qed.

Lemma encode_VMap m :
  encode (VMap m) =
  option_map render
    (option_map sort_keys
       (all_some_entries (map (fun e => (fst e, encode (snd e))) m))).
Proof.
  simpl.
  match goal with
  | |- match ?F m with _ => _ end = _ =>
      assert (HF : forall m',
                 F m' = all_some_entries (map (fun e => (fst e, encode (snd e))) m'))
  end.
  { intros m'. induction m' as [|[k x] rest IH]; [reflexivity|].
    simpl. rewrite IH. reflexivity. }
  rewrite HF. destruct (all_some_entries _); reflexivity.
Qed.

End MarshalFacts.

(** *** The digest: 32 bytes, 64 lowercase hex digits *)

Lemma add32_word32 x y : word32 (Sha256.add32 x y).
Proof. unfold word32, Sha256.add32. apply Z.mod_pos_bound. lia. Qed.

Lemma round_length st k w : length st = 8%nat -> length (Sha256.round st k w) = 8%nat.
Proof.
  intros Hlen. do 9 (destruct st as [|? st]; try discriminate Hlen). reflexivity.
Qed.

Lemma rounds_length ks : forall win st,
  length st = 8%nat -> length (Sha256.rounds ks win st) = 8%nat.
Proof.
  induction ks as [|k ks IH]; intros win st Hlen; simpl; [exact Hlen|].
  apply IH, round_length, Hlen.
Qed.

Lemma zip_with_add32 st st' :
  length st = 8%nat -> length st' = 8%nat -> digest_state (zip_with Sha256.add32 st st').
Proof.
  intros H1 H2.
  do 9 (destruct st as [|? st]; try discriminate H1).
  do 9 (destruct st' as [|? st']; try discriminate H2).
  split; [reflexivity|]. simpl. repeat constructor; apply add32_word32.
Qed.

Lemma H0_digest_state : digest_state Sha256.H0.
Proof. split; [reflexivity|]. unfold Sha256.H0, word32. repeat constructor; lia. Qed.

Lemma Sum256_words_state data : digest_state (Sha256.Sum256_words data).
Proof.
  unfold Sha256.Sum256_words.
  generalize (Sha256.blocks (Sha256.pad (Sha256.bytes_of data))).
  generalize H0_digest_state. generalize Sha256.H0.
  intros st Hst blocks. revert st Hst.
  induction blocks as [|block rest IH]; intros st Hst; simpl; [exact Hst|].
  apply IH. unfold Sha256.compress.
  apply zip_with_add32; [apply Hst | apply rounds_length, Hst].
Qed.

Lemma string_of_list_ascii_length l :
  String.length (string_of_list_ascii l) = length l.
Proof. induction l as [|c l IH]; simpl; [reflexivity | rewrite IH; reflexivity]. Qed.

Lemma Sum256_length data : String.length (Sha256.Sum256 data) = 32%nat.
Proof.
  unfold Sha256.Sum256.
  destruct (Sum256_words_state data) as [Hlen _].
  rewrite string_of_list_ascii_length, length_map.
  remember (Sha256.Sum256_words data) as ws eqn:Hws. clear Hws.
  do 9 (destruct ws as [|? ws]; try discriminate Hlen). reflexivity.
Qed.

Lemma EncodeToString_length src :
  String.length (EncodeToString src) = (2 * String.length src)%nat.
Proof.
  induction src as [|c rest IH]; [reflexivity|].
  simpl. rewrite IH. lia.
Qed.

Lemma hexdigit_of_byte c :
  In (hexdigit (Z.shiftr (byte_of c) 4)) hextable /\
  In (hexdigit (Z.land (byte_of c) 15)) hextable.
Proof.
  destruct c as [[] [] [] [] [] [] [] []]; vm_compute; tauto.
Qed.

Lemma EncodeToString_hex src :
  Forall (fun c => In c hextable) (list_ascii_of_string (EncodeToString src)).
Proof.
  induction src as [|c rest IH]; simpl; [constructor|].
  destruct (hexdigit_of_byte c) as [Hhi Hlo].
  constructor; [exact Hhi|]. constructor; [exact Hlo | exact IH].
Qed.

(** *** Finitely many digests *)

Lemma bounded_search (P : Z -> Prop) :
  (forall i, P i \/ ~ P i) ->
  forall n, (0 <= n)%Z ->
  (exists i, (0 <= i < n)%Z /\ P i) \/ (forall i, (0 <= i < n)%Z -> ~ P i).
Proof.
  intros Hdec. apply natlike_ind.
  - right. intros i Hi. lia.
  - intros n Hn [(i & Hi & HP)|Hnone].
    + left. exists i. split; [lia | exact HP].
    + destruct (Hdec n) as [HP|HnP].
      * left. exists n. split; [lia | exact HP].
      * right. intros i Hi. destruct (Z.eq_dec i n) as [->|Hne]; [exact HnP|].
        apply Hnone. lia.
Qed.

(** A function from [0 .. N] into [0 .. N-1] takes some value twice. *)
Lemma pigeonhole :
  forall N, (0 <= N)%Z ->
  forall f : Z -> Z,
    (forall n, (0 <= n <= N)%Z -> (0 <= f n < N)%Z) ->
    exists i j, (0 <= i < j)%Z /\ (j <= N)%Z /\ f i = f j.
Proof.
  apply (natlike_ind
           (fun N => forall f : Z -> Z,
                (forall n, (0 <= n <= N)%Z -> (0 <= f n < N)%Z) ->
                exists i j, (0 <= i < j)%Z /\ (j <= N)%Z /\ f i = f j)).
  - intros f Hf. specialize (Hf 0%Z). lia.
  - intros N HN IH f Hf.
    set (v := f (Z.succ N)).
    assert (Hdec : forall i, f i = v \/ f i <> v)
      by (intros i; destruct (Z.eq_dec (f i) v); auto).
    destruct (bounded_search (fun i => f i = v) Hdec (Z.succ N) ltac:(lia))
      as [(i & Hi & Hfi)|Hnone].
    + exists i, (Z.succ N). split; [lia|]. split; [lia | exact Hfi].
    + set (g := fun i => if (f i <? v)%Z then f i else (f i - 1)%Z).
      destruct (IH g) as (i & j & Hij & Hj & Hg).
      * intros n Hn. unfold g.
        pose proof (Hf n ltac:(lia)) as Hfn.
        pose proof (Hf (Z.succ N) ltac:(lia)) as Hv. fold v in Hv.
        pose proof (Hnone n ltac:(lia)) as Hne.
        destruct (Z.ltb_spec (f n) v); lia.
      * exists i, j. split; [exact Hij|]. split; [lia|].
        pose proof (Hnone i ltac:(lia)) as Hnei.
        pose proof (Hnone j ltac:(lia)) as Hnej.
        unfold g in Hg.
        destruct (Z.ltb_spec (f i) v), (Z.ltb_spec (f j) v); lia.
Qed.

Lemma words_to_Z_bound ws :
  Forall word32 ws -> (0 <= words_to_Z ws < 2 ^ (32 * Z.of_nat (length ws)))%Z.
Proof.
  induction 1 as [|w ws Hw _ IH]; simpl words_to_Z; [simpl; lia|].
  replace (32 * Z.of_nat (length (w :: ws)))%Z with (32 + 32 * Z.of_nat (length ws))%Z
    by (simpl length; lia).
  rewrite Z.pow_add_r by lia. unfold word32 in Hw. nia.
Qed.

Lemma words_to_Z_inj ws : forall ws',
  Forall word32 ws -> Forall word32 ws' -> length ws = length ws' ->
  words_to_Z ws = words_to_Z ws' -> ws = ws'.
Proof.
  induction ws as [|w ws IH]; intros [|w' ws'] Hws Hws' Hlen Heq;
    try discriminate Hlen; [reflexivity|].
  inversion Hws; subst. inversion Hws'; subst. simpl in Heq.
  unfold word32 in *.
  assert (Hw : w = w') by lia.
  subst w'. f_equal. apply IH; try assumption; [|lia].
  simpl in Hlen. lia.
Qed.

Lemma letters_length n : String.length (letters n) = n.
Proof. induction n as [|n IH]; simpl; [reflexivity | rewrite IH; reflexivity]. Qed.

(** *** Deep equality and the digest *)

Lemma float_alike_eq x y : float_alike x y = true -> x = y.
Proof.
  unfold float_alike, Float64.eqb, SFeqb. intros Hb.
  apply andb_true_iff in Hb as [Heq Hzero].
  destruct x as [s|s| |s m e], y as [s'|s'| |s' m' e'];
    try destruct s; try destruct s'; cbn in Heq, Hzero;
    try discriminate Heq; try discriminate Hzero; try reflexivity;
    destruct (Z.compare_spec e e') as [->| |]; try discriminate Heq;
    fold (Pos.compare m m') in Heq;
    destruct (Pos.compare_spec m m') as [->| |]; try discriminate Heq; reflexivity.
Qed.

Section RelatedValues.

Context `{GoLib}.

Variable R : spec_float -> spec_float -> Prop.

Lemma json_related_refl v : (forall f, R f f) -> json_related R v v.
Proof.
  intros Hrefl.
  induction v as [| | | | | |l IH|m IH] using value_ind; try constructor; auto.
  - induction IH; constructor; assumption.
  - apply jr_map with (m'' := m); [reflexivity|].
    induction IH; constructor; auto.
Qed.

Hypothesis R_eq : forall f g, R f g -> f = g.

Lemma encode_json_related v :
  keys_unique v = true -> forall w, json_related R v w -> encode v = encode w.
Proof.
  induction v as [| | | | | |l IH|m IH] using value_ind;
    intros Hkeys w Heq; inversion Heq; subst; try reflexivity.
  - match goal with Hfg : R _ _ |- _ => apply R_eq in Hfg; subst end. reflexivity.
  - rewrite !encode_VSlice.
    rewrite keys_unique_VSlice in Hkeys.
    assert (Hsame : map encode l = map encode l').
    { clear Heq.
      match goal with Hall : Forall2 (json_related R) l _ |- _ => rename Hall into Ha end.
      revert Hkeys IH. induction Ha as [|x y l l' Hxy Ha IHa]; [reflexivity|].
      intros Hkeys IH. simpl in *.
      apply andb_true_iff in Hkeys as [Hx Hrest].
      inversion IH; subst.
      f_equal; [auto | apply IHa; assumption]. }
    rewrite Hsame. reflexivity.
  - rewrite !encode_VMap. f_equal.
    rewrite keys_unique_VMap in Hkeys.
    apply andb_true_iff in Hkeys as [Hnodup Hkeys].
    apply nodupb_NoDup in Hnodup.
    match goal with
    | Hperm : _ ≡ₚ ?m2, Hall : Forall2 _ m ?m2 |- _ =>
        rename Hperm into Hp; rename Hall into Ha; rename m2 into m''
    end.
    assert (Hsame : map (fun e => (fst e, encode (snd e))) m =
                    map (fun e => (fst e, encode (snd e))) m'').
    { clear Hp Hnodup Heq. revert Hkeys IH. induction Ha as [|e e' m m'' [Hk He] Ha IHa].
      - reflexivity.
      - intros Hkeys IH. simpl in *.
        apply andb_true_iff in Hkeys as [Hx Hrest].
        inversion IH; subst.
        f_equal; [|apply IHa; assumption].
        f_equal; [exact Hk | auto]. }
    rewrite Hsame. symmetry. apply all_some_entries_Permutation.
    + apply Permutation_map. exact Hp.
    + rewrite (Permutation_map fst (Permutation_map _ Hp)).
      rewrite <- Hsame, map_map. simpl. exact Hnodup.
Qed.

Lemma HashParams_params_related p p' :
  params_keys_unique p = true -> params_related (json_related R) p p' ->
  HashParams p = HashParams p'.
Proof.
  intros Hkeys Heq. unfold HashParams, Marshal.
  destruct p as [m|], p' as [m'|]; simpl in Heq; try contradiction; [|reflexivity].
  rewrite (encode_json_related (VMap m) Hkeys (VMap m') Heq). reflexivity.
Qed.

End RelatedValues.

Lemma note_params_equal i j :
  (0 <= i)%Z -> (0 <= j)%Z -> params_equal (note_params i) (note_params j) -> i = j.
Proof.
  intros Hi Hj Heq. unfold params_equal, params_related, json_equal, note_params in Heq.
  inversion Heq as [| | | | | | |m m' m'' Hperm Hall]; subst.
  apply Permutation_length_1_inv in Hperm. subst m''.
  inversion Hall as [|e e' l l' [_ Hv] Hrest]; subst. simpl in Hv.
  inversion Hv; subst.
  assert (Hlen : Z.to_nat i = Z.to_nat j).
  { rewrite <- (letters_length (Z.to_nat i)), <- (letters_length (Z.to_nat j)).
    congruence. }
  lia.
Qed.

(** *** The executable test of deep equality *)

Lemma map_get_In {V} (m : entries V) k v : map_get m k = Some v -> In (k, v) m.
Proof.
  induction m as [|[k' v'] rest IH]; simpl; [discriminate|].
  destruct (String.eqb_spec k' k) as [->|_].
  - intros [= ->]. left. reflexivity.
  - intros Hget. right. apply IH, Hget.
Qed.

Section DeepEqualTest.

Variable feq : spec_float -> spec_float -> bool.

Lemma deep_equal_by_VSlice l l' :
  deep_equal_by feq (VSlice l) (VSlice l') = true ->
  Forall2 (fun x y => deep_equal_by feq x y = true) l l'.
Proof.
  revert l'. induction l as [|x rest IH]; intros [|y rest']; simpl;
    try discriminate; [constructor|].
  intros Hb. apply andb_true_iff in Hb as [Hxy Hrest].
  constructor; [exact Hxy | apply IH, Hrest].
Qed.

Lemma deep_equal_by_VMap m m' :
  deep_equal_by feq (VMap m) (VMap m') = true ->
  length m = length m' /\
  Forall (fun e => In (partner m' e) m' /\
                   deep_equal_by feq (snd e) (snd (partner m' e)) = true) m.
Proof.
  simpl. intros Hb. apply andb_true_iff in Hb as [Hlen Hall].
  apply Nat.eqb_eq in Hlen. split; [exact Hlen|].
  clear Hlen. induction m as [|[k x] rest IH]; [constructor|].
  apply andb_true_iff in Hall as [Hx Hrest].
  constructor; [|apply IH, Hrest].
  unfold partner. simpl.
  destruct (map_get m' k) as [y|] eqn:Hget; [|discriminate].
  split; [apply map_get_In, Hget | exact Hx].
Qed.

Lemma deep_equal_by_related v :
  keys_unique v = true ->
  forall w, deep_equal_by feq v w = true -> json_related (fun f g => feq f g = true) v w.
Proof.
  induction v as [| | | | | |l IH|m IH] using value_ind;
    intros Hkeys [| | | | | |l'|m'] Heq; try discriminate Heq.
  - constructor.
  - simpl in Heq. apply Bool.eqb_prop in Heq. subst. constructor.
  - simpl in Heq. apply Z.eqb_eq in Heq. subst. constructor.
  - simpl in Heq. apply Z.eqb_eq in Heq. subst. constructor.
  - simpl in Heq. constructor. exact Heq.
  - simpl in Heq. apply String.eqb_eq in Heq. subst. constructor.
  - constructor. apply deep_equal_by_VSlice in Heq.
    rewrite keys_unique_VSlice in Hkeys.
    revert Hkeys IH. induction Heq as [|x y l l' Hxy Hrest IHrest]; [constructor|].
    intros Hkeys IH. simpl in Hkeys.
    apply andb_true_iff in Hkeys as [Hx Hk]. inversion IH; subst.
    constructor; [auto | apply IHrest; assumption].
  - apply deep_equal_by_VMap in Heq as [Hlen Hall].
    rewrite keys_unique_VMap in Hkeys.
    apply andb_true_iff in Hkeys as [Hnodup Hkeys].
    apply nodupb_NoDup in Hnodup.
    apply jr_map with (m'' := map (partner m') m).
    + symmetry. apply NoDup_Permutation_bis.
      * apply (NoDup_map_inv fst). rewrite map_map. simpl.
        apply NoDup_ListNoDup. exact Hnodup.
      * rewrite length_map. lia.
      * intros e He. apply in_map_iff in He as (e0 & <- & He0).
        rewrite List.Forall_forall in Hall. apply (Hall e0 He0).
    + clear Hlen Hnodup. revert Hkeys IH.
      induction Hall as [|e rest [_ He] Hall IHall]; [constructor|].
      intros Hkeys IH. simpl in Hkeys.
      apply andb_true_iff in Hkeys as [Hx Hk]. inversion IH; subst.
      constructor; [|apply IHall; assumption].
      split; [reflexivity | auto].
Qed.

End DeepEqualTest.

(** Two of the maps [note_params 0], [note_params 1], ... have the same
    digest: there are more maps than digests. *)
Lemma HashParams_collision `{GoLib} :
  exists i j, (0 <= i < j)%Z /\ HashParams (note_params i) = HashParams (note_params j).
Proof.
  set (data := fun n => match Marshal (note_params n) with Some d => d | None => "" end).
  destruct (pigeonhole (2 ^ 256) ltac:(lia)
              (fun n => words_to_Z (Sha256.Sum256_words (data n))))
    as (i & j & Hij & _ & Heq).
  - intros n _. destruct (Sum256_words_state (data n)) as [Hlen Hws].
    pose proof (words_to_Z_bound _ Hws) as Hb. rewrite Hlen in Hb. exact Hb.
  - exists i, j. split; [exact Hij|].
    apply words_to_Z_inj in Heq.
    + unfold HashParams. fold (data i). fold (data j).
      unfold Sha256.Sum256. rewrite Heq. reflexivity.
    + apply Sum256_words_state.
    + apply Sum256_words_state.
    + destruct (Sum256_words_state (data i)) as [-> _].
      destruct (Sum256_words_state (data j)) as [-> _]. reflexivity.
Qed.

(** The digest is not injective on the maps that are told apart by deep
    equality: among the maps {note: a}, {note: aa}, {note: aaa}, ... two
    different ones have the same digest, because a digest is one of 2^256
    values. *)
Lemma HashParams_not_injective :
  exists p p',
    params_keys_unique p = true /\ params_keys_unique p' = true /\
    HashParams p = HashParams p' /\ ~ params_equal p p'.
Proof.
  destruct (@HashParams_collision reference_lib) as (i & j & Hij & Hc).
  exists (note_params i), (note_params j). repeat split; auto.
  intros Heq. apply note_params_equal in Heq; lia.
Qed.

(** C5, as the code has it. Parameter maps that are deep-equal as JSON
    values, every zero meeting the zero of its own sign, have the same
    digest; so have two maps that differ only in the order in which the
    entries are stored, at any level, and in particular a map and a
    permutation of its entries; and every digest is 64 characters long, each
    a lowercase hex digit. *)
Theorem HashParams_of_equal_params `{GoLib} :
  (forall p p',
      params_keys_unique p = true -> params_equal_signed p p' ->
      HashParams p = HashParams p')
  /\
  (forall p p',
      params_keys_unique p = true -> params_reordered p p' ->
      HashParams p = HashParams p')
  /\
  (forall m m',
      keys_unique (VMap m) = true -> m ≡ₚ m' ->
      HashParams (Some m) = HashParams (Some m'))
  /\
  (forall p,
      String.length (HashParams p) = 64%nat /\
      Forall (fun c => In c hextable) (list_ascii_of_string (HashParams p))).
Proof.
  split; [|split; [|split]].
  - intros p p'. apply HashParams_params_related. intros f g. apply float_alike_eq.
  - intros p p'. apply HashParams_params_related. auto.
  - intros m m' Hkeys Hperm.
    apply (HashParams_params_related eq); [auto | exact Hkeys|].
    simpl. apply jr_map with (m'' := m); [symmetry; exact Hperm|].
    clear. induction m as [|e m IH]; constructor; [|exact IH].
    split; [reflexivity | apply json_related_refl; reflexivity].
  - intros p. unfold HashParams. split.
    + rewrite EncodeToString_length, Sum256_length. reflexivity.
    + apply EncodeToString_hex.
Qed.

(** C5, witness: a payment whose entries are stored in two different
    orders, at both levels, has one digest, of 64 characters. *)
Lemma HashParams_of_equal_params_witness :
  HashParams
    (Some [("amount", VFloat64 (Float64.of_int 1000));
           ("meta", VMap [("vendor", VString "V42"); ("tags", VSlice [VString "a"])])]) =
  HashParams
    (Some [("meta", VMap [("tags", VSlice [VString "a"]); ("vendor", VString "V42")]);
           ("amount", VFloat64 (Float64.of_int 1000))]) /\
  HashParams
    (Some [("meta", VMap [("tags", VSlice [VString "a"]); ("vendor", VString "V42")]);
           ("amount", VFloat64 (Float64.of_int 1000))]) =
  "935970b94bdea8c70317f4ccb9421e6039527208b3543a37995ea0e57ccece7c".
Proof.
  split.
  - apply (proj1 (@HashParams_of_equal_params reference_lib)).
    + reflexivity.
    + apply (deep_equal_by_related float_alike
               (VMap [("amount", VFloat64 (Float64.of_int 1000));
                      ("meta", VMap [("vendor", VString "V42");
                                     ("tags", VSlice [VString "a"])])])).
      * reflexivity.
      * vm_compute. reflexivity.
  - vm_compute. reflexivity.
Defined.

(** C5, counterexample. Neither half of the equivalence holds. The bodies
    {x: 0} and {x: -0} decode to maps that are deep-equal, the two zeros
    being equal numbers, and are encoded as 0 and -0, so the digests differ.
    The maps {x: 5} with the Go int 5 and with the float64 5 are not
    deep-equal and are both encoded as 5, so the digests agree. *)
Lemma HashParams_not_iff_deep_equal :
  (Unmarshal ("{" +:+ quoted "x" +:+ ":0}") = Ok (Some [("x", VFloat64 (S754_zero false))]) /\
   Unmarshal ("{" +:+ quoted "x" +:+ ":-0}") = Ok (Some [("x", VFloat64 (S754_zero true))]) /\
   params_equal (Some [("x", VFloat64 (S754_zero false))])
                (Some [("x", VFloat64 (S754_zero true))]) /\
   HashParams (Some [("x", VFloat64 (S754_zero false))]) =
     "5bff452c5ed93f2e87a23984db5a15050c6477335fdec955b70063bb2d692bf1" /\
   HashParams (Some [("x", VFloat64 (S754_zero true))]) =
     "ea1ee51d0264a2f47ec96a676c4fe606fbb18b1cc55fb8be80a9a568fd8c02c3")
  /\
  (~ params_equal (Some [("x", VInt 5)]) (Some [("x", VFloat64 (Float64.of_int 5))]) /\
   HashParams (Some [("x", VInt 5)]) =
     "dd9446a11b2021b753a5df48d11f339055375b59cd81d7559d36b652aaff849d" /\
   HashParams (Some [("x", VFloat64 (Float64.of_int 5))]) =
     "dd9446a11b2021b753a5df48d11f339055375b59cd81d7559d36b652aaff849d")
  /\
  ~ (forall (lib : GoLib) (p p' : Params),
        params_keys_unique p = true -> params_keys_unique p' = true ->
        params_equal p p' -> @HashParams lib p = @HashParams lib p')
  /\
  ~ (forall (lib : GoLib) (p p' : Params),
        params_keys_unique p = true -> params_keys_unique p' = true ->
        @HashParams lib p = @HashParams lib p' -> params_equal p p').
Proof.
  assert (Hzeros : params_equal (Some [("x", VFloat64 (S754_zero false))])
                                (Some [("x", VFloat64 (S754_zero true))])).
  { apply (deep_equal_by_related Float64.eqb (VMap [("x", VFloat64 (S754_zero false))]));
      reflexivity. }
  assert (Hfive : ~ params_equal (Some [("x", VInt 5)])
                                 (Some [("x", VFloat64 (Float64.of_int 5))])).
  { intros Heq. unfold params_equal, params_related, json_equal in Heq.
    inversion Heq as [| | | | | | |m m' m'' Hperm Hall]; subst.
    apply Permutation_length_1_inv in Hperm. subst m''.
    inversion Hall as [|e e' l l' [_ Hv] Hrest]; subst. simpl in Hv.
    inversion Hv. }
  split; [|split; [|split]].
  - split; [vm_compute; reflexivity|]. split; [vm_compute; reflexivity|].
    split; [exact Hzeros|]. split; vm_compute; reflexivity.
  - split; [exact Hfive|]. split; vm_compute; reflexivity.
  - intros Hall.
    pose proof (Hall reference_lib (Some [("x", VFloat64 (S754_zero false))])
                  (Some [("x", VFloat64 (S754_zero true))]) eq_refl eq_refl Hzeros) as Hsame.
    vm_compute in Hsame. discriminate Hsame.
  - intros Hall. apply Hfive.
    apply (Hall reference_lib); vm_compute; reflexivity.
Qed.

(** ** The end-to-end scenarios of the specification *)

Example scenario_1_blocked_payment :
  fst (handleToolRequest example_gateway example_env
         (example_request "finance-agent" (Ok (payment_body "50000" "USD")))) =
  {| StatusCode := 403;
     Header := {[ "Content-Type" := "application/json" ]};
     Body := "{" +:+ quoted "error" +:+ ":" +:+ quoted "PolicyViolation" +:+ "," +:+
             quoted "reason" +:+ ":" +:+
             quoted "Amount 50000.00 exceeds max_amount=5000.00" +:+ "}" +:+ newline |}.
Proof. vm_compute. reflexivity. Qed.

Example scenario_2_allowed_payment :
  let out :=
    handleToolRequest example_gateway example_env
      (example_request "finance-agent" (Ok (payment_body "1000" "USD"))) in
  StatusCode (fst out) = 200%Z /\
  http_posts (snd out) = [("http://localhost:8081/create", payment_body "1000" "USD")] /\
  map AuditLog.Decision (audit_records (snd out)) = [true] /\
  map AuditLog.Version (audit_records (snd out)) = [1%Z].
Proof. vm_compute. repeat split; reflexivity. Qed.

Example scenario_4_blocked_read :
  Evaluate storage_order "hr-agent" "files" "read"
    (Some [("path", VString "/legal/contract.docx")]) example_manager =
  Decision.mk false
    "Path /legal/contract.docx does not match required prefix /hr-docs/" 1.
Proof. vm_compute. reflexivity. Qed.

Example scenario_5_missing_header :
  handleToolRequest example_gateway example_env
    (example_request "" (Ok (payment_body "1000" "USD"))) =
  ({| StatusCode := 400;
      Header := {[ "Content-Type" := "application/json" ]};
      Body := "{" +:+ quoted "error" +:+ ":" +:+ quoted "MissingHeader" +:+ "," +:+
              quoted "reason" +:+ ":" +:+ quoted "X-Agent-ID header is required" +:+
              "}" +:+ newline |},
   [SpanStart "gateway.handleToolRequest"; SpanEnd "gateway.handleToolRequest"]).
Proof. vm_compute. reflexivity. Qed.

Example folder_prefix_is_byte_prefix :
  check_conditions [("folder_prefix", VString "/hr-docs/")]
    (Some [("path", VString "/hr-docs-x/a.pdf")]) <> "" /\
  check_conditions [("folder_prefix", VString "/hr-docs/")]
    (Some [("path", VString "/hr-docs")]) <> "" /\
  check_conditions [("folder_prefix", VString "/hr-docs/")]
    (Some [("path", VString "/hr-docs/a.pdf")]) = "".
Proof. vm_compute. repeat split; discriminate. Qed.

Example HashParams_test_vector :
  HashParams None = "74234e98afe7498fb5daf1f36ac2d78acc339464f950703b8c019892f982b90b" /\
  HashParams (Some []) = "44136fa355b3678a1146ad16f7e8649e94fb4fc21fe77e8310c060f61caaff8a".
Proof. vm_compute. split; reflexivity. Qed.

Example deep_equal_ignores_entry_order :
  deep_equal
    (VMap [("amount", VFloat64 (Float64.of_int 1000));
           ("meta", VMap [("a", VNil); ("b", VSlice [VBool true])])])
    (VMap [("meta", VMap [("b", VSlice [VBool true]); ("a", VNil)]);
           ("amount", VFloat64 (Float64.of_int 1000))]) = true /\
  deep_equal (VMap [("amount", VFloat64 (Float64.of_int 1000))])
    (VMap [("amount", VFloat64 (Float64.of_int 2000))]) = false.
Proof. vm_compute. split; reflexivity. Qed.

(** The other source of dependence on the iteration order: two conditions
    of one permission that both reject the request. *)
Example check_conditions_order_matters :
  check_conditions
    [("max_amount", VInt 5000); ("currencies", VSlice [VString "USD"])]
    (payment_params 7500 "GBP") = "Amount 7500.00 exceeds max_amount=5000.00" /\
  check_conditions
    [("currencies", VSlice [VString "USD"]); ("max_amount", VInt 5000)]
    (payment_params 7500 "GBP") = "Currency GBP not in allowed list".
Proof. vm_compute. split; reflexivity. Qed.

(** The three maps of the repository's TestHashParams: equal maps have equal
    digests, the amounts 1000 and 2000 have different ones. *)
Example HashParams_repository_test :
  HashParams (payment_params 1000 "USD") = HashParams (payment_params 1000 "USD") /\
  HashParams (payment_params 1000 "USD") <> HashParams (payment_params 2000 "USD") /\
  String.length (HashParams (payment_params 1000 "USD")) = 64%nat.
Proof. vm_compute. repeat split. discriminate. Qed.

(** * Further properties of the code *)

(** ** Loading the policy directory *)

Lemma map_get_map_set {V} (m : entries V) k v :
  map_get (map_set m k v) k = Some v.
Proof.
  induction m as [|[k' v'] rest IH]; simpl.
  - rewrite String.eqb_refl. reflexivity.
  - destruct (String.eqb_spec k' k) as [->|Hne]; simpl.
    + rewrite String.eqb_refl. reflexivity.
    + destruct (String.eqb_spec k' k); [contradiction | exact IH].
Qed.

Lemma map_get_map_set_other {V} (m : entries V) k v k' :
  k <> k' -> map_get (map_set m k v) k' = map_get m k'.
Proof.
  intros Hne. induction m as [|[k0 v0] rest IH]; simpl.
  - destruct (String.eqb_spec k k'); [contradiction | reflexivity].
  - destruct (String.eqb_spec k0 k) as [->|Hk0]; simpl.
    + destruct (String.eqb_spec k k'); [contradiction | reflexivity].
    + destruct (String.eqb_spec k0 k'); [reflexivity | exact IH].
Qed.

Lemma In_map_set {V} (m : entries V) k v e :
  In e (map_set m k v) -> e = (k, v) \/ In e m.
Proof.
  induction m as [|[k0 v0] rest IH]; simpl.
  - intros [<-|[]]. auto.
  - destruct (String.eqb_spec k0 k) as [->|Hk0]; simpl.
    + intros [<-|Hin]; auto.
    + intros [<-|Hin]; auto. destruct (IH Hin); auto.
Qed.

Lemma check_policy_valid_None p :
  check_policy_valid p = None ->
  (1 <= Version p)%Z /\ Agents p <> [] /\
  (forall agent, In agent (Agents p) -> ID agent <> "").
Proof.
  unfold check_policy_valid.
  destruct (Z.ltb_spec (Version p) 1); [discriminate|].
  destruct (Agents p) as [|a0 rest] eqn:Hagents; [discriminate|].
  cbn [length Z.of_nat Z.eqb].
  destruct (existsb _ _) eqn:Hex; [discriminate|]. intros _.
  split; [lia|]. split; [discriminate|].
  intros agent Hin Hempty.
  assert (Hsome : existsb (fun agent0 => ID agent0 =? "") (a0 :: rest) = true).
  { apply List.existsb_exists. exists agent. split; [exact Hin|].
    rewrite Hempty. reflexivity. }
  congruence.
Qed.

Section Loading.

Variable yaml_Unmarshal : string -> option Policy.
Variable fs : FileSystem.
Variable d : string.

(** What the loop stores for one directory entry. *)
Lemma load_entries_cons entry rest acc :
  load_entries yaml_Unmarshal fs d (entry :: rest) acc =
  load_entries yaml_Unmarshal fs d rest acc \/
  exists pol,
    loadable yaml_Unmarshal fs d entry pol /\
    load_entries yaml_Unmarshal fs d (entry :: rest) acc =
    load_entries yaml_Unmarshal fs d rest (map_set acc (Name entry) pol).
Proof.
  unfold loadable. cbn [load_entries].
  destruct (IsDir entry); [left; reflexivity|].
  destruct (HasSuffix (Name entry) ".yaml"); [|left; reflexivity].
  cbn [orb negb].
  destruct (ReadFile fs d (Name entry)) as [fileData|]; [|left; reflexivity].
  destruct (yaml_Unmarshal fileData) as [pol|] eqn:Hyaml; [|left; reflexivity].
  destruct (check_policy_valid pol) eqn:Hvalid; [left; reflexivity|].
  right. exists pol. repeat split; eauto.
Qed.

Lemma load_entries_loadable entry pol rest acc :
  loadable yaml_Unmarshal fs d entry pol ->
  load_entries yaml_Unmarshal fs d (entry :: rest) acc =
  load_entries yaml_Unmarshal fs d rest (map_set acc (Name entry) pol).
Proof.
  intros (Hdir & Hsuffix & fileData & Hread & Hyaml & Hvalid).
  cbn [load_entries]. rewrite Hdir, Hsuffix, Hread, Hyaml, Hvalid. reflexivity.
Qed.

Lemma load_entries_valid es acc :
  (forall e, In e acc -> check_policy_valid (snd e) = None) ->
  forall e, In e (load_entries yaml_Unmarshal fs d es acc) ->
            check_policy_valid (snd e) = None.
Proof.
  revert acc. induction es as [|entry rest IH]; intros acc Hacc; [exact Hacc|].
  destruct (load_entries_cons entry rest acc) as [->|(pol & Hload & ->)].
  - apply IH, Hacc.
  - apply IH. intros e Hin. apply In_map_set in Hin as [->|Hin]; [|auto].
    destruct Hload as (_ & _ & _ & _ & _ & Hvalid). exact Hvalid.
Qed.

Lemma load_entries_other es acc name :
  ~ In name (map Name es) ->
  map_get (load_entries yaml_Unmarshal fs d es acc) name = map_get acc name.
Proof.
  revert acc. induction es as [|entry rest IH]; intros acc Hnot; [reflexivity|].
  cbn [map In] in Hnot.
  destruct (load_entries_cons entry rest acc) as [->|(pol & _ & ->)].
  - apply IH. tauto.
  - rewrite IH by tauto. apply map_get_map_set_other. tauto.
Qed.

Lemma load_entries_stores es acc entry pol :
  List.NoDup (map Name es) ->
  In entry es ->
  loadable yaml_Unmarshal fs d entry pol ->
  map_get (load_entries yaml_Unmarshal fs d es acc) (Name entry) = Some pol.
Proof.
  revert acc. induction es as [|e rest IH]; intros acc Hnodup Hin Hload; [destruct Hin|].
  cbn [map] in Hnodup. inversion Hnodup as [|? ? Hfresh Hrest]; subst.
  destruct Hin as [->|Hin].
  - rewrite (load_entries_loadable entry pol) by exact Hload.
    rewrite load_entries_other by exact Hfresh. apply map_get_map_set.
  - destruct (load_entries_cons e rest acc) as [->|(pol' & _ & ->)]; apply IH; auto.
Qed.

Lemma load_entries_origin es acc name pol :
  map_get (load_entries yaml_Unmarshal fs d es acc) name = Some pol ->
  (exists entry, In entry es /\ Name entry = name /\
                 loadable yaml_Unmarshal fs d entry pol) \/
  map_get acc name = Some pol.
Proof.
  revert acc. induction es as [|e rest IH]; intros acc Hget; [right; exact Hget|].
  destruct (load_entries_cons e rest acc) as [Heq|(pol' & Hload & Heq)];
    rewrite Heq in Hget; apply IH in Hget as [(entry & Hin & Hname & Hl)|Hacc].
  - left. exists entry. simpl. auto.
  - right. exact Hacc.
  - left. exists entry. simpl. auto.
  - destruct (String.eqb_spec (Name e) name) as [Hname|Hname].
    + rewrite Hname, map_get_map_set in Hacc. injection Hacc as <-.
      left. exists e. simpl. auto.
    + rewrite map_get_map_set_other in Hacc by exact Hname. right. exact Hacc.
Qed.

End Loading.

(** X1. Whatever the directory holds, every policy a successful
    [load_policies] leaves in the manager has passed validation: its version
    is at least 1, it lists an agent, and none of its agents has an empty
    id. *)
Theorem loaded_policies_are_valid
    (yaml_Unmarshal : string -> option Policy) (fs : FileSystem) (m m' : Manager) :
  Reload yaml_Unmarshal fs m = (m', None) ->
  forall name pol,
    In (name, pol) (policies m') ->
    (1 <= Version pol)%Z /\ Agents pol <> [] /\
    (forall agent, In agent (Agents pol) -> ID agent <> "").
Proof.
  unfold Reload, load_policies. intros Hload name pol Hin.
  destruct (ReadDir fs (dir m)) as [es|err]; [|discriminate].
  injection Hload as <-. cbn [policies] in Hin.
  apply check_policy_valid_None.
  apply (load_entries_valid yaml_Unmarshal fs (dir m) es [] (fun e H => match H with end)
           (name, pol) Hin).
Qed.

Lemma loaded_policies_are_valid_witness :
  Reload example_yaml example_fs example_manager = (example_manager, None) /\
  (1 <= Version example_policy)%Z /\ Agents example_policy <> [] /\
  (forall agent, In agent (Agents example_policy) -> ID agent <> "").
Proof.
  split; [reflexivity|].
  apply (loaded_policies_are_valid example_yaml example_fs example_manager example_manager
           eq_refl "example.yaml" example_policy).
  simpl. left. reflexivity.
Defined.

(** X2. After a successful load of a directory listing with distinct names,
    the manager binds a file name to a policy exactly when the listing has a
    regular entry of that name ending in .yaml whose content was read,
    parsed to that policy and validated; nothing of the previous map
    survives. *)
Theorem load_policies_lookup
    (yaml_Unmarshal : string -> option Policy) (fs : FileSystem) (m : Manager)
    (es : list DirEntry) (name : string) (pol : Policy) :
  ReadDir fs (dir m) = Ok es ->
  List.NoDup (map Name es) ->
  map_get (policies (fst (load_policies yaml_Unmarshal fs m))) name = Some pol <->
  exists entry,
    In entry es /\ Name entry = name /\ loadable yaml_Unmarshal fs (dir m) entry pol.
Proof.
  intros Hdir Hnodup. unfold load_policies. rewrite Hdir. cbn [fst policies]. split.
  - intros Hget. apply load_entries_origin in Hget as [Hex|Hnil]; [exact Hex|].
    discriminate.
  - intros (entry & Hin & <- & Hload). apply load_entries_stores; assumption.
Qed.

Lemma load_policies_lookup_witness :
  map_get (policies (fst (load_policies example_yaml example_fs
                            {| policies := [("stale.yaml", limit_policy 1 5)];
                               dir := "./policies" |})))
    "example.yaml" = Some example_policy <->
  exists entry,
    In entry [ {| Name := "example.yaml"; IsDir := false |} ] /\
    Name entry = "example.yaml" /\
    loadable example_yaml example_fs "./policies" entry example_policy.
Proof.
  apply (load_policies_lookup example_yaml example_fs
           {| policies := [("stale.yaml", limit_policy 1 5)]; dir := "./policies" |}).
  - reflexivity.
  - simpl. constructor; [simpl; tauto | constructor].
Defined.

(** ** The watcher loop over a run of messages *)

Section Watcher.

Variable yaml_Unmarshal : string -> option Policy.

Lemma Reload_dir fs m : dir (fst (Reload yaml_Unmarshal fs m)) = dir m.
Proof.
  unfold Reload, load_policies. destruct (ReadDir fs (dir m)); reflexivity.
Qed.

Lemma watch_step_dir fs m msg m' effs :
  watch_step yaml_Unmarshal fs m msg = Some (m', effs) -> dir m' = dir m.
Proof.
  unfold watch_step. destruct msg as [event| |err|]; try discriminate.
  - destruct (write_or_create event).
    + pose proof (Reload_dir fs m) as Hdir.
      destruct (Reload yaml_Unmarshal fs m) as [m1 err]. intros [= <- _]. exact Hdir.
    + intros [= <- _]. reflexivity.
  - intros [= <- _]. reflexivity.
Qed.

Lemma watch_step_closes fs m msg :
  watch_step yaml_Unmarshal fs m msg = None <-> closes msg = true.
Proof.
  unfold watch_step. destruct msg as [event| |err|]; simpl.
  - destruct (write_or_create event); [destruct (Reload _ _ _)|]; split; discriminate.
  - tauto.
  - split; discriminate.
  - tauto.
Qed.

Lemma watchPolicies_dir m msgs :
  dir (fst (watchPolicies yaml_Unmarshal m msgs)) = dir m.
Proof.
  revert m. induction msgs as [|[fs msg] rest IH]; intros m; [reflexivity|].
  cbn [watchPolicies].
  destruct (watch_step yaml_Unmarshal fs m msg) as [[m' effs]|] eqn:Hstep; [|reflexivity].
  specialize (IH m'). destruct (watchPolicies yaml_Unmarshal m' rest) as [m'' effs'].
  cbn [fst] in *. rewrite IH. eapply watch_step_dir, Hstep.
Qed.

Lemma watchPolicies_app m before after :
  (forall fs msg, In (fs, msg) before -> closes msg = false) ->
  fst (watchPolicies yaml_Unmarshal m (before ++ after)) =
  fst (watchPolicies yaml_Unmarshal (fst (watchPolicies yaml_Unmarshal m before)) after).
Proof.
  revert m. induction before as [|[fs msg] rest IH]; intros m Hopen; [reflexivity|].
  cbn [app watchPolicies].
  destruct (watch_step yaml_Unmarshal fs m msg) as [[m' effs]|] eqn:Hstep.
  - assert (Hrest : forall fs0 msg0, In (fs0, msg0) rest -> closes msg0 = false).
    { intros fs0 msg0 Hin. apply (Hopen fs0 msg0). right. exact Hin. }
    specialize (IH m' Hrest).
    destruct (watchPolicies yaml_Unmarshal m' (rest ++ after)) as [m1 e1].
    destruct (watchPolicies yaml_Unmarshal m' rest) as [m2 e2].
    exact IH.
  - apply watch_step_closes in Hstep.
    rewrite (Hopen fs msg) in Hstep by (left; reflexivity). discriminate.
Qed.

End Watcher.

(** X3. While the policy directory cannot be read, the watcher changes
    nothing: after any run of events and watcher errors during which every
    read of the directory fails, the manager holds the policies it held
    before. *)
Theorem unreadable_directory_keeps_policies
    (yaml_Unmarshal : string -> option Policy) (m : Manager)
    (msgs : list (FileSystem * received)) :
  (forall fs msg, In (fs, msg) msgs -> exists err, ReadDir fs (dir m) = Err err) ->
  fst (watchPolicies yaml_Unmarshal m msgs) = m.
Proof.
  induction msgs as [|[fs msg] rest IH]; intros Hfail; [reflexivity|].
  assert (Hstep : watch_step yaml_Unmarshal fs m msg = None \/
                  exists effs, watch_step yaml_Unmarshal fs m msg = Some (m, effs)).
  { destruct (Hfail fs msg (or_introl eq_refl)) as [err Herr].
    unfold watch_step, Reload, load_policies. rewrite Herr.
    destruct msg as [event| |err'|]; eauto.
    destruct (write_or_create event); eauto. }
  cbn [watchPolicies]. destruct Hstep as [->|[effs ->]]; [reflexivity|].
  assert (Hrest : fst (watchPolicies yaml_Unmarshal m rest) = m).
  { apply IH. intros fs0 msg0 Hin. apply (Hfail fs0 msg0). right. exact Hin. }
  destruct (watchPolicies yaml_Unmarshal m rest) as [m' effs']. exact Hrest.
Qed.

Lemma unreadable_directory_keeps_policies_witness :
  fst (watchPolicies example_yaml example_manager
         [(missing_fs, FromEvents {| EventName := "policies/example.yaml";
                                     EventOp := Op.Write |});
          (missing_fs, FromErrors "too many events");
          (missing_fs, FromEvents {| EventName := "policies/new.yaml";
                                     EventOp := Op.Create |})]) = example_manager.
Proof.
  apply (unreadable_directory_keeps_policies example_yaml example_manager).
  intros fs msg Hin. simpl in Hin.
  destruct Hin as [[= <- _]|[[= <- _]|[[= <- _]|[]]]];
    exists "open ./policies: no such file or directory"; reflexivity.
Defined.

(** X4. The last reload wins. When the loop handles a write or create event
    at a moment the directory can be read, the manager it leaves is the one
    [NewManager] builds from the directory at that moment, whatever
    policies were loaded and whatever messages were handled before. *)
Theorem last_reload_wins
    (yaml_Unmarshal : string -> option Policy) (m : Manager)
    (msgs : list (FileSystem * received)) (fs : FileSystem) (event : Event)
    (es : list DirEntry) :
  (forall fs' msg, In (fs', msg) msgs -> closes msg = false) ->
  write_or_create event = true ->
  ReadDir fs (dir m) = Ok es ->
  NewManager yaml_Unmarshal fs (dir m) =
  Ok (fst (watchPolicies yaml_Unmarshal m (msgs ++ [(fs, FromEvents event)]))).
Proof.
  intros Hopen Hevent Hdir.
  rewrite watchPolicies_app by exact Hopen.
  pose proof (watchPolicies_dir yaml_Unmarshal m msgs) as Hsame.
  destruct (watchPolicies yaml_Unmarshal m msgs) as [m1 effs]. cbn [fst] in *.
  unfold NewManager, watchPolicies, watch_step, Reload, load_policies.
  rewrite Hevent. cbn [dir]. rewrite Hsame, Hdir. reflexivity.
Qed.

Lemma last_reload_wins_witness :
  NewManager example_yaml example_fs "./policies" =
  Ok (fst (watchPolicies example_yaml overlapping_manager
             ([(missing_fs, FromEvents {| EventName := "policies/a.yaml";
                                          EventOp := Op.Write |});
               (example_fs, FromErrors "too many events")] ++
              [(example_fs, FromEvents {| EventName := "policies/example.yaml";
                                          EventOp := Op.Create |})]))).
Proof.
  apply (last_reload_wins example_yaml overlapping_manager
           [(missing_fs, FromEvents {| EventName := "policies/a.yaml";
                                       EventOp := Op.Write |});
            (example_fs, FromErrors "too many events")]
           example_fs
           {| EventName := "policies/example.yaml"; EventOp := Op.Create |}
           [ {| Name := "example.yaml"; IsDir := false |} ]).
  - intros fs' msg Hin. simpl in Hin.
    destruct Hin as [[= _ <-]|[[= _ <-]|[]]]; reflexivity.
  - reflexivity.
  - reflexivity.
Defined.

(** X5. The loop returns at the first closed channel: the messages that
    follow are never handled, so the manager and everything printed or
    reloaded are those of the messages before it. *)
Theorem watcher_stops_at_close
    (yaml_Unmarshal : string -> option Policy) (m : Manager)
    (before after : list (FileSystem * received)) (fs : FileSystem) (msg : received) :
  closes msg = true ->
  watchPolicies yaml_Unmarshal m (before ++ (fs, msg) :: after) =
  watchPolicies yaml_Unmarshal m before.
Proof.
  intros Hclose. revert m. induction before as [|[fs0 msg0] rest IH]; intros m.
  - cbn [app watchPolicies].
    rewrite (proj2 (watch_step_closes yaml_Unmarshal fs m msg) Hclose). reflexivity.
  - cbn [app watchPolicies].
    destruct (watch_step yaml_Unmarshal fs0 m msg0) as [[m' effs]|]; [|reflexivity].
    rewrite IH. reflexivity.
Qed.

Lemma watcher_stops_at_close_witness :
  watchPolicies example_yaml overlapping_manager
    ([(missing_fs, FromErrors "too many events")] ++
     (example_fs, EventsClosed) ::
     [(example_fs, FromEvents {| EventName := "policies/example.yaml";
                                 EventOp := Op.Write |})]) =
  watchPolicies example_yaml overlapping_manager
    [(missing_fs, FromErrors "too many events")].
Proof.
  apply (watcher_stops_at_close example_yaml overlapping_manager
           [(missing_fs, FromErrors "too many events")]
           [(example_fs, FromEvents {| EventName := "policies/example.yaml";
                                       EventOp := Op.Write |})]
           example_fs EventsClosed).
  reflexivity.
Defined.

(** ** What a decision rests on *)

(** X6. [Evaluate] never allows without a permission to show for it: an
    allowing decision comes from a permission of a loaded file, listed under
    an agent entry with the caller's id, for the tool, with the action among
    its actions, and whose conditions all passed; the decision carries that
    file's version and the fixed reason. *)
Theorem Evaluate_allow_has_permission
    (ro : range_order) (agentID tool action : string) (params : Params) (m : Manager) :
  range_ok ro ->
  Decision.Allow (Evaluate ro agentID tool action params m) = true ->
  exists name policy agent perm,
    In (name, policy) (policies m) /\
    In agent (Agents policy) /\
    In perm (Allow agent) /\
    ID agent = agentID /\
    Tool perm = tool /\
    In action (Actions perm) /\
    check_conditions (order_conditions ro (Conditions perm)) params = "" /\
    Evaluate ro agentID tool action params m =
    Decision.mk true "Policy allows this action" (Version policy).
Proof.
  intros [Hfiles _] Hallow.
  destruct (Evaluate_cases ro agentID tool action params m)
    as [Hnone|(name & policy & agent & perm & Hfile & Hagent & Hperm & Hid & Hm & Hd)].
  - rewrite Hnone in Hallow. discriminate.
  - exists name, policy, agent, perm.
    apply (Permutation_in _ (Hfiles (policies m))) in Hfile.
    apply andb_true_iff in Hm as [Htool Haction].
    apply String.eqb_eq in Htool. apply actionAllowed_In in Haction.
    rewrite Hd in Hallow |- *. unfold decided in *. cbv zeta in *.
    destruct (String.eqb_spec
                (check_conditions (order_conditions ro (Conditions perm)) params) "")
      as [Hpass|_]; cbn [negb] in *; [|discriminate].
    auto 9.
Qed.

Lemma Evaluate_allow_has_permission_witness :
  exists name policy agent perm,
    In (name, policy) (policies example_manager) /\
    In agent (Agents policy) /\
    In perm (Allow agent) /\
    ID agent = "finance-agent" /\
    Tool perm = "payments" /\
    In "create" (Actions perm) /\
    check_conditions (order_conditions storage_order (Conditions perm))
      (payment_params 1000 "USD") = "" /\
    Evaluate storage_order "finance-agent" "payments" "create"
      (payment_params 1000 "USD") example_manager =
    Decision.mk true "Policy allows this action" (Version policy).
Proof.
  apply (Evaluate_allow_has_permission storage_order "finance-agent" "payments" "create"
           (payment_params 1000 "USD") example_manager).
  - exact storage_order_ok.
  - vm_compute. reflexivity.
Defined.

(** X7. The version of a decision tells a matched policy from the default:
    over a manager built by [NewManager], a decision is either the
    "No policy found" denial, whose version is 0, or it comes from a
    permission for the tool and the action, listed under an agent entry with
    the caller's id in a loaded file, and carries the version of that very
    file, which is at least 1. *)
Theorem decision_version_of_loaded_manager
    (yaml_Unmarshal : string -> option Policy) (fs : FileSystem) (d : string)
    (m : Manager) (ro : range_order) (agentID tool action : string) (params : Params) :
  NewManager yaml_Unmarshal fs d = Ok m ->
  range_ok ro ->
  Evaluate ro agentID tool action params m =
    Decision.mk false
      ("No policy found for agent=" +:+ agentID +:+ ", tool=" +:+ tool +:+
       ", action=" +:+ action) 0 \/
  exists name policy agent perm,
    In (name, policy) (policies m) /\
    In agent (Agents policy) /\
    ID agent = agentID /\
    In perm (Allow agent) /\
    permission_matches tool action perm = true /\
    Evaluate ro agentID tool action params m = decided ro params (Version policy) perm /\
    Decision.Version (Evaluate ro agentID tool action params m) = Version policy /\
    (1 <= Version policy)%Z.
Proof.
  unfold NewManager, load_policies. cbn [dir].
  destruct (ReadDir fs d) as [es|err]; [|discriminate].
  intros [= <-] [Hfiles _].
  destruct (Evaluate_cases ro agentID tool action params
              {| policies := load_entries yaml_Unmarshal fs d es []; dir := d |})
    as [Hnone|(name & policy & agent & perm & Hfile & Hagent & Hperm & Hid & Hm & Hd)];
    [left; exact Hnone | right].
  apply (Permutation_in _ (Hfiles _)) in Hfile. cbn [policies] in Hfile.
  exists name, policy, agent, perm. cbn [policies].
  repeat (split; [assumption|]). split.
  - rewrite Hd. unfold decided. cbv zeta. destruct (negb _); reflexivity.
  - apply (load_entries_valid yaml_Unmarshal fs d es [] (fun e H => match H with end))
      in Hfile.
    apply check_policy_valid_None in Hfile as [Hversion _]. exact Hversion.
Qed.

Lemma decision_version_of_loaded_manager_witness :
  Evaluate storage_order "finance-agent" "payments" "create"
    (payment_params 50000 "USD") example_manager =
    Decision.mk false
      ("No policy found for agent=" +:+ "finance-agent" +:+ ", tool=" +:+ "payments" +:+
       ", action=" +:+ "create") 0 \/
  exists name policy agent perm,
    In (name, policy) (policies example_manager) /\
    In agent (Agents policy) /\
    ID agent = "finance-agent" /\
    In perm (Allow agent) /\
    permission_matches "payments" "create" perm = true /\
    Evaluate storage_order "finance-agent" "payments" "create"
      (payment_params 50000 "USD") example_manager =
      decided storage_order (payment_params 50000 "USD") (Version policy) perm /\
    Decision.Version
      (Evaluate storage_order "finance-agent" "payments" "create"
         (payment_params 50000 "USD") example_manager) = Version policy /\
    (1 <= Version policy)%Z.
Proof.
  apply (decision_version_of_loaded_manager example_yaml example_fs "./policies"
           example_manager storage_order).
  - reflexivity.
  - exact storage_order_ok.
Defined.

(** X8. A denial always names its reason. No decision of [Evaluate] has an
    empty reason, so the 403 answer of the handler is the object with both
    members, error and reason: the reason is never left out. *)
Theorem denial_names_its_reason `{GoLib}
    (g : Gateway) (env : Env) (r : Request) (requestBody : string)
    (requestParams : Params) :
  X_Agent_ID r <> "" ->
  ReadAll_Body r = Ok requestBody ->
  Unmarshal requestBody = Ok requestParams ->
  Decision.Allow
    (Evaluate (ranges env) (X_Agent_ID r) (vars_tool r) (vars_action r) requestParams
       (policyManager g)) = false ->
  fst (handleToolRequest g env r) =
  {| StatusCode := 403;
     Header := application_json;
     Body := "{" +:+ member "error" (appendString "PolicyViolation") +:+ "," +:+
             member "reason"
               (appendString
                  (Decision.Reason
                     (Evaluate (ranges env) (X_Agent_ID r) (vars_tool r) (vars_action r)
                        requestParams (policyManager g)))) +:+
             "}" +:+ newline |}.
Proof.
  intros Hagent Hbody Hparse Hdeny.
  rewrite handleToolRequest_route. cbn [fst]. unfold route.
  destruct (String.eqb_spec (X_Agent_ID r) ""); [contradiction|].
  rewrite Hbody, Hparse.
  destruct (authorize_deny g env r requestBody requestParams Hdeny) as [-> _].
  unfold respond, write_error, Encode_ErrorResponse, member.
  cbn [ErrorResponse.Error ErrorResponse.Reason].
  destruct (String.eqb_spec
              (Decision.Reason
                 (Evaluate (ranges env) (X_Agent_ID r) (vars_tool r) (vars_action r)
                    requestParams (policyManager g))) "") as [Hempty|_].
  - exfalso. revert Hempty. apply Evaluate_reason.
  - rewrite !append_assoc. reflexivity.
Qed.

Lemma denial_names_its_reason_witness :
  fst (handleToolRequest example_gateway example_env
         (example_request "finance-agent" (Ok (payment_body "50000" "USD")))) =
  {| StatusCode := 403;
     Header := application_json;
     Body := "{" +:+ member "error" (appendString "PolicyViolation") +:+ "," +:+
             member "reason"
               (appendString
                  (Decision.Reason
                     (Evaluate storage_order "finance-agent" "payments" "create"
                        (payment_params 50000 "USD") example_manager))) +:+
             "}" +:+ newline |}.
Proof.
  apply (denial_names_its_reason example_gateway example_env
           (example_request "finance-agent" (Ok (payment_body "50000" "USD")))
           (payment_body "50000" "USD") (payment_params 50000 "USD")).
  - discriminate.
  - reflexivity.
  - vm_compute. reflexivity.
  - vm_compute. reflexivity.
Defined.

(** ** What the conditions read *)

Lemma check_condition_inputs condName condVal p p' :
  same_policy_inputs p p' ->
  check_condition condName condVal p = check_condition condName condVal p'.
Proof.
  intros (Hamount & Hcurrency & Hpath). unfold check_condition.
  rewrite Hamount, Hcurrency, Hpath. reflexivity.
Qed.

Lemma check_conditions_inputs conds p p' :
  same_policy_inputs p p' -> check_conditions conds p = check_conditions conds p'.
Proof.
  intros Hsame. induction conds as [|[n v] rest IH]; [reflexivity|].
  cbn [check_conditions]. rewrite (check_condition_inputs n v p p' Hsame), IH. reflexivity.
Qed.

(** X9. A decision depends on three request fields only. Two parameter maps
    that agree on "amount", "currency" and "path" get the same decision from
    every manager, whatever else they hold: no other field of the request
    is ever read by the policy check. *)
Theorem Evaluate_reads_three_fields
    (ro : range_order) (agentID tool action : string) (p p' : Params) (m : Manager) :
  same_policy_inputs p p' ->
  Evaluate ro agentID tool action p m = Evaluate ro agentID tool action p' m.
Proof.
  intros Hsame. unfold Evaluate.
  assert (Hperms : forall version allow,
             eval_permissions ro tool action p version allow =
             eval_permissions ro tool action p' version allow).
  { intros version allow. induction allow as [|perm rest IH]; [reflexivity|].
    cbn [eval_permissions]. rewrite IH.
    rewrite (check_conditions_inputs _ p p' Hsame). reflexivity. }
  assert (Hagents : forall version agents,
             eval_agents ro agentID tool action p version agents =
             eval_agents ro agentID tool action p' version agents).
  { intros version agents. induction agents as [|agent rest IH]; [reflexivity|].
    cbn [eval_agents]. rewrite IH, Hperms. reflexivity. }
  assert (Hfiles : forall files,
             eval_policies ro agentID tool action p files =
             eval_policies ro agentID tool action p' files).
  { intros files. induction files as [|[name policy] rest IH]; [reflexivity|].
    cbn [eval_policies]. rewrite IH, Hagents. reflexivity. }
  rewrite Hfiles. reflexivity.
Qed.

Lemma Evaluate_reads_three_fields_witness :
  Evaluate storage_order "finance-agent" "payments" "create"
    (Some [("amount", VFloat64 (Float64.of_int 1000)); ("currency", VString "USD");
           ("vendor_id", VString "V123")]) example_manager =
  Evaluate storage_order "finance-agent" "payments" "create"
    (Some [("memo", VString "rent"); ("currency", VString "USD");
           ("amount", VFloat64 (Float64.of_int 1000))]) example_manager.
Proof.
  apply (Evaluate_reads_three_fields storage_order "finance-agent" "payments" "create").
  repeat split.
Defined.

(** X10. Entries of one agent add up. Over the agents of a file, the search
    for a caller is the search through the permissions of all the entries
    that carry its id, concatenated in file order: an id listed twice
    behaves as one entry with both permission lists. *)
Theorem agent_entries_concatenate
    (ro : range_order) (agentID tool action : string) (params : Params)
    (version : Z) (agents : list Agent) :
  eval_agents ro agentID tool action params version agents =
  eval_permissions ro tool action params version
    (flat_map Allow (List.filter (fun agent => ID agent =? agentID) agents)).
Proof.
  assert (Happ : forall a b,
             eval_permissions ro tool action params version (a ++ b) =
             match eval_permissions ro tool action params version a with
             | Some d => Some d
             | None => eval_permissions ro tool action params version b
             end).
  { intros a b. induction a as [|perm rest IH]; [reflexivity|].
    cbn [app eval_permissions].
    destruct (negb (Tool perm =? tool)); [exact IH|].
    destruct (negb (actionAllowed action (Actions perm))); [exact IH|].
    destruct (negb _); reflexivity. }
  induction agents as [|agent rest IH]; [reflexivity|].
  cbn [eval_agents List.filter].
  destruct (ID agent =? agentID); cbn [negb flat_map].
  - rewrite Happ, IH. reflexivity.
  - exact IH.
Qed.

Lemma currencyFound_In allowedCurrs curr :
  currencyFound allowedCurrs curr = true <-> In (VString curr) allowedCurrs.
Proof.
  induction allowedCurrs as [|c rest IH]; simpl.
  - split; [discriminate | tauto].
  - destruct c as [|b|n|n|f|s|l|m]; simpl;
      try (rewrite IH; split; [auto | intros [Heq|Hin]; [discriminate | exact Hin]]).
    destruct (String.eqb_spec s curr) as [->|Hne].
    + split; auto.
    + rewrite IH. split; [auto | intros [Heq|Hin]; [congruence | exact Hin]].
Qed.

(** X11. The currencies condition is an exact membership test. An entry
    "currencies" with a list value lets a request pass exactly when the
    request's "currency" is a string and that very string (same bytes, same
    case) is an element of the list; elements that are not strings never
    match. *)
Theorem currencies_condition_passes (allowedCurrs : list value) (params : Params) :
  check_condition "currencies" (VSlice allowedCurrs) params = None <->
  exists curr,
    index params "currency" = VString curr /\ In (VString curr) allowedCurrs.
Proof.
  unfold check_condition. cbn [String.eqb Ascii.eqb Bool.eqb as_slice].
  destruct (index params "currency") as [|b|n|n|f|curr|l|m];
    cbn [as_string];
    try (split; [discriminate | intros (c & Heq & _); discriminate]).
  destruct (currencyFound allowedCurrs curr) eqn:Hfound; cbn [negb].
  - split; [|reflexivity]. intros _. exists curr. split; [reflexivity|].
    apply currencyFound_In, Hfound.
  - split; [discriminate|]. intros (c & [= <-] & Hin).
    apply currencyFound_In in Hin. congruence.
Qed.

Lemma prefix_append pfx pth :
  String.prefix pfx pth = true <-> exists rest, pth = pfx +:+ rest.
Proof.
  revert pth. induction pfx as [|a pfx IH]; intros pth.
  - destruct pth; (split; [intros _; eexists; reflexivity | reflexivity]).
  - destruct pth as [|b pth].
    + split; [discriminate | intros [rest Heq]; discriminate].
    + cbn [String.prefix].
      destruct (ascii_dec a b) as [->|Hne].
      * rewrite IH. split.
        -- intros [rest ->]. exists rest. reflexivity.
        -- intros [rest Heq]. rewrite append_cons in Heq. injection Heq as ->.
           exists rest. reflexivity.
      * split; [discriminate|]. intros [rest Heq]. rewrite append_cons in Heq.
        injection Heq as -> _. contradiction.
Qed.

(** X12. The folder_prefix condition compares bytes and nothing else. An
    entry "folder_prefix" with a string value lets a request pass exactly
    when the request's "path" is that prefix followed by any bytes at all;
    the path is not cleaned first, so dot-dot segments after the prefix
    pass. *)
Theorem folder_prefix_condition_passes (pfx : string) (params : Params) :
  check_condition "folder_prefix" (VString pfx) params = None <->
  exists rest, index params "path" = VString (pfx +:+ rest).
Proof.
  unfold check_condition. cbn [String.eqb Ascii.eqb Bool.eqb as_string].
  destruct (index params "path") as [|b|n|n|f|pth|l|m];
    cbn [as_string];
    try (split; [discriminate | intros (rest & Heq); discriminate]).
  destruct (String.prefix pfx pth) eqn:Hprefix; cbn [negb].
  - split; [|reflexivity]. intros _.
    apply prefix_append in Hprefix as [rest ->]. exists rest. reflexivity.
  - split; [discriminate|]. intros (rest & [= ->]).
    assert (Htrue : String.prefix pfx (pfx +:+ rest) = true)
      by (apply prefix_append; exists rest; reflexivity).
    congruence.
Qed.

(** ** Forwarding to the adapter *)

Lemma length_append (a b : string) :
  String.length (a +:+ b) = (String.length a + String.length b)%nat.
Proof.
  induction a as [|x a IH]; [reflexivity|].
  rewrite append_cons. cbn [String.length]. rewrite IH. reflexivity.
Qed.

Lemma substring_skip (a b : string) (k : nat) :
  substring (String.length a) k (a +:+ b) = substring 0 k b.
Proof.
  induction a as [|x a IH]; [reflexivity|].
  rewrite append_cons. cbn [String.length substring]. exact IH.
Qed.

Lemma substring_take (a b : string) :
  substring 0 (String.length a) (a +:+ b) = a.
Proof.
  induction a as [|x a IH]; [destruct b; reflexivity|].
  rewrite append_cons. cbn [String.length substring]. rewrite IH. reflexivity.
Qed.

Lemma substring_all (s : string) : substring 0 (String.length s) s = s.
Proof.
  induction s as [|x s IH]; [reflexivity|].
  cbn [String.length substring]. rewrite IH. reflexivity.
Qed.

Lemma HasSuffix_append (s suffix : string) : HasSuffix (s +:+ suffix) suffix = true.
Proof.
  unfold HasSuffix. rewrite length_append.
  replace (String.length s + String.length suffix - String.length suffix)%nat
    with (String.length s) by lia.
  rewrite substring_skip, substring_all, String.eqb_refl.
  rewrite andb_true_r. apply Nat.leb_le. lia.
Qed.

Lemma TrimSuffix_append (s suffix : string) : TrimSuffix (s +:+ suffix) suffix = s.
Proof.
  unfold TrimSuffix. rewrite HasSuffix_append, length_append.
  replace (String.length s + String.length suffix - String.length suffix)%nat
    with (String.length s) by lia.
  apply substring_take.
Qed.

Lemma TrimSuffix_none (s suffix : string) :
  HasSuffix s suffix = false -> TrimSuffix s suffix = s.
Proof. unfold TrimSuffix. intros ->. reflexivity. Qed.

Section Forwarding.

Context `{GoLib}.
Variables (g : Gateway) (env : Env) (r : Request).

(** The shapes the effects of [route] take: nothing; the attributes and the
    audit record; these followed by the span of a forward that sends
    nothing; these followed by the span of a forward that posts. *)
Lemma route_effects :
  snd (route g env r) = [] \/
  exists requestBody requestParams attrs,
    ReadAll_Body r = Ok requestBody /\
    Unmarshal requestBody = Ok requestParams /\
    let logged := [SetAttributes attrs;
                   AuditRecord (decision_record g env r requestParams)] in
    snd (route g env r) = logged \/
    snd (route g env r) =
      logged ++ [SpanStart "gateway.forward_to_adapter";
                 SpanEnd "gateway.forward_to_adapter"] \/
    Decision.Allow
      (Evaluate (ranges env) (X_Agent_ID r) (vars_tool r) (vars_action r) requestParams
         (policyManager g)) = true /\
    exists adapterURL,
      adapters g !! vars_tool r = Some adapterURL /\
      snd (route g env r) =
        logged ++ [SpanStart "gateway.forward_to_adapter";
                   HttpPost (TrimSuffix adapterURL "/" +:+ "/" +:+ vars_action r)
                     "application/json" requestBody;
                   SpanEnd "gateway.forward_to_adapter"].
Proof.
  unfold route.
  destruct (X_Agent_ID r =? ""); [left; reflexivity|].
  destruct (ReadAll_Body r) as [requestBody|] eqn:Hbody; [|left; reflexivity].
  destruct (Unmarshal requestBody) as [requestParams|] eqn:Hparse; [|left; reflexivity].
  right. exists requestBody, requestParams.
  exists [("agent.id", AttrString (X_Agent_ID r));
          ("tool.name", AttrString (vars_tool r));
          ("tool.action", AttrString (vars_action r));
          ("decision.allow",
           AttrBool (Decision.Allow
                       (Evaluate (ranges env) (X_Agent_ID r) (vars_tool r) (vars_action r)
                          requestParams (policyManager g))));
          ("policy.version",
           AttrInt (Decision.Version
                      (Evaluate (ranges env) (X_Agent_ID r) (vars_tool r) (vars_action r)
                         requestParams (policyManager g))));
          ("params.hash", AttrString (HashParams requestParams));
          ("latency.ms", AttrFloat64 (latency_ms (elapsed_us env)));
          ("parent.agent", AttrString (X_Parent_Agent r))].
  split; [reflexivity|]. split; [exact Hparse|]. cbv zeta.
  unfold authorize, decision_record, AddSpanAttributes, LogDecision. cbv zeta.
  destruct (Decision.Allow _) eqn:Hallow; cbn [negb]; [|left; reflexivity].
  destruct (adapters g !! vars_tool r) as [adapterURL|] eqn:Hadapter; [|left; reflexivity].
  right. unfold forward_to_adapter.
  destruct (new_request_error env _); [left; reflexivity|].
  right. split; [reflexivity|]. exists adapterURL. split; [reflexivity|].
  destruct (adapter_do env _ requestBody) as [[status [responseBody|]]|err]; reflexivity.
Qed.

End Forwarding.

(** X13. An allowed call is forwarded verbatim. When the decision allows,
    an adapter is configured for the tool and the outbound request can be
    built, the handler sends exactly one POST, to the adapter's URL (one
    trailing slash removed) followed by a slash and the action, and its body
    is the request body byte for byte, not a re-encoding of the parsed
    parameters. The answer is the adapter's status and body under the
    content type application/json; a transport error is answered with
    status 502 and the JSON object whose error is AdapterError and whose
    reason is the error text, left out when the text is empty; an unreadable
    answer with status 502, the error AdapterError and the reason
    "Failed to read adapter response". *)
Theorem allowed_call_is_forwarded_verbatim `{GoLib}
    (g : Gateway) (env : Env) (r : Request) (requestBody : string)
    (requestParams : Params) (adapterURL : string) :
  X_Agent_ID r <> "" ->
  ReadAll_Body r = Ok requestBody ->
  Unmarshal requestBody = Ok requestParams ->
  Decision.Allow
    (Evaluate (ranges env) (X_Agent_ID r) (vars_tool r) (vars_action r) requestParams
       (policyManager g)) = true ->
  adapters g !! vars_tool r = Some adapterURL ->
  let targetURL := TrimSuffix adapterURL "/" +:+ "/" +:+ vars_action r in
  new_request_error env targetURL = None ->
  http_posts (snd (handleToolRequest g env r)) = [(targetURL, requestBody)] /\
  fst (handleToolRequest g env r) =
  match adapter_do env targetURL requestBody with
  | Err err =>
      {| StatusCode := 502;
         Header := {[ "Content-Type" := "application/json" ]};
         Body := "{" +:+ quoted "error" +:+ ":" +:+ quoted "AdapterError" +:+
                 (if err =? "" then ""
                  else "," +:+ quoted "reason" +:+ ":" +:+ appendString err) +:+
                 "}" +:+ newline |}
  | Ok (status, Err _) =>
      {| StatusCode := 502;
         Header := {[ "Content-Type" := "application/json" ]};
         Body := "{" +:+ quoted "error" +:+ ":" +:+ quoted "AdapterError" +:+ "," +:+
                 quoted "reason" +:+ ":" +:+ quoted "Failed to read adapter response" +:+
                 "}" +:+ newline |}
  | Ok (status, Ok responseBody) =>
      {| StatusCode := status;
         Header := {[ "Content-Type" := "application/json" ]};
         Body := responseBody |}
  end.
Proof.
  intros Hagent Hbody Hparse Hallow Hadapter targetURL Hbuild.
  rewrite handleToolRequest_route. cbn [fst snd]. unfold route.
  destruct (String.eqb_spec (X_Agent_ID r) ""); [contradiction|].
  rewrite Hbody, Hparse. unfold authorize. cbv zeta.
  rewrite Hallow, Hadapter. cbn [negb]. unfold forward_to_adapter.
  fold targetURL. rewrite Hbuild.
  destruct (adapter_do env targetURL requestBody) as [[status [responseBody|]]|err];
    split; reflexivity.
Qed.

Lemma allowed_call_is_forwarded_verbatim_witness :
  http_posts
    (snd (handleToolRequest example_gateway example_env
            (example_request "finance-agent" (Ok (payment_body "1000" "USD"))))) =
  [("http://localhost:8081/create", payment_body "1000" "USD")] /\
  fst (handleToolRequest example_gateway example_env
         (example_request "finance-agent" (Ok (payment_body "1000" "USD")))) =
  {| StatusCode := 200;
     Header := {[ "Content-Type" := "application/json" ]};
     Body := "{}" |}.
Proof.
  apply (allowed_call_is_forwarded_verbatim example_gateway example_env
           (example_request "finance-agent" (Ok (payment_body "1000" "USD")))
           (payment_body "1000" "USD") (payment_params 1000 "USD")
           "http://localhost:8081").
  - discriminate.
  - reflexivity.
  - vm_compute. reflexivity.
  - vm_compute. reflexivity.
  - reflexivity.
  - reflexivity.
Defined.

(** X14. No adapter is contacted before the decision is on record. Wherever
    the effects of a tool call hold a POST to an adapter, the audit record
    of that very request, with decision_allow true, stands before it; and
    the POST is the only one of the call. *)
Theorem adapter_called_after_allow_audit `{GoLib}
    (g : Gateway) (env : Env) (r : Request)
    (pre post : list effect) (url contentType body : string) :
  snd (handleToolRequest g env r) = pre ++ HttpPost url contentType body :: post ->
  (exists log,
      In (AuditRecord log) pre /\
      AuditLog.Decision log = true /\
      AuditLog.AgentID log = X_Agent_ID r /\
      AuditLog.Tool log = vars_tool r /\
      AuditLog.Action log = vars_action r) /\
  http_posts pre = [] /\ http_posts post = [].
Proof.
  rewrite handleToolRequest_route. cbn [snd]. intros Heffs.
  destruct (route_effects g env r)
    as [Hnone|(requestBody & requestParams & attrs & _ & _ & Hshape)].
  - rewrite Hnone in Heffs. cbn [app] in Heffs.
    do 2 (destruct pre as [|? pre]; cbn [app] in Heffs;
          [discriminate Heffs | injection Heffs as <- Heffs]).
    destruct pre; discriminate Heffs.
  - cbv zeta in Hshape.
    destruct Hshape as [Hshape|[Hshape|(Hallow & adapterURL & _ & Hshape)]];
      rewrite Hshape in Heffs; cbn [app] in Heffs.
    + do 4 (destruct pre as [|? pre]; cbn [app] in Heffs;
            [discriminate Heffs | injection Heffs as <- Heffs]).
      destruct pre; discriminate Heffs.
    + do 6 (destruct pre as [|? pre]; cbn [app] in Heffs;
            [discriminate Heffs | injection Heffs as <- Heffs]).
      destruct pre; discriminate Heffs.
    + do 4 (destruct pre as [|? pre]; cbn [app] in Heffs;
            [discriminate Heffs | injection Heffs as <- Heffs]).
      destruct pre as [|? pre]; cbn [app] in Heffs.
      * injection Heffs as <- <- <- <-. split; [|split; reflexivity].
        exists (decision_record g env r requestParams).
        split; [simpl; auto|]. split; [exact Hallow|]. repeat split.
      * injection Heffs as <- Heffs.
        do 2 (destruct pre as [|? pre]; cbn [app] in Heffs;
              [discriminate Heffs | injection Heffs as <- Heffs]).
        destruct pre; discriminate Heffs.
Qed.

Lemma adapter_called_after_allow_audit_witness :
  (exists log,
      In (AuditRecord log)
        (firstn 4 (snd (handleToolRequest example_gateway example_env
                          (example_request "finance-agent"
                             (Ok (payment_body "1000" "USD")))))) /\
      AuditLog.Decision log = true /\
      AuditLog.AgentID log = "finance-agent" /\
      AuditLog.Tool log = "payments" /\
      AuditLog.Action log = "create") /\
  http_posts
    (firstn 4 (snd (handleToolRequest example_gateway example_env
                      (example_request "finance-agent"
                         (Ok (payment_body "1000" "USD")))))) = [] /\
  http_posts
    [SpanEnd "gateway.forward_to_adapter"; SpanEnd "gateway.handleToolRequest"] = [].
Proof.
  apply (adapter_called_after_allow_audit example_gateway example_env
           (example_request "finance-agent" (Ok (payment_body "1000" "USD")))
           _ _ "http://localhost:8081/create" "application/json"
           (payment_body "1000" "USD")).
  vm_compute. reflexivity.
Defined.

(** X15. A trailing slash on a configured adapter URL makes no difference:
    registering the URL with one more slash at its end leaves the answer and
    every effect of every tool call unchanged. *)
Theorem adapter_url_trailing_slash `{GoLib}
    (g : Gateway) (env : Env) (r : Request) (adapterURL : string) :
  adapters g !! vars_tool r = Some adapterURL ->
  HasSuffix adapterURL "/" = false ->
  handleToolRequest
    {| policyManager := policyManager g;
       adapters := <[vars_tool r := adapterURL +:+ "/"]> (adapters g) |} env r =
  handleToolRequest g env r.
Proof.
  intros Hadapter Hplain. unfold handleToolRequest, route.
  destruct (X_Agent_ID r =? ""); [reflexivity|].
  destruct (ReadAll_Body r) as [requestBody|]; [|reflexivity].
  destruct (Unmarshal requestBody) as [requestParams|]; [|reflexivity].
  unfold authorize. cbv zeta. cbn [policyManager adapters].
  rewrite lookup_insert_eq, Hadapter.
  rewrite TrimSuffix_append, (TrimSuffix_none adapterURL "/" Hplain). reflexivity.
Qed.

Lemma adapter_url_trailing_slash_witness :
  handleToolRequest
    {| policyManager := example_manager;
       adapters := <["payments" := "http://localhost:8081" +:+ "/"]>
                     (adapters example_gateway) |}
    example_env (example_request "finance-agent" (Ok (payment_body "1000" "USD"))) =
  handleToolRequest example_gateway example_env
    (example_request "finance-agent" (Ok (payment_body "1000" "USD"))).
Proof.
  apply (adapter_url_trailing_slash example_gateway example_env
           (example_request "finance-agent" (Ok (payment_body "1000" "USD")))
           "http://localhost:8081").
  - reflexivity.
  - reflexivity.
Defined.

(** ** Start-up *)

Lemma load_entries_nothing yaml_Unmarshal fs d es acc :
  (forall entry pol, In entry es -> ~ loadable yaml_Unmarshal fs d entry pol) ->
  load_entries yaml_Unmarshal fs d es acc = acc.
Proof.
  revert acc. induction es as [|entry rest IH]; intros acc Hnone; [reflexivity|].
  destruct (load_entries_cons yaml_Unmarshal fs d entry rest acc)
    as [->|(pol & Hload & _)].
  - apply IH. intros e pol Hin. apply Hnone. right. exact Hin.
  - exfalso. apply (Hnone entry pol); [left; reflexivity | exact Hload].
Qed.

(** X16. A gateway needs no policy to start, and then denies everything.
    When the policy directory can be listed but none of its entries is a
    loadable policy file, [NewGateway] still succeeds, and every tool call
    with a caller id and a parsed body is answered with status 403, content
    type application/json and the JSON object whose error is PolicyViolation
    and whose reason is the "No policy found" text for the agent, the tool
    and the action, without any request to an adapter. *)
Theorem gateway_without_policies_denies `{GoLib}
    (yaml_Unmarshal : string -> option Policy) (fs : FileSystem) (ws : WatcherSetup)
    (policyDir : string) (adapters : gmap string string) (es : list DirEntry)
    (env : Env) (r : Request) (requestBody : string) (requestParams : Params) :
  ReadDir fs policyDir = Ok es ->
  (forall entry pol, In entry es -> ~ loadable yaml_Unmarshal fs policyDir entry pol) ->
  NewWatcher ws = None ->
  watcher_Add ws policyDir = None ->
  range_ok (ranges env) ->
  X_Agent_ID r <> "" ->
  ReadAll_Body r = Ok requestBody ->
  Unmarshal requestBody = Ok requestParams ->
  exists g,
    NewGateway yaml_Unmarshal fs ws policyDir adapters = Ok g /\
    fst (handleToolRequest g env r) =
    {| StatusCode := 403;
       Header := {[ "Content-Type" := "application/json" ]};
       Body := "{" +:+ quoted "error" +:+ ":" +:+ quoted "PolicyViolation" +:+ "," +:+
               quoted "reason" +:+ ":" +:+
               appendString
                 ("No policy found for agent=" +:+ X_Agent_ID r +:+ ", tool=" +:+
                  vars_tool r +:+ ", action=" +:+ vars_action r) +:+
               "}" +:+ newline |} /\
    http_posts (snd (handleToolRequest g env r)) = [].
Proof.
  intros Hdir Hnone Hwatcher Hadd [Hfiles _] Hagent Hbody Hparse.
  unfold NewGateway, NewManager, load_policies. cbn [dir].
  rewrite Hdir, Hwatcher, Hadd, (load_entries_nothing _ _ _ _ [] Hnone).
  eexists. split; [reflexivity|].
  set (g := {| policyManager := {| policies := []; dir := policyDir |};
               adapters := adapters |}).
  assert (Hdecision :
            Evaluate (ranges env) (X_Agent_ID r) (vars_tool r) (vars_action r)
              requestParams (policyManager g) =
            no_policy_found (X_Agent_ID r) (vars_tool r) (vars_action r)).
  { unfold Evaluate. cbn [g policyManager policies].
    rewrite (Permutation_nil (Permutation_sym (Hfiles []))). reflexivity. }
  assert (Hdeny :
            Decision.Allow
              (Evaluate (ranges env) (X_Agent_ID r) (vars_tool r) (vars_action r)
                 requestParams (policyManager g)) = false)
    by (rewrite Hdecision; reflexivity).
  rewrite handleToolRequest_route. cbn [fst snd]. unfold route.
  destruct (String.eqb_spec (X_Agent_ID r) ""); [contradiction|].
  rewrite Hbody, Hparse.
  destruct (authorize_deny g env r requestBody requestParams Hdeny) as [Hexit Hposts].
  rewrite Hexit, Hdecision. split.
  - cbn [respond no_policy_found Decision.Reason].
    rewrite write_error_response by (rewrite append_cons; discriminate). reflexivity.
  - cbn [http_posts]. rewrite http_posts_app, Hposts. reflexivity.
Qed.

Lemma gateway_without_policies_denies_witness :
  exists g,
    NewGateway example_yaml bare_fs ready_watcher "./policies" adapterMap = Ok g /\
    fst (handleToolRequest g example_env
           (example_request "finance-agent" (Ok (payment_body "1000" "USD")))) =
    {| StatusCode := 403;
       Header := {[ "Content-Type" := "application/json" ]};
       Body := "{" +:+ quoted "error" +:+ ":" +:+ quoted "PolicyViolation" +:+ "," +:+
               quoted "reason" +:+ ":" +:+
               quoted "No policy found for agent=finance-agent, tool=payments, action=create" +:+
               "}" +:+ newline |} /\
    http_posts
      (snd (handleToolRequest g example_env
              (example_request "finance-agent" (Ok (payment_body "1000" "USD"))))) = [].
Proof.
  apply (gateway_without_policies_denies example_yaml bare_fs ready_watcher "./policies"
           adapterMap
           [ {| Name := "README.md"; IsDir := false |};
             {| Name := "archive.yaml"; IsDir := true |} ]
           example_env
           (example_request "finance-agent" (Ok (payment_body "1000" "USD")))
           (payment_body "1000" "USD") (payment_params 1000 "USD")).
  - reflexivity.
  - intros entry pol Hin (Hdir & Hsuffix & _). simpl in Hin.
    destruct Hin as [<-|[<-|[]]]; [vm_compute in Hsuffix | vm_compute in Hdir];
      discriminate.
  - reflexivity.
  - reflexivity.
  - exact storage_order_ok.
  - discriminate.
  - reflexivity.
  - vm_compute. reflexivity.
Defined.

(** ** Values [json.Marshal] refuses *)

Lemma all_some_None {A} (l : list (option A)) : In None l -> all_some l = None.
Proof.
  induction l as [|x rest IH]; [intros []|].
  intros [->|Hin]; [reflexivity|]. simpl. rewrite (IH Hin). destruct x; reflexivity.
Qed.

Lemma all_some_entries_None {A} (l : entries (option A)) :
  In None (map snd l) -> all_some_entries l = None.
Proof.
  induction l as [|[k x] rest IH]; [intros []|].
  cbn [map snd]. intros [->|Hin]; [reflexivity|].
  simpl. rewrite (IH Hin). destruct x; reflexivity.
Qed.

Lemma not_encodable_VSlice l : not_encodable (VSlice l) = existsb not_encodable l.
Proof.
  induction l as [|x rest IH]; [reflexivity|].
  cbn [existsb]. rewrite <- IH. reflexivity.
Qed.

Lemma not_encodable_VMap m :
  not_encodable (VMap m) = existsb (fun e => not_encodable (snd e)) m.
Proof.
  induction m as [|[k x] rest IH]; [reflexivity|].
  cbn [existsb snd]. rewrite <- IH. reflexivity.
Qed.

Lemma encode_not_encodable `{GoLib} v : not_encodable v = true -> encode v = None.
Proof.
  induction v as [| | | | | |l IH|m IH] using value_ind; try discriminate.
  - cbn [not_encodable encode]. destruct (is_finite f); [discriminate | reflexivity].
  - rewrite not_encodable_VSlice, encode_VSlice. intros Hany.
    apply List.existsb_exists in Hany as (x & Hin & Hx).
    rewrite all_some_None; [reflexivity|].
    apply List.in_map_iff. exists x. split; [|exact Hin].
    apply (proj1 (List.Forall_forall _ _) IH x Hin Hx).
  - rewrite not_encodable_VMap, encode_VMap. intros Hany.
    apply List.existsb_exists in Hany as (e & Hin & He).
    rewrite all_some_entries_None; [reflexivity|].
    rewrite List.map_map. apply List.in_map_iff. exists e. split; [|exact Hin].
    cbn [snd]. apply (proj1 (List.Forall_forall _ _) IH e Hin He).
Qed.

(** X17. A parameter map [json.Marshal] refuses has a fixed digest. When a
    value somewhere in the map is a NaN or an infinity, the encoding fails,
    the error is dropped, and [HashParams] returns the SHA-256 of no bytes
    at all, the same 64 characters for every such map. *)
Theorem HashParams_of_unsupported_value `{GoLib} (m : entries value) :
  not_encodable (VMap m) = true ->
  HashParams (Some m) =
  "e3b0c44298fc1c149afbf4c8996fb92427ae41e4649b934ca495991b7852b855".
Proof.
  intros Hbad. unfold HashParams, Marshal.
  rewrite (encode_not_encodable (VMap m) Hbad). vm_compute. reflexivity.
Qed.

Lemma HashParams_of_unsupported_value_witness :
  HashParams (Some [("amount", VFloat64 S754_nan)]) =
  "e3b0c44298fc1c149afbf4c8996fb92427ae41e4649b934ca495991b7852b855" /\
  HashParams (Some [("items", VSlice [VString "a"; VFloat64 (S754_infinity false)])]) =
  "e3b0c44298fc1c149afbf4c8996fb92427ae41e4649b934ca495991b7852b855".
Proof.
  split.
  - apply (HashParams_of_unsupported_value [("amount", VFloat64 S754_nan)]). reflexivity.
  - apply (@HashParams_of_unsupported_value reference_lib
             [("items", VSlice [VString "a"; VFloat64 (S754_infinity false)])]).
    reflexivity.
Defined.

(** ** The audit line *)

Lemma control_free_cons (x : ascii) (s : string) :
  control_free (String x s) = (32 <=? byte_of x)%Z && control_free s.
Proof. reflexivity. Qed.

Lemma control_free_append (a b : string) :
  control_free (a +:+ b) = control_free a && control_free b.
Proof.
  induction a as [|x a IH]; [reflexivity|].
  rewrite append_cons, !control_free_cons, IH, andb_assoc. reflexivity.
Qed.

Lemma control_free_escape_ascii (c : ascii) : control_free (escape_ascii c) = true.
Proof. destruct c as [[] [] [] [] [] [] [] []]; vm_compute; reflexivity. Qed.

(** The bytes that follow the lead byte of a decoded rune are continuation
    bytes. *)
Lemma DecodeRune_continuation (s0 : Z) (rest : list Z) (r : Z) (size : nat) :
  DecodeRune (s0 :: rest) = (r, size) ->
  List.Forall (fun b => (128 <= b)%Z) (firstn (Nat.pred size) rest).
Proof.
  unfold DecodeRune.
  destruct (s0 <? 128)%Z; [intros [= <- <-]; constructor|].
  assert (Hlo : forall sz lo hi, lead_info s0 = (sz, lo, hi) ->
                                 sz = 1%nat \/ (128 <= lo)%Z).
  { unfold lead_info. intros sz lo hi.
    repeat match goal with
           | |- context [if ?b then _ else _] => destruct b
           end; intros [= <- <- <-]; auto; right; lia. }
  destruct (lead_info s0) as [[sz lo] hi].
  specialize (Hlo sz lo hi eq_refl).
  assert (Hrange : forall a b x, in_range a b x = true -> (a <= x)%Z).
  { unfold in_range. intros a b x [Ha _]%andb_true_iff. apply Z.leb_le, Ha. }
  destruct Hlo as [->|Hlo].
  { destruct rest; intros [= <- <-]; constructor. }
  destruct sz as [|[|[|[|[|sz]]]]];
    destruct rest as [|s1 [|s2 [|s3 rest]]];
    repeat match goal with
           | |- context [if ?b then _ else _] => destruct b eqn:?
           end;
    intros [= <- <-]; cbn [Nat.pred firstn];
    repeat match goal with
           | H : _ && _ = true |- _ => apply andb_true_iff in H as [? ?]
           | H : in_range _ _ _ = true |- _ => apply Hrange in H
           end;
    repeat constructor; lia.
Qed.

Lemma firstn_bytes (n : nat) (s : string) :
  firstn n (map byte_of (list_ascii_of_string s)) =
  map byte_of (firstn n (list_ascii_of_string s)).
Proof. apply List.firstn_map. Qed.

Lemma appendString_loop_control_free (src : string) :
  forall pending copy,
    (copy = true ->
     List.Forall (fun c => (128 <= byte_of c)%Z)
       (firstn pending (list_ascii_of_string src))) ->
    control_free (appendString_loop pending copy src) = true.
Proof.
  induction src as [|c rest IH]; intros pending copy Hcont; [reflexivity|].
  cbn [appendString_loop]. destruct pending as [|n].
  - destruct (byte_of c <? 128)%Z eqn:Hlow.
    + rewrite control_free_append, control_free_escape_ascii. apply IH.
      intros _. constructor.
    + apply Z.ltb_ge in Hlow.
      pose proof (DecodeRune_continuation (byte_of c)
                    (map byte_of (list_ascii_of_string rest))) as Hdecode.
      change (map byte_of (list_ascii_of_string (String c rest)))
        with (byte_of c :: map byte_of (list_ascii_of_string rest)).
      destruct (DecodeRune (byte_of c :: map byte_of (list_ascii_of_string rest)))
        as [r size].
      specialize (Hdecode r size eq_refl).
      rewrite firstn_bytes in Hdecode.
      apply (proj1 (List.Forall_map _ _ _)) in Hdecode.
      destruct ((r =? RuneError)%Z && Nat.eqb size 1).
      { rewrite control_free_append. cbn [andb].
        replace (control_free (String backslash "ufffd")) with true by reflexivity.
        apply IH. intros _. constructor. }
      destruct ((r =? 8232)%Z || (r =? 8233)%Z) eqn:Hsep.
      { rewrite control_free_append.
        rewrite IH by discriminate. rewrite andb_true_r.
        apply orb_true_iff in Hsep as [->%Z.eqb_eq| ->%Z.eqb_eq]; reflexivity. }
      rewrite control_free_cons, (IH _ true (fun _ => Hdecode)), andb_true_r.
      apply Z.leb_le. lia.
  - cbn [list_ascii_of_string firstn] in Hcont.
    rewrite control_free_append. destruct copy.
    + specialize (Hcont eq_refl). inversion Hcont as [|? ? Hc Hrest]; subst.
      rewrite control_free_cons, (IH n true (fun _ => Hrest)).
      replace (control_free "") with true by reflexivity.
      rewrite !andb_true_r. apply Z.leb_le. lia.
    + rewrite IH by discriminate. reflexivity.
Qed.

Lemma control_free_appendString (s : string) : control_free (appendString s) = true.
Proof.
  unfold appendString. rewrite control_free_cons, control_free_append.
  rewrite appendString_loop_control_free by (intros _; constructor). reflexivity.
Qed.

Lemma control_free_member (key encoded : string) :
  control_free encoded = true -> control_free (member key encoded) = true.
Proof.
  intros Hvalue. unfold member.
  rewrite !control_free_append, control_free_appendString, Hvalue. reflexivity.
Qed.

Lemma control_free_join (sep : string) (l : list string) :
  control_free sep = true ->
  List.Forall (fun s => control_free s = true) l ->
  control_free (join sep l) = true.
Proof.
  intros Hsep Hall. induction Hall as [|x rest Hx Hrest IH]; [reflexivity|].
  cbn [join]. destruct rest as [|y rest]; [exact Hx|].
  rewrite !control_free_append, Hx, Hsep, IH. reflexivity.
Qed.

Lemma byte_of_digit (d : Z) : (0 <= d < 10)%Z -> byte_of (Float64.digit d) = (48 + d)%Z.
Proof.
  intros Hd. unfold byte_of, Float64.digit.
  rewrite N_ascii_embedding by lia. lia.
Qed.

Lemma control_free_digits (fuel : nat) :
  forall n acc, control_free acc = true ->
                control_free (Float64.digits_fuel fuel n acc) = true.
Proof.
  induction fuel as [|fuel IH]; intros n acc Hacc; [exact Hacc|].
  cbn [Float64.digits_fuel]. cbv zeta.
  assert (Hnext : control_free (String (Float64.digit (n mod 10)) acc) = true).
  { rewrite control_free_cons, Hacc, andb_true_r.
    rewrite byte_of_digit by (apply Z.mod_pos_bound; lia).
    apply Z.leb_le. pose proof (Z.mod_pos_bound n 10). lia. }
  destruct (n <? 10)%Z; [exact Hnext | apply IH, Hnext].
Qed.

Lemma control_free_itoa (n : Z) : control_free (Float64.itoa n) = true.
Proof.
  unfold Float64.itoa, Float64.utoa.
  destruct (n <? 0)%Z; [rewrite control_free_append|];
    rewrite control_free_digits; reflexivity.
Qed.

(** X18. An audit record is one line. Whatever bytes the agent id, the
    tool, the action, the reason and the other strings of a record hold,
    line feeds and carriage returns included, the data [LogDecision] prints
    and appends to the log holds no byte below 0x20, provided the number
    formatter writes none for the latency: a request cannot break a record
    over two lines of the log. *)
Theorem audit_record_is_one_line `{GoLib} (log : AuditLog.t) :
  control_free (FormatFloat (AuditLog.LatencyMs log)) = true ->
  control_free (audit_data log) = true.
Proof.
  intros Hfloat. unfold audit_data, Marshal_AuditLog.
  destruct (is_finite (AuditLog.LatencyMs log)); [|reflexivity].
  rewrite !control_free_append. rewrite control_free_join; [reflexivity..|].
  apply List.Forall_app. split.
  - repeat constructor; apply control_free_member;
      first [ apply control_free_appendString
            | apply control_free_itoa
            | exact Hfloat
            | destruct (AuditLog.Decision log); reflexivity ].
  - destruct (AuditLog.ParentAgent log =? ""); repeat constructor.
    apply control_free_member, control_free_appendString.
Qed.

Lemma audit_record_is_one_line_witness :
  control_free (audit_data multiline_log) = true.
Proof.
  apply (audit_record_is_one_line multiline_log).
  vm_compute. reflexivity.
Defined.

(** ** The payments adapter *)

Section PaymentsFacts.

Import Payments.

Context `{GoLib}.
Variable Decode_CreateRequest : string -> result CreateRequest.t.
Variable Decode_RefundRequest : string -> result RefundRequest.t.

Abbreviation HandleCreate := (Payments.HandleCreate Decode_CreateRequest).
Abbreviation HandleRefund := (Payments.HandleRefund Decode_RefundRequest).
Abbreviation handle := (Payments.handle Decode_CreateRequest Decode_RefundRequest).
Abbreviation serve := (Payments.serve Decode_CreateRequest Decode_RefundRequest).

(** The outcomes of [HandleCreate]. *)
Lemma HandleCreate_cases a uuid body :
  (fst (HandleCreate a uuid body) = a /\
   exists message,
     snd (HandleCreate a uuid body) =
     http_Error (error_message "InvalidRequest" message) 400) \/
  exists req,
    Decode_CreateRequest body = Ok req /\
    not_positive (CreateRequest.Amount req) = false /\
    CreateRequest.Currency req <> "" /\
    CreateRequest.VendorID req <> "" /\
    let resp :=
      CreateResponse.mk uuid (CreateRequest.Amount req) (CreateRequest.Currency req)
        "created" in
    HandleCreate a uuid body =
    ({| payments := map_set (payments a) uuid resp; refunds := refunds a |},
     {| StatusCode := 200; Header := application_json;
        Body := Encode_CreateResponse resp |}).
Proof.
  unfold Payments.HandleCreate.
  destruct (Decode_CreateRequest body) as [req|err]; [|left; eauto].
  destruct (not_positive (CreateRequest.Amount req)) eqn:Hamount; [left; eauto|].
  destruct (String.eqb_spec (CreateRequest.Currency req) ""); [left; eauto|].
  destruct (String.eqb_spec (CreateRequest.VendorID req) ""); [left; eauto|].
  right. exists req. auto 6.
Qed.

(** The outcomes of [HandleRefund]. *)
Lemma HandleRefund_cases a uuid body :
  (fst (HandleRefund a uuid body) = a /\
   ((exists message,
        snd (HandleRefund a uuid body) =
        http_Error (error_message "InvalidRequest" message) 400) \/
    (snd (HandleRefund a uuid body) =
     http_Error (error_message "NotFound" "Payment not found") 404 /\
     exists req,
       Decode_RefundRequest body = Ok req /\
       map_get (payments a) (RefundRequest.PaymentID req) = None))) \/
  exists req payment,
    Decode_RefundRequest body = Ok req /\
    RefundRequest.PaymentID req <> "" /\
    map_get (payments a) (RefundRequest.PaymentID req) = Some payment /\
    let resp := RefundResponse.mk uuid (RefundRequest.PaymentID req) "refunded" in
    HandleRefund a uuid body =
    ({| payments := payments a; refunds := map_set (refunds a) uuid resp |},
     {| StatusCode := 200; Header := application_json;
        Body := Encode_RefundResponse resp |}).
Proof.
  unfold Payments.HandleRefund.
  destruct (Decode_RefundRequest body) as [req|err]; [|left; eauto].
  destruct (String.eqb_spec (RefundRequest.PaymentID req) ""); [left; eauto|].
  destruct (map_get (payments a) (RefundRequest.PaymentID req)) as [payment|] eqn:Hget.
  - right. exists req, payment. auto.
  - left. split; [reflexivity|]. right. split; [reflexivity|]. eauto.
Qed.

Lemma handle_keeps_payment a c id :
  map_get (payments a) id <> None ->
  map_get (payments (fst (handle a c))) id <> None.
Proof.
  intros Hknown. destruct c as [uuid body|uuid body|]; cbn [Payments.handle].
  - destruct (HandleCreate_cases a uuid body) as [[-> _]|(req & _ & _ & _ & _ & ->)];
      [exact Hknown|].
    cbv zeta. cbn [fst payments].
    destruct (String.eqb_spec uuid id) as [->|Hne].
    + rewrite map_get_map_set. discriminate.
    + rewrite map_get_map_set_other by exact Hne. exact Hknown.
  - destruct (HandleRefund_cases a uuid body) as [[-> _]|(req & p & _ & _ & _ & ->)];
      exact Hknown.
  - exact Hknown.
Qed.

Lemma serve_cons a c rest :
  fst (serve a (c :: rest)) = fst (serve (fst (handle a c)) rest).
Proof.
  cbn [Payments.serve]. destruct (handle a c) as [a' resp]. cbn [fst].
  destruct (serve a' rest) as [a'' resps]. reflexivity.
Qed.

Lemma serve_keeps_payment calls : forall a id,
  map_get (payments a) id <> None ->
  map_get (payments (fst (serve a calls))) id <> None.
Proof.
  induction calls as [|c rest IH]; intros a id Hknown; [exact Hknown|].
  rewrite serve_cons. apply IH, handle_keeps_payment, Hknown.
Qed.

Lemma handle_well_stored a c :
  (forall k p, map_get (payments a) k = Some p -> well_stored k p) ->
  forall k p, map_get (payments (fst (handle a c))) k = Some p -> well_stored k p.
Proof.
  intros Hinv k p. destruct c as [uuid body|uuid body|]; cbn [Payments.handle].
  - destruct (HandleCreate_cases a uuid body)
      as [[-> _]|(req & _ & Hamount & Hcurrency & _ & ->)]; [apply Hinv|].
    cbv zeta. cbn [fst payments].
    destruct (String.eqb_spec uuid k) as [->|Hne].
    + rewrite map_get_map_set. intros [= <-]. repeat split; assumption.
    + rewrite map_get_map_set_other by exact Hne. apply Hinv.
  - destruct (HandleRefund_cases a uuid body) as [[-> _]|(req & q & _ & _ & _ & ->)];
      apply Hinv.
  - apply Hinv.
Qed.

Lemma handle_payment_origin a c k :
  map_get (payments (fst (handle a c))) k <> None ->
  map_get (payments a) k <> None \/ In k (create_ids [c]).
Proof.
  destruct c as [uuid body|uuid body|]; cbn [Payments.handle create_ids].
  - destruct (HandleCreate_cases a uuid body) as [[-> _]|(req & _ & _ & _ & _ & ->)];
      [auto|].
    cbv zeta. cbn [fst payments].
    destruct (String.eqb_spec uuid k) as [->|Hne]; [simpl; auto|].
    rewrite map_get_map_set_other by exact Hne. auto.
  - destruct (HandleRefund_cases a uuid body) as [[-> _]|(req & q & _ & _ & _ & ->)];
      auto.
  - auto.
Qed.

End PaymentsFacts.

(** X19. A request the payments adapter turns down changes nothing. Any
    call that is not answered 200 (a body that does not decode, an amount
    that is not positive, a missing currency, vendor or payment id, a refund
    of an unknown payment) leaves both maps of the adapter as they were; its
    status is 400 or 404 and its content type is text/plain, the hand-made
    JSON text notwithstanding. *)
Theorem rejected_call_changes_nothing `{GoLib}
    (Decode_CreateRequest : string -> result Payments.CreateRequest.t)
    (Decode_RefundRequest : string -> result Payments.RefundRequest.t)
    (a : Payments.Adapter) (c : Payments.call) :
  StatusCode (snd (Payments.handle Decode_CreateRequest Decode_RefundRequest a c)) <> 200 ->
  fst (Payments.handle Decode_CreateRequest Decode_RefundRequest a c) = a /\
  (StatusCode (snd (Payments.handle Decode_CreateRequest Decode_RefundRequest a c)) = 400 \/
   StatusCode (snd (Payments.handle Decode_CreateRequest Decode_RefundRequest a c)) = 404) /\
  Header (snd (Payments.handle Decode_CreateRequest Decode_RefundRequest a c))
    !! "Content-Type" = Some "text/plain; charset=utf-8".
Proof.
  destruct c as [uuid body|uuid body|]; cbn [Payments.handle].
  - destruct (HandleCreate_cases Decode_CreateRequest a uuid body)
      as [[-> [message ->]]|(req & _ & _ & _ & _ & ->)].
    + intros _. split; [reflexivity|]. split; [left|]; reflexivity.
    + cbv zeta. cbn [snd StatusCode]. congruence.
  - destruct (HandleRefund_cases Decode_RefundRequest a uuid body)
      as [[-> [[message ->]|[-> _]]]|(req & p & _ & _ & _ & ->)].
    + intros _. split; [reflexivity|]. split; [left|]; reflexivity.
    + intros _. split; [reflexivity|]. split; [right|]; reflexivity.
    + cbv zeta. cbn [snd StatusCode]. congruence.
  - cbn [snd Payments.HandleHealth StatusCode]. congruence.
Qed.

Lemma rejected_call_changes_nothing_witness :
  fst (Payments.handle sample_Decode_CreateRequest sample_Decode_RefundRequest
         Payments.NewAdapter (Payments.Create "pay-1" (create_body ""))) =
  Payments.NewAdapter /\
  (StatusCode
     (snd (Payments.handle sample_Decode_CreateRequest sample_Decode_RefundRequest
             Payments.NewAdapter (Payments.Create "pay-1" (create_body "")))) = 400 \/
   StatusCode
     (snd (Payments.handle sample_Decode_CreateRequest sample_Decode_RefundRequest
             Payments.NewAdapter (Payments.Create "pay-1" (create_body "")))) = 404) /\
  Header
    (snd (Payments.handle sample_Decode_CreateRequest sample_Decode_RefundRequest
            Payments.NewAdapter (Payments.Create "pay-1" (create_body ""))))
    !! "Content-Type" = Some "text/plain; charset=utf-8".
Proof.
  apply (rejected_call_changes_nothing sample_Decode_CreateRequest
           sample_Decode_RefundRequest Payments.NewAdapter
           (Payments.Create "pay-1" (create_body ""))).
  vm_compute. discriminate.
Defined.

(** X20. A created payment stays refundable. Once a create has been
    answered 200 under an id, a refund that names this id is answered 200
    with status "refunded", whatever calls the adapter has served in
    between: further creates, failed calls, and earlier refunds of the same
    payment, which the adapter does not remember against it. *)
Theorem created_payment_stays_refundable `{GoLib}
    (Decode_CreateRequest : string -> result Payments.CreateRequest.t)
    (Decode_RefundRequest : string -> result Payments.RefundRequest.t)
    (a : Payments.Adapter) (id createBody : string) (calls : list Payments.call)
    (uuid refundBody : string) (req : Payments.RefundRequest.t) :
  StatusCode (snd (Payments.HandleCreate Decode_CreateRequest a id createBody)) = 200 ->
  id <> "" ->
  Decode_RefundRequest refundBody = Ok req ->
  Payments.RefundRequest.PaymentID req = id ->
  snd (Payments.HandleRefund Decode_RefundRequest
         (fst (Payments.serve Decode_CreateRequest Decode_RefundRequest
                 (fst (Payments.HandleCreate Decode_CreateRequest a id createBody))
                 calls))
         uuid refundBody) =
  {| StatusCode := 200;
     Header := application_json;
     Body := Payments.Encode_RefundResponse
               (Payments.RefundResponse.mk uuid id "refunded") |}.
Proof.
  intros Hcreated Hid Hdecode Hnames.
  assert (Hstored :
            map_get (Payments.payments
                       (fst (Payments.HandleCreate Decode_CreateRequest a id createBody)))
              id <> None).
  { destruct (HandleCreate_cases Decode_CreateRequest a id createBody)
      as [[_ [message Hresp]]|(r & _ & _ & _ & _ & Hdone)].
    - rewrite Hresp in Hcreated. discriminate.
    - cbv zeta in Hdone. rewrite Hdone. cbn [fst Payments.payments].
      rewrite map_get_map_set. discriminate. }
  apply (serve_keeps_payment Decode_CreateRequest Decode_RefundRequest calls) in Hstored.
  unfold Payments.HandleRefund. rewrite Hdecode, Hnames.
  destruct (String.eqb_spec id ""); [contradiction|].
  destruct (map_get _ id); [reflexivity | contradiction].
Qed.

Lemma created_payment_stays_refundable_witness :
  snd (Payments.HandleRefund sample_Decode_RefundRequest
         (fst (Payments.serve sample_Decode_CreateRequest sample_Decode_RefundRequest
                 (fst (Payments.HandleCreate sample_Decode_CreateRequest
                         Payments.NewAdapter "pay-1" (create_body "V123")))
                 [Payments.Refund "ref-1" (refund_body "pay-1");
                  Payments.Create "pay-2" (create_body "V123");
                  Payments.Refund "ref-2" (refund_body "pay-9");
                  Payments.Health]))
         "ref-3" (refund_body "pay-1")) =
  {| StatusCode := 200;
     Header := application_json;
     Body := Payments.Encode_RefundResponse
               (Payments.RefundResponse.mk "ref-3" "pay-1" "refunded") |}.
Proof.
  apply (created_payment_stays_refundable sample_Decode_CreateRequest
           sample_Decode_RefundRequest Payments.NewAdapter "pay-1" (create_body "V123")
           _ "ref-3" (refund_body "pay-1")
           (Payments.RefundRequest.mk "pay-1" "Test refund")).
  - reflexivity.
  - discriminate.
  - reflexivity.
  - reflexivity.
Defined.

(** X21. What the adapter's store holds. After any run of calls on a fresh
    adapter, every payment in the store is filed under its own id, has the
    status "created", a currency, and an amount for which [amount <= 0] is
    false; and its id is one of the ids handed to the creates of the run,
    so a refund of any other id is answered 404. *)
Theorem stored_payments_invariant `{GoLib}
    (Decode_CreateRequest : string -> result Payments.CreateRequest.t)
    (Decode_RefundRequest : string -> result Payments.RefundRequest.t)
    (calls : list Payments.call) (k : string) (p : Payments.CreateResponse.t) :
  map_get
    (Payments.payments
       (fst (Payments.serve Decode_CreateRequest Decode_RefundRequest
               Payments.NewAdapter calls))) k = Some p ->
  well_stored k p /\ In k (create_ids calls).
Proof.
  assert (Hgen : forall a,
             (forall k p, map_get (Payments.payments a) k = Some p -> well_stored k p) ->
             forall k p,
               map_get
                 (Payments.payments
                    (fst (Payments.serve Decode_CreateRequest Decode_RefundRequest a calls)))
                 k = Some p ->
               well_stored k p /\
               (map_get (Payments.payments a) k <> None \/ In k (create_ids calls))).
  { induction calls as [|c rest IH]; intros a Hinv k0 p0 Hget.
    - split; [apply Hinv, Hget|]. left. cbn in Hget. congruence.
    - rewrite serve_cons in Hget.
      apply IH in Hget as [Hwell Horigin];
        [|apply handle_well_stored, Hinv].
      split; [exact Hwell|].
      destruct Horigin as [Hprev|Hlater].
      + apply handle_payment_origin in Hprev as [Hold|Hnew]; [left; exact Hold|].
        right. destruct c; cbn [create_ids] in *; simpl in Hnew; simpl; tauto.
      + right. destruct c; cbn [create_ids]; simpl; auto. }
  intros Hget.
  destruct (Hgen Payments.NewAdapter (fun k0 p0 Hnil => ltac:(discriminate Hnil)) k p Hget)
    as [Hwell [Hold|Hnew]]; [|auto].
  exfalso. apply Hold. reflexivity.
Qed.

Lemma stored_payments_invariant_witness :
  well_stored "pay-1"
    (Payments.CreateResponse.mk "pay-1" (Float64.of_int 1000) "USD" "created") /\
  In "pay-1"
    (create_ids [Payments.Create "pay-0" (create_body "");
                 Payments.Create "pay-1" (create_body "V123")]).
Proof.
  apply (stored_payments_invariant sample_Decode_CreateRequest sample_Decode_RefundRequest
           [Payments.Create "pay-0" (create_body "");
            Payments.Create "pay-1" (create_body "V123")]).
  reflexivity.
Defined.

(** ** The verdict and the order of the conditions *)

Section Verdict.

Variable ro : range_order.
Hypothesis ro_ok : range_ok ro.
Variables agentID tool action : string.
Variable params : Params.

Lemma check_conditions_pass_any_order conds :
  (check_conditions (order_conditions ro conds) params =? "") =
  (check_conditions conds params =? "").
Proof.
  destruct ro_ok as [_ Hconds].
  destruct (String.eqb_spec (check_conditions conds params) "") as [Hpass|Hfail].
  - apply String.eqb_eq, check_conditions_empty. rewrite (Hconds conds).
    apply check_conditions_empty, Hpass.
  - apply String.eqb_neq. intros Hpass. apply Hfail.
    apply check_conditions_empty. rewrite <- (Hconds conds).
    apply check_conditions_empty, Hpass.
Qed.

Lemma eval_permissions_verdict version allow :
  option_map (fun d => (Decision.Allow d, Decision.Version d))
    (eval_permissions ro tool action params version allow) =
  option_map (fun d => (Decision.Allow d, Decision.Version d))
    (eval_permissions storage_order tool action params version allow).
Proof.
  induction allow as [|perm rest IH]; [reflexivity|].
  cbn [eval_permissions]. cbv zeta.
  destruct (negb (Tool perm =? tool)); [exact IH|].
  destruct (negb (actionAllowed action (Actions perm))); [exact IH|].
  rewrite check_conditions_pass_any_order. cbn [storage_order order_conditions].
  destruct (negb (check_conditions (Conditions perm) params =? "")); reflexivity.
Qed.

Lemma eval_agents_verdict version agents :
  option_map (fun d => (Decision.Allow d, Decision.Version d))
    (eval_agents ro agentID tool action params version agents) =
  option_map (fun d => (Decision.Allow d, Decision.Version d))
    (eval_agents storage_order agentID tool action params version agents).
Proof.
  induction agents as [|agent rest IH]; [reflexivity|].
  cbn [eval_agents]. destruct (negb (ID agent =? agentID)); [exact IH|].
  pose proof (eval_permissions_verdict version (Allow agent)) as Hperm.
  destruct (eval_permissions ro tool action params version (Allow agent)),
    (eval_permissions storage_order tool action params version (Allow agent));
    try discriminate Hperm; [exact Hperm | exact IH].
Qed.

Lemma eval_policies_verdict files :
  option_map (fun d => (Decision.Allow d, Decision.Version d))
    (eval_policies ro agentID tool action params files) =
  option_map (fun d => (Decision.Allow d, Decision.Version d))
    (eval_policies storage_order agentID tool action params files).
Proof.
  induction files as [|[name policy] rest IH]; [reflexivity|].
  cbn [eval_policies].
  pose proof (eval_agents_verdict (Version policy) (Agents policy)) as Hagents.
  destruct (eval_agents ro agentID tool action params (Version policy) (Agents policy)),
    (eval_agents storage_order agentID tool action params (Version policy)
       (Agents policy));
    try discriminate Hagents; [exact Hagents | exact IH].
Qed.

End Verdict.

(** X22. Only the reason can depend on the order of the conditions. When at
    most one loaded file holds a permission for (agent, tool, action), every
    call of [Evaluate] on the snapshot gives the same verdict, the same
    allow bit and the same policy version, whatever order the map iterations
    take; a permission whose conditions fail for two reasons can change the
    text of the denial, never the denial. *)
Theorem verdict_independent_of_iteration_order
    (m : Manager) (agentID tool action : string) (params : Params)
    (d1 d2 : Decision.t) :
  unique_match agentID tool action (policies m) ->
  Evaluate_returns m agentID tool action params d1 ->
  Evaluate_returns m agentID tool action params d2 ->
  Decision.Allow d1 = Decision.Allow d2 /\ Decision.Version d1 = Decision.Version d2.
Proof.
  intros Huniq.
  assert (Hcanon : forall d,
             Evaluate_returns m agentID tool action params d ->
             (Decision.Allow d, Decision.Version d) =
             (Decision.Allow (Evaluate storage_order agentID tool action params m),
              Decision.Version (Evaluate storage_order agentID tool action params m))).
  { intros d (ro & Hro & <-). unfold Evaluate. cbn [storage_order order_policies].
    pose proof (eval_policies_verdict ro Hro agentID tool action params
                  (order_policies ro (policies m))) as Hverdict.
    rewrite (eval_policies_Permutation storage_order _ _ _ _ (policies m)) in Hverdict
      by (exact Huniq || apply Hro).
    destruct (eval_policies ro agentID tool action params (order_policies ro (policies m))),
      (eval_policies storage_order agentID tool action params (policies m));
      try discriminate Hverdict; [|reflexivity].
    injection Hverdict as -> ->. reflexivity. }
  intros H1 H2. pose proof (Hcanon _ H1) as E1. pose proof (Hcanon _ H2) as E2.
  rewrite <- E2 in E1. injection E1 as -> ->. auto.
Qed.

Lemma verdict_independent_of_iteration_order_witness :
  Decision.Allow
    (Evaluate storage_order "finance-agent" "payments" "create"
       (payment_params 50000 "GBP") example_manager) =
  Decision.Allow
    (Evaluate reverse_order "finance-agent" "payments" "create"
       (payment_params 50000 "GBP") example_manager) /\
  Decision.Version
    (Evaluate storage_order "finance-agent" "payments" "create"
       (payment_params 50000 "GBP") example_manager) =
  Decision.Version
    (Evaluate reverse_order "finance-agent" "payments" "create"
       (payment_params 50000 "GBP") example_manager).
Proof.
  apply (verdict_independent_of_iteration_order example_manager
           "finance-agent" "payments" "create" (payment_params 50000 "GBP")).
  - intros f1 f2 H1 H2 _ _. simpl in H1, H2.
    destruct H1 as [<-|[]], H2 as [<-|[]]. reflexivity.
  - exists storage_order. split; [exact storage_order_ok | reflexivity].
  - exists reverse_order. split; [exact reverse_order_ok | reflexivity].
Defined.

(** ** The reload endpoint and the watcher's reloads *)

(** X23. A reload that loads nothing still reports success. When the
    directory can be listed, POST /policies/reload answers 200 with status
    "reloaded" even if not one entry is a loadable policy file (unreadable,
    unparsable or invalid files are only printed): the gateway is then left
    without any policy, the ones it held are gone, and its adapters are
    untouched. *)
Theorem reload_of_broken_directory
    (yaml_Unmarshal : string -> option Policy) (fs : FileSystem) (g : Gateway)
    (es : list DirEntry) :
  ReadDir fs (dir (policyManager g)) = Ok es ->
  (forall entry pol,
      In entry es -> ~ loadable yaml_Unmarshal fs (dir (policyManager g)) entry pol) ->
  handle_reload yaml_Unmarshal fs g =
  ({| policyManager := {| policies := []; dir := dir (policyManager g) |};
      adapters := adapters g |},
   {| StatusCode := 200; Header := application_json; Body := Encode_status "reloaded" |}).
Proof.
  intros Hdir Hnone. unfold handle_reload, Reload, load_policies.
  rewrite Hdir, (load_entries_nothing _ _ _ _ [] Hnone). reflexivity.
Qed.

Lemma reload_of_broken_directory_witness :
  handle_reload example_yaml bare_fs example_gateway =
  ({| policyManager := {| policies := []; dir := "./policies" |};
      adapters := adapters example_gateway |},
   {| StatusCode := 200; Header := application_json; Body := Encode_status "reloaded" |}).
Proof.
  apply (reload_of_broken_directory example_yaml bare_fs example_gateway
           [ {| Name := "README.md"; IsDir := false |};
             {| Name := "archive.yaml"; IsDir := true |} ]).
  - reflexivity.
  - intros entry pol Hin (Hdir & Hsuffix & _). simpl in Hin.
    destruct Hin as [<-|[<-|[]]]; [vm_compute in Hsuffix | vm_compute in Hdir];
      discriminate.
Defined.

Lemma reload_calls_app a b : reload_calls (a ++ b) = reload_calls a ++ reload_calls b.
Proof.
  induction a as [|e a IH]; [reflexivity|].
  destruct e; simpl; rewrite IH; reflexivity.
Qed.

(** X24. One reload per event, no coalescing. As long as no channel is
    closed, the watcher calls [Reload] once for every event that carries the
    write or the create bit, and for nothing else: a burst of n writes to
    the directory costs n reloads. *)
Theorem watcher_reloads_once_per_event
    (yaml_Unmarshal : string -> option Policy) (m : Manager)
    (msgs : list (FileSystem * received)) :
  (forall fs msg, In (fs, msg) msgs -> closes msg = false) ->
  length (reload_calls (snd (watchPolicies yaml_Unmarshal m msgs))) =
  length (List.filter triggers_reload (map snd msgs)).
Proof.
  revert m. induction msgs as [|[fs msg] rest IH]; intros m Hopen; [reflexivity|].
  assert (Hrest : forall fs0 msg0, In (fs0, msg0) rest -> closes msg0 = false)
    by (intros fs0 msg0 Hin; apply (Hopen fs0 msg0); right; exact Hin).
  pose proof (Hopen fs msg (or_introl eq_refl)) as Hmsg.
  cbn [watchPolicies map snd List.filter].
  destruct msg as [event| |err|]; try discriminate Hmsg; cbn [watch_step triggers_reload].
  - destruct (write_or_create event).
    + destruct (Reload yaml_Unmarshal fs m) as [m' err].
      specialize (IH m' Hrest).
      destruct (watchPolicies yaml_Unmarshal m' rest) as [m'' effs].
      cbn [snd] in *. cbn [app reload_calls length]. rewrite IH. reflexivity.
    + specialize (IH m Hrest).
      destruct (watchPolicies yaml_Unmarshal m rest) as [m'' effs]. exact IH.
  - specialize (IH m Hrest).
    destruct (watchPolicies yaml_Unmarshal m rest) as [m'' effs]. exact IH.
Qed.

Lemma watcher_reloads_once_per_event_witness :
  length
    (reload_calls
       (snd (watchPolicies example_yaml example_manager
               [(example_fs, FromEvents {| EventName := "policies/example.yaml";
                                           EventOp := Op.Write |});
                (example_fs, FromEvents {| EventName := "policies/example.yaml";
                                           EventOp := Op.Write |});
                (example_fs, FromEvents {| EventName := "policies/example.yaml";
                                           EventOp := Op.Chmod |});
                (example_fs, FromErrors "too many events")]))) =
  length
    (List.filter triggers_reload
       (map snd
          [(example_fs, FromEvents {| EventName := "policies/example.yaml";
                                      EventOp := Op.Write |});
           (example_fs, FromEvents {| EventName := "policies/example.yaml";
                                      EventOp := Op.Write |});
           (example_fs, FromEvents {| EventName := "policies/example.yaml";
                                      EventOp := Op.Chmod |});
           (example_fs, FromErrors "too many events")])).
Proof.
  apply (watcher_reloads_once_per_event example_yaml example_manager).
  intros fs msg Hin. simpl in Hin.
  destruct Hin as [[= _ <-]|[[= _ <-]|[[= _ <-]|[[= _ <-]|[]]]]]; reflexivity.
Defined.

(** ** The parent agent *)

(** X25. X-Parent-Agent is recorded, never checked. Two tool calls that
    differ in nothing but this header get the same answer and send the same
    request to the adapter; the header shows in the audit record and in the
    span attributes only. *)
Theorem parent_agent_is_only_recorded `{GoLib}
    (g : Gateway) (env : Env) (r : Request) (parentAgent : string) :
  let r' := {| vars_tool := vars_tool r;
               vars_action := vars_action r;
               X_Agent_ID := X_Agent_ID r;
               X_Parent_Agent := parentAgent;
               ReadAll_Body := ReadAll_Body r |} in
  fst (handleToolRequest g env r') = fst (handleToolRequest g env r) /\
  http_posts (snd (handleToolRequest g env r')) =
  http_posts (snd (handleToolRequest g env r)) /\
  map AuditLog.ParentAgent (audit_records (snd (handleToolRequest g env r'))) =
  map (fun _ => parentAgent) (audit_records (snd (handleToolRequest g env r))).
Proof.
  cbv zeta. rewrite !handleToolRequest_audit, !handleToolRequest_route.
  cbn [fst snd vars_tool vars_action X_Agent_ID X_Parent_Agent ReadAll_Body].
  unfold route.
  cbn [vars_tool vars_action X_Agent_ID X_Parent_Agent ReadAll_Body].
  destruct (X_Agent_ID r =? ""); [auto|].
  destruct (ReadAll_Body r) as [requestBody|]; [|auto].
  destruct (Unmarshal requestBody) as [requestParams|]; [|auto].
  unfold authorize. cbv zeta.
  cbn [vars_tool vars_action X_Agent_ID X_Parent_Agent ReadAll_Body].
  destruct (negb _); [auto|].
  destruct (adapters g !! vars_tool r); [|auto].
  destruct (forward_to_adapter env _ requestBody)
    as [[[status [responseBody|]]|err] sent];
    cbn [fst snd http_posts]; rewrite !http_posts_app; auto.
Qed.

(** ** Where a denial comes from *)

(** X26. Every denial has its cause in the policy. For any iteration order,
    a denying decision is either the "No policy found" default or the
    denial of a permission of a loaded file that matches the caller, the
    tool and the action; its reason is then the one a condition of that very
    permission returns for the request, and its version is the file's. *)
Theorem denial_has_failing_condition
    (ro : range_order) (agentID tool action : string) (params : Params) (m : Manager) :
  range_ok ro ->
  Decision.Allow (Evaluate ro agentID tool action params m) = false ->
  Evaluate ro agentID tool action params m = no_policy_found agentID tool action \/
  exists name policy agent perm condName condVal,
    In (name, policy) (policies m) /\
    In agent (Agents policy) /\
    In perm (Allow agent) /\
    ID agent = agentID /\
    Tool perm = tool /\
    In action (Actions perm) /\
    In (condName, condVal) (Conditions perm) /\
    check_condition condName condVal params =
    Some (Decision.Reason (Evaluate ro agentID tool action params m)) /\
    Decision.Version (Evaluate ro agentID tool action params m) = Version policy.
Proof.
  intros [Hfiles Hconds] Hdeny.
  destruct (Evaluate_cases ro agentID tool action params m)
    as [Hnone|(name & policy & agent & perm & Hfile & Hagent & Hperm & Hid & Hm & Hd)];
    [left; exact Hnone | right].
  apply (Permutation_in _ (Hfiles (policies m))) in Hfile.
  apply andb_true_iff in Hm as [Htool Haction].
  apply String.eqb_eq in Htool. apply actionAllowed_In in Haction.
  rewrite Hd in Hdeny |- *. unfold decided in *. cbv zeta in *.
  destruct (String.eqb_spec
              (check_conditions (order_conditions ro (Conditions perm)) params) "")
    as [_|Hfail]; cbn [negb] in *; [discriminate|].
  destruct (check_conditions_In _ _ Hfail) as (condName & condVal & Hin & Hreason).
  apply (Permutation_in _ (Hconds (Conditions perm))) in Hin.
  exists name, policy, agent, perm, condName, condVal.
  cbn [Decision.Reason Decision.Version]. auto 10.
Qed.

Lemma denial_has_failing_condition_witness :
  Evaluate storage_order "finance-agent" "payments" "create"
    (payment_params 50000 "USD") example_manager =
  no_policy_found "finance-agent" "payments" "create" \/
  exists name policy agent perm condName condVal,
    In (name, policy) (policies example_manager) /\
    In agent (Agents policy) /\
    In perm (Allow agent) /\
    ID agent = "finance-agent" /\
    Tool perm = "payments" /\
    In "create" (Actions perm) /\
    In (condName, condVal) (Conditions perm) /\
    check_condition condName condVal (payment_params 50000 "USD") =
    Some (Decision.Reason
            (Evaluate storage_order "finance-agent" "payments" "create"
               (payment_params 50000 "USD") example_manager)) /\
    Decision.Version
      (Evaluate storage_order "finance-agent" "payments" "create"
         (payment_params 50000 "USD") example_manager) = Version policy.
Proof.
  apply (denial_has_failing_condition storage_order "finance-agent" "payments" "create"
           (payment_params 50000 "USD") example_manager).
  - exact storage_order_ok.
  - vm_compute. reflexivity.
Defined.

(** ** The audit record and the forwarded call *)

(** X27. The audit records the decision, never the outcome. The audit
    records of a tool call are the same whatever the adapter does: whether
    the outbound request can be built, whether the adapter answers, fails or
    times out, and whatever status and body it returns. An allowed call the
    adapter rejects is on record as allowed. *)
Theorem audit_ignores_adapter_outcome `{GoLib}
    (g : Gateway) (env : Env) (r : Request)
    (new_request_error' : string -> option string)
    (adapter_do' : string -> string -> result (Z * result string)) :
  let env' := {| ranges := ranges env;
                 now := now env;
                 trace_id := trace_id env;
                 elapsed_us := elapsed_us env;
                 new_request_error := new_request_error';
                 adapter_do := adapter_do' |} in
  audit_records (snd (handleToolRequest g env' r)) =
  audit_records (snd (handleToolRequest g env r)).
Proof.
  cbv zeta. rewrite !handleToolRequest_audit.
  destruct (X_Agent_ID r =? ""); [reflexivity|].
  destruct (ReadAll_Body r) as [requestBody|]; [|reflexivity].
  destruct (Unmarshal requestBody) as [requestParams|]; reflexivity.
Qed.

(** ** Revocation *)

Lemma load_entries_In yaml_Unmarshal fs d es acc name pol :
  In (name, pol) (load_entries yaml_Unmarshal fs d es acc) ->
  (exists entry, In entry es /\ Name entry = name /\
                 loadable yaml_Unmarshal fs d entry pol) \/
  In (name, pol) acc.
Proof.
  revert acc. induction es as [|e rest IH]; intros acc Hin; [right; exact Hin|].
  destruct (load_entries_cons yaml_Unmarshal fs d e rest acc) as [Heq|(pol' & Hload & Heq)];
    rewrite Heq in Hin; apply IH in Hin as [(entry & Hentry & Hname & Hl)|Hacc].
  - left. exists entry. simpl. auto.
  - right. exact Hacc.
  - left. exists entry. simpl. auto.
  - apply In_map_set in Hacc as [Hnew|Hacc]; [|right; exact Hacc].
    injection Hnew as -> ->. left. exists e. simpl. auto.
Qed.

(** X28. A reload revokes. After POST /policies/reload on a directory that
    can be listed and in which no loadable file holds a permission for
    (agent, tool, action), a tool call of that agent is answered with status
    403, content type application/json and the JSON object whose error is
    PolicyViolation and whose reason is the "No policy found" text for the
    agent, the tool and the action, and nothing is sent to an adapter,
    whatever the gateway had loaded before and whatever order the map
    iterations take. *)
Theorem reload_revokes `{GoLib}
    (yaml_Unmarshal : string -> option Policy) (fs : FileSystem) (g : Gateway)
    (es : list DirEntry) (env : Env) (r : Request) (requestBody : string)
    (requestParams : Params) :
  ReadDir fs (dir (policyManager g)) = Ok es ->
  (forall entry pol,
      In entry es ->
      loadable yaml_Unmarshal fs (dir (policyManager g)) entry pol ->
      policy_matches (X_Agent_ID r) (vars_tool r) (vars_action r) pol = false) ->
  range_ok (ranges env) ->
  X_Agent_ID r <> "" ->
  ReadAll_Body r = Ok requestBody ->
  Unmarshal requestBody = Ok requestParams ->
  fst (handleToolRequest (fst (handle_reload yaml_Unmarshal fs g)) env r) =
  {| StatusCode := 403;
     Header := {[ "Content-Type" := "application/json" ]};
     Body := "{" +:+ quoted "error" +:+ ":" +:+ quoted "PolicyViolation" +:+ "," +:+
             quoted "reason" +:+ ":" +:+
             appendString
               ("No policy found for agent=" +:+ X_Agent_ID r +:+ ", tool=" +:+
                vars_tool r +:+ ", action=" +:+ vars_action r) +:+
             "}" +:+ newline |} /\
  http_posts (snd (handleToolRequest (fst (handle_reload yaml_Unmarshal fs g)) env r)) = [].
Proof.
  intros Hdir Hnone [Hfiles _] Hagent Hbody Hparse.
  unfold handle_reload, Reload, load_policies, with_manager. rewrite Hdir. cbn [fst].
  set (g' := {| policyManager :=
                  {| policies := load_entries yaml_Unmarshal fs (dir (policyManager g)) es [];
                     dir := dir (policyManager g) |};
                adapters := adapters g |}).
  assert (Hdecision :
            Evaluate (ranges env) (X_Agent_ID r) (vars_tool r) (vars_action r)
              requestParams (policyManager g') =
            no_policy_found (X_Agent_ID r) (vars_tool r) (vars_action r)).
  { unfold Evaluate. cbn [g' policyManager policies].
    rewrite (proj2 (eval_policies_None _ _ _ _ _ _)); [reflexivity|].
    rewrite (Hfiles _). apply List.Forall_forall. intros [name pol] Hin. cbn [snd].
    apply load_entries_In in Hin as [(entry & Hentry & _ & Hload)|[]].
    apply (Hnone entry pol Hentry Hload). }
  assert (Hdeny :
            Decision.Allow
              (Evaluate (ranges env) (X_Agent_ID r) (vars_tool r) (vars_action r)
                 requestParams (policyManager g')) = false)
    by (rewrite Hdecision; reflexivity).
  rewrite handleToolRequest_route. cbn [fst snd]. unfold route.
  destruct (String.eqb_spec (X_Agent_ID r) ""); [contradiction|].
  rewrite Hbody, Hparse.
  destruct (authorize_deny g' env r requestBody requestParams Hdeny) as [Hexit Hposts].
  rewrite Hexit, Hdecision. split.
  - cbn [respond no_policy_found Decision.Reason].
    rewrite write_error_response by (rewrite append_cons; discriminate). reflexivity.
  - cbn [http_posts]. rewrite http_posts_app, Hposts. reflexivity.
Qed.

Lemma reload_revokes_witness :
  fst (handleToolRequest (fst (handle_reload example_yaml example_fs example_gateway))
         example_env (example_request "intern" (Ok (payment_body "1000" "USD")))) =
  {| StatusCode := 403;
     Header := {[ "Content-Type" := "application/json" ]};
     Body := "{" +:+ quoted "error" +:+ ":" +:+ quoted "PolicyViolation" +:+ "," +:+
             quoted "reason" +:+ ":" +:+
             quoted "No policy found for agent=intern, tool=payments, action=create" +:+
             "}" +:+ newline |} /\
  http_posts
    (snd (handleToolRequest (fst (handle_reload example_yaml example_fs example_gateway))
            example_env (example_request "intern" (Ok (payment_body "1000" "USD"))))) = [].
Proof.
  apply (reload_revokes example_yaml example_fs example_gateway
           [ {| Name := "example.yaml"; IsDir := false |} ]
           example_env (example_request "intern" (Ok (payment_body "1000" "USD")))
           (payment_body "1000" "USD") (payment_params 1000 "USD")).
  - reflexivity.
  - intros entry pol _ (_ & _ & fileData & _ & Hyaml & _).
    injection Hyaml as <-. reflexivity.
  - exact storage_order_ok.
  - discriminate.
  - reflexivity.
  - vm_compute. reflexivity.
Defined.
